(** * CollabBoard: the client-side sync, presence and AI-action pipeline

    A shallow embedding of the TypeScript hooks and page logic of the
    CollabBoard web client, and the properties of its specification.

    - JavaScript objects are finite maps from property names to values
      ([gmap string value]); property reads, [??], [||] and [in] are
      written out with their JavaScript meaning.
    - Numbers held in documents and in updates are carried as rationals
      ([Q]), with the arithmetic the code performs on them written out;
      clock readings ([Date.now()]) are integers ([Z]) injected into
      them.  The geometry of the canvas stage (zoom, pan, pointer
      positions) is computed on binary64 floating-point numbers
      ([PrimFloat.float]), as JavaScript computes it.
    - The remote document store is a finite map from document ids to
      documents; only what the hooks rely on (set, merge-update, delete)
      is modelled.
    - Timers and the clock are explicit: a handler receives the clock
      reading it would obtain from [Date.now()], and a pending timer is a
      deadline held in the state. *)

From Stdlib Require Import ZArith QArith Qminmax Lia.
From Stdlib Require Floats.
From stdpp Require Import base option list gmap strings fin_maps.

Local Open Scope string_scope.
Local Open Scope Z_scope.
Local Open Scope list_scope.

#[local] Set Warnings "-inexact-float".

(** ** JavaScript values and objects *)

Inductive value : Type :=
| VUndef
| VNull
| VBool (b : bool)
| VNum (q : Q)
| VStr (s : string)
| VNums (l : list Q).

Arguments VNum q%_Q.

Abbreviation jsobj := (gmap string value).

(** A clock reading as a JavaScript number. *)
Definition VTime (t : Z) : value := VNum (inject_Z t).

Module JS.

(** [o.k]: reading an absent property gives [undefined]. *)
Definition get (o : jsobj) (k : string) : value := default VUndef (o !! k).

Definition nullish (v : value) : bool :=
  match v with
  | VUndef | VNull => true
  | _ => false
  end.

(** [v ?? d] *)
Definition coalesce (v d : value) : value := if nullish v then d else v.

Definition truthy (v : value) : bool :=
  match v with
  | VUndef | VNull => false
  | VBool b => b
  | VNum q => negb (Qeq_bool q 0)
  | VStr s => negb (String.eqb s "")
  | VNums _ => true
  end.

(** [v || d] *)
Definition or (v d : value) : value := if truthy v then v else d.

(** ['k' in o] *)
Definition has (k : string) (o : jsobj) : bool := bool_decide (is_Some (o !! k)).

(** [v === 's'] for a string literal. *)
Definition is_str (v : value) (s : string) : bool :=
  match v with
  | VStr s' => String.eqb s' s
  | _ => false
  end.

(** An object literal [{ k1: v1, k2: v2, ... }]: a later property wins
    over an earlier one of the same name, so the list is inserted from
    its last entry to its first. *)
Definition literal {A : Type} (props : list (string * A)) : gmap string A :=
  list_to_map (reverse props).

(** [{...a, ...b}]: the properties of [b] win. *)
Definition spread (a b : jsobj) : jsobj := b ∪ a.

(** [...(v !== undefined && { k: v })] inside an object literal. *)
Definition set_if_defined (k : string) (v : value) (o : jsobj) : jsobj :=
  match v with
  | VUndef => o
  | _ => <[k := v]> o
  end.

(** A possibly absent string used as a condition ([!s] is false): the
    string when it is present and not empty. *)
Definition truthyStr (s : option string) : option string :=
  match s with
  | Some s => if String.eqb s "" then None else Some s
  | None => None
  end.

(** The numeric content of a value that is known to be a number. *)
Definition num (v : value) : Q :=
  match v with
  | VNum q => q
  | _ => 0%Q
  end.

End JS.

(** ** The remote document store (one collection)

  Documents of one collection, keyed by document id.  [setDoc] replaces
  the document, [updateDoc] overwrites the named fields of an existing
  document and is rejected when there is none, [deleteDoc] removes it. *)

Module Firestore.

Abbreviation coll := (gmap string jsobj).

Definition setDoc (id : string) (data : jsobj) (c : coll) : coll :=
  <[id := data]> c.

Definition updateDoc (id : string) (data : jsobj) (c : coll) : option coll :=
  match c !! id with
  | Some d => Some (<[id := data ∪ d]> c)
  | None => None
  end.

Definition deleteDoc (id : string) (c : coll) : coll := delete id c.

End Firestore.

Import Firestore.

(** ** useBoardObjects.ts *)

Module BoardObjects.

(** The document [addObject] and [addObjects] build from a partial object. *)
Definition fullObj (obj : jsobj) (id : string) (userId : string) (now : Z) : jsobj :=
  JS.set_if_defined "points" (JS.get obj "points")
    (JS.set_if_defined "toId" (JS.get obj "toId")
      (JS.set_if_defined "fromId" (JS.get obj "fromId")
        (<["id" := VStr id]>
          (<["type" := JS.get obj "type"]>
            (<["x" := JS.coalesce (JS.get obj "x") (VNum 0)]>
              (<["y" := JS.coalesce (JS.get obj "y") (VNum 0)]>
                (<["width" := JS.coalesce (JS.get obj "width") (VNum 200)]>
                  (<["height" := JS.coalesce (JS.get obj "height") (VNum 200)]>
                    (<["rotation" := JS.coalesce (JS.get obj "rotation") (VNum 0)]>
                      (<["text" := JS.coalesce (JS.get obj "text") (VStr "")]>
                        (<["color" := JS.coalesce (JS.get obj "color") (VStr "#FFEB3B")]>
                          (<["fontSize" := JS.coalesce (JS.get obj "fontSize") (VNum 16)]>
                            (<["createdBy" := VStr userId]>
                              (<["createdAt" := VTime now]>
                                (<["updatedAt" := VTime now]> ∅))))))))))))))).

(** [obj.id || uuidv4()]; [uuid] is the token [uuidv4()] would return.
    A document key is a string: any other truthy [id] is refused. *)
Definition chooseId (obj : jsobj) (uuid : string) : option string :=
  match JS.or (JS.get obj "id") (VStr uuid) with
  | VStr s => Some s
  | _ => None
  end.

(** [addObject(obj, userId)]: [None] is a rejected call; otherwise the
    collection after the call and the returned value ([None] for
    [null]). *)
Definition addObject (boardId : option string) (obj : jsobj) (userId : string)
    (now : Z) (uuid : string) (c : coll) : option (coll * option string) :=
  match JS.truthyStr boardId with
  | None => Some (c, None)
  | Some _ =>
      match chooseId obj uuid with
      | Some id => Some (setDoc id (fullObj obj id userId now) c, Some id)
      | None => None
      end
  end.

(** [updateObject(id, updates)]: [None] is a rejected call. *)
Definition updateObject (boardId : option string) (id : string) (updates : jsobj)
    (now : Z) (c : coll) : option coll :=
  match JS.truthyStr boardId with
  | None => Some c
  | Some _ => updateDoc id (<["updatedAt" := VTime now]> updates) c
  end.

Definition deleteObject (boardId : option string) (id : string) (c : coll) : coll :=
  match JS.truthyStr boardId with
  | None => c
  | Some _ => deleteDoc id c
  end.

End BoardObjects.

(** ** useCursors.ts *)

Module Cursors.

Record CursorData : Type := {
  userId : string;
  displayName : string;
  photoURL : option string;
  x : Q;
  y : Q;
  color : string;
  lastUpdated : Z
}.

Inductive changeType : Type := added | modified | removed.

(** One entry of [snapshot.docChanges()]. *)
Record docChange : Type := {
  ctype : changeType;
  doc_id : string;
  doc_data : CursorData
}.

(** The body of the [forEach] over the changes of a snapshot; [me] is the
    hook's [userId] argument. *)
Definition applyChange (me : option string) (next : gmap string CursorData)
    (change : docChange) : gmap string CursorData :=
  match ctype change with
  | added | modified =>
      if bool_decide (Some (userId (doc_data change)) ≠ me)
      then <[doc_id change := doc_data change]> next
      else next
  | removed => delete (doc_id change) next
  end.

Definition stale (now : Z) (cursor : CursorData) : Prop :=
  now - lastUpdated cursor > 30000.

#[global] Instance stale_dec now cursor : Decision (stale now cursor).
Proof. unfold stale. apply Z_gt_dec. Defined.

(** The loop that deletes stale cursors from [next]. *)
Definition cleanStale (now : Z) (next : gmap string CursorData) : gmap string CursorData :=
  filter (λ kv, ¬ stale now kv.2) next.

(** The state update run for one snapshot delivered at clock reading [now]. *)
Definition onSnapshot (me : option string) (now : Z) (changes : list docChange)
    (prev : gmap string CursorData) : gmap string CursorData :=
  cleanStale now (foldl (applyChange me) prev changes).

(** [Array.from(cursors.values())] *)
Definition cursorList (cursors : gmap string CursorData) : list CursorData :=
  (map_to_list cursors).*2.

(** One snapshot delivery: the clock reading, the [userId] argument the
    hook has at that moment, and the changes of the snapshot. *)
Record delivery : Type := {
  now_ms : Z;
  hookUserId : option string;
  docChanges : list docChange
}.

(** The cache after a series of snapshot deliveries, starting from the
    hook's initial empty map.  [userId] is an argument of the hook and can
    change between deliveries (the effect then subscribes anew); the map
    is state of the hook and is kept. *)
Definition run (ds : list delivery) : gmap string CursorData :=
  foldl (λ prev d, onSnapshot (hookUserId d) (now_ms d) (docChanges d) prev) ∅ ds.

(** The publisher: the throttle stamp and the log of remote writes. *)
Record publisher : Type := {
  throttleRef : Z;
  writes : list (string * CursorData)
}.

Definition initial : publisher := {| throttleRef := 0; writes := [] |}.

(** [photoURL || null] *)
Definition photoOrNull (photo : option string) : option string :=
  match photo with
  | Some s => if String.eqb s "" then None else Some s
  | None => None
  end.

(** [updateCursor(x, y, displayName, color, photoURL)] called when the
    clock reads [now]. *)
Definition updateCursor (boardId me : option string) (now : Z)
    (px py : Q) (name col : string) (photo : option string)
    (p : publisher) : publisher :=
  match JS.truthyStr boardId, JS.truthyStr me with
  | Some _, Some uid =>
      if bool_decide (now - throttleRef p < 50) then p
      else {| throttleRef := now;
              writes := writes p ++
                [(uid, {| userId := uid; displayName := name;
                          photoURL := photoOrNull photo;
                          x := px; y := py; color := col;
                          lastUpdated := now |})] |}
  | _, _ => p
  end.

(** A pointer move: clock reading and position. *)
Record move : Type := { at_ms : Z; mx : Q; my : Q }.

Definition publish (boardId me : option string) (name col : string)
    (photo : option string) (moves : list move) (p : publisher) : publisher :=
  foldl (λ p m, updateCursor boardId me (at_ms m) (mx m) (my m) name col photo p)
        p moves.

End Cursors.

(** ** usePresence.ts *)

Module Presence.

Record PresenceUser : Type := {
  uid : string;
  displayName : string;
  photoURL : option string;
  color : string;
  isOnline : bool;
  lastSeen : Z
}.

(** The snapshot listener: the list it passes to [setUsers] for the
    documents of a snapshot delivered at clock reading [now]. *)
Definition onSnapshot (now : Z) (docs : list PresenceUser) : list PresenceUser :=
  filter (λ data, now - lastSeen data < 30000) docs.


End Presence.

(** ** BoardPage.tsx *)

Module BoardPage.

Inductive Tool : Type :=
| ToolSelect | ToolStickyNote | ToolRectangle | ToolCircle
| ToolLine | ToolArrow | ToolText | ToolPan.

Definition toolName (t : Tool) : string :=
  match t with
  | ToolSelect => "select"
  | ToolStickyNote => "sticky-note"
  | ToolRectangle => "rectangle"
  | ToolCircle => "circle"
  | ToolLine => "line"
  | ToolArrow => "arrow"
  | ToolText => "text"
  | ToolPan => "pan"
  end.

(** The calls the page makes into the object sync layer, in the order it
    makes them.  Ids coming from AI parameters are arbitrary values. *)
Inductive syncCall : Type :=
| AddObject (obj : jsobj) (uid : string)
| AddObjects (objs : list jsobj) (uid : string)
| UpdateObject (id : string) (updates : jsobj)
| UpdateObjects (batch : list (value * jsobj))
| DeleteObjects (ids : list value).

(** The page state the handlers below read and write: the debounce
    buffer, the deadline of the armed flush timer (if any), the active
    tool, and the sync-layer calls made so far. *)
Record page : Type := {
  pendingUpdates : gmap string jsobj;
  flushTimer : option Z;
  activeTool : Tool;
  calls : list syncCall
}.

Definition mount : page :=
  {| pendingUpdates := ∅; flushTimer := None; activeTool := ToolSelect; calls := [] |}.

(** [Array.from(m.entries()).map(([id, changes]) => ({ id, changes }))] *)
Definition toBatch (m : gmap string jsobj) : list (value * jsobj) :=
  (λ e : string * jsobj, (VStr e.1, e.2)) <$> map_to_list m.

Definition flushPendingUpdates (p : page) : page :=
  if bool_decide (size (pendingUpdates p) = 0%nat) then p
  else
    let batch := toBatch (pendingUpdates p) in
    {| pendingUpdates := ∅;
       flushTimer := flushTimer p;
       activeTool := activeTool p;
       calls := calls p ++ [UpdateObjects batch] |}.

(** [debouncedUpdate(id, updates)] at clock reading [now]: the buffer
    entry is merged, a pending timer is cleared and a new one is armed
    50ms ahead. *)
Definition debouncedUpdate (now : Z) (id : string) (updates : jsobj) (p : page) : page :=
  {| pendingUpdates :=
       <[id := JS.spread (default ∅ (pendingUpdates p !! id)) updates]> (pendingUpdates p);
     flushTimer := Some (now + 50);
     activeTool := activeTool p;
     calls := calls p |}.

(** The event loop reaching clock reading [now]: an armed timer whose
    deadline has passed fires and runs its callback. *)
Definition elapse (now : Z) (p : page) : page :=
  match flushTimer p with
  | Some deadline =>
      if bool_decide (deadline ≤ now)%Z
      then flushPendingUpdates
             {| pendingUpdates := pendingUpdates p; flushTimer := None;
                activeTool := activeTool p; calls := calls p |}
      else p
  | None => p
  end.

Definition isPositionUpdate (updates : jsobj) : bool :=
  (JS.has "x" updates || JS.has "y" updates || JS.has "width" updates
   || JS.has "height" updates || JS.has "rotation" updates)
  && negb (JS.has "text" updates) && negb (JS.has "color" updates)
  && negb (JS.has "strokeWidth" updates).

Definition handleObjectUpdate (now : Z) (id : string) (updates : jsobj) (p : page) : page :=
  if isPositionUpdate updates then debouncedUpdate now id updates p
  else {| pendingUpdates := pendingUpdates p; flushTimer := flushTimer p;
          activeTool := activeTool p;
          calls := calls p ++ [UpdateObject id updates] |}.

(** The [defaults] table of [handleCanvasClick]. *)
Definition defaults : gmap string jsobj :=
  JS.literal
    [ ("sticky-note",
        JS.literal [("width", VNum 200); ("height", VNum 200);
                     ("color", VStr "#FFEB3B"); ("text", VStr "");
                     ("fontSize", VNum 16)]);
      ("rectangle",
        JS.literal [("width", VNum 200); ("height", VNum 150);
                     ("color", VStr "#2196F3")]);
      ("circle",
        JS.literal [("width", VNum 200); ("height", VNum 200);
                     ("color", VStr "#4CAF50")]);
      ("text",
        JS.literal [("width", VNum 200); ("height", VNum 200);
                     ("color", VStr "#ffffff"); ("text", VStr "");
                     ("fontSize", VNum 20)]);
      ("line",
        JS.literal [("width", VNum 200); ("height", VNum 0);
                     ("color", VStr "#ffffff");
                     ("points", VNums [0; 0; 200; 0]%Q);
                     ("strokeWidth", VNum 3)]);
      ("arrow",
        JS.literal [("width", VNum 200); ("height", VNum 0);
                     ("color", VStr "#ffffff");
                     ("points", VNums [0; 0; 200; 0]%Q);
                     ("strokeWidth", VNum 3)]) ].

(** The object [handleCanvasClick] passes to [addObject] for a click at
    [(cx, cy)] with tool [t]. *)
Definition clickObject (t : Tool) (cx cy : Q) : jsobj :=
  let d := default ∅ (defaults !! toolName t) in
  JS.spread
    (<["type" := VStr (toolName t)]>
      (<["x" := VNum (cx - JS.num (JS.or (JS.get d "width") (VNum 200)) / 2)]>
        (<["y" := VNum (cy - JS.num (JS.or (JS.get d "height") (VNum 200)) / 2)]> ∅)))
    d.

Definition handleCanvasClick (user : option string) (cx cy : Q) (p : page) : page :=
  match user with
  | None => p
  | Some uid =>
      match activeTool p with
      | ToolSelect | ToolPan => p
      | t =>
          {| pendingUpdates := pendingUpdates p; flushTimer := flushTimer p;
             activeTool := ToolSelect;
             calls := calls p ++ [AddObject (clickObject t cx cy) uid] |}
      end
  end.

(** *** executeAIActions *)

(** One [{ action, params }] entry of the AI response.  [params] is
    [None] when it is [undefined] or [null], so that reading a property
    of it throws. *)
Record instruction : Type := { action : string; params : option jsobj }.

(** The three arrays the loop fills. *)
Record batches : Type := {
  creates : list jsobj;
  updates : list (value * jsobj);
  deletes : list value
}.

Definition noBatches : batches := {| creates := []; updates := []; deletes := [] |}.

Definition pushCreate (o : jsobj) (b : batches) : batches :=
  {| creates := creates b ++ [o]; updates := updates b; deletes := deletes b |}.

Definition pushUpdate (id : value) (changes : jsobj) (b : batches) : batches :=
  {| creates := creates b; updates := updates b ++ [(id, changes)]; deletes := deletes b |}.

Definition pushDelete (id : value) (b : batches) : batches :=
  {| creates := creates b; updates := updates b; deletes := deletes b ++ [id] |}.

(** The body of the loop: the [switch] on the action name.  [None] is a
    [TypeError] from reading a property of absent [params]; a name that
    matches no [case] reads nothing and leaves the arrays as they are. *)
Definition dispatch (b : batches) (i : instruction) : option batches :=
  let a := action i in
  if String.eqb a "createStickyNote" then
    ps ← params i;
    Some (pushCreate (JS.literal
      [("type", VStr "sticky-note");
       ("x", JS.coalesce (JS.get ps "x") (VNum 0));
       ("y", JS.coalesce (JS.get ps "y") (VNum 0));
       ("width", JS.coalesce (JS.get ps "width") (VNum 200));
       ("height", JS.coalesce (JS.get ps "height") (VNum 200));
       ("color", JS.coalesce (JS.get ps "color") (VStr "#FFEB3B"));
       ("text", JS.coalesce (JS.get ps "text") (VStr ""))]) b)
  else if String.eqb a "createShape" then
    ps ← params i;
    Some (pushCreate (JS.literal
      [("type", if JS.is_str (JS.get ps "type") "circle"
                then VStr "circle" else VStr "rectangle");
       ("x", JS.coalesce (JS.get ps "x") (VNum 0));
       ("y", JS.coalesce (JS.get ps "y") (VNum 0));
       ("width", JS.coalesce (JS.get ps "width") (VNum 200));
       ("height", JS.coalesce (JS.get ps "height") (VNum 150));
       ("color", JS.coalesce (JS.get ps "color") (VStr "#2196F3"))]) b)
  else if String.eqb a "createFrame" then
    ps ← params i;
    Some (pushCreate (JS.literal
      [("type", VStr "frame");
       ("x", JS.coalesce (JS.get ps "x") (VNum 0));
       ("y", JS.coalesce (JS.get ps "y") (VNum 0));
       ("width", JS.coalesce (JS.get ps "width") (VNum 400));
       ("height", JS.coalesce (JS.get ps "height") (VNum 300));
       ("color", JS.coalesce (JS.get ps "color") (VStr "#37474F"));
       ("text", JS.coalesce (JS.get ps "title") (VStr "Frame"))]) b)
  else if String.eqb a "createText" then
    ps ← params i;
    Some (pushCreate (JS.literal
      [("type", VStr "text");
       ("x", JS.coalesce (JS.get ps "x") (VNum 0));
       ("y", JS.coalesce (JS.get ps "y") (VNum 0));
       ("width", VNum 300);
       ("height", VNum 50);
       ("color", JS.coalesce (JS.get ps "color") (VStr "#ffffff"));
       ("text", JS.coalesce (JS.get ps "text") (VStr ""));
       ("fontSize", JS.coalesce (JS.get ps "fontSize") (VNum 20))]) b)
  else if String.eqb a "createConnector" then
    ps ← params i;
    Some (pushCreate (JS.literal
      [("type", VStr "connector");
       ("x", VNum 0); ("y", VNum 0); ("width", VNum 0); ("height", VNum 0);
       ("color", JS.coalesce (JS.get ps "color") (VStr "#ffffff"));
       ("fromId", JS.get ps "fromId");
       ("toId", JS.get ps "toId")]) b)
  else if String.eqb a "moveObject" then
    ps ← params i;
    Some (pushUpdate (JS.get ps "objectId")
      (JS.literal [("x", JS.get ps "x"); ("y", JS.get ps "y")]) b)
  else if String.eqb a "resizeObject" then
    ps ← params i;
    Some (pushUpdate (JS.get ps "objectId")
      (JS.literal [("width", JS.get ps "width"); ("height", JS.get ps "height")]) b)
  else if String.eqb a "updateText" then
    ps ← params i;
    Some (pushUpdate (JS.get ps "objectId")
      (JS.literal [("text", JS.get ps "newText")]) b)
  else if String.eqb a "changeColor" then
    ps ← params i;
    Some (pushUpdate (JS.get ps "objectId")
      (JS.literal [("color", JS.get ps "color")]) b)
  else if String.eqb a "deleteObject" then
    ps ← params i;
    Some (pushDelete (JS.get ps "objectId") b)
  else Some b.

(** The [for] loop over the instructions. *)
Fixpoint loop (b : batches) (actions : list instruction) : option batches :=
  match actions with
  | [] => Some b
  | i :: rest => b' ← dispatch b i; loop b' rest
  end.

Definition partition (actions : list instruction) : option batches :=
  loop noBatches actions.

(** The batch calls issued after the loop, one per non-empty array. *)
Definition batchCalls (uid : string) (b : batches) : list syncCall :=
  (if (0 <? length (creates b))%nat then [AddObjects (creates b) uid] else [])
  ++ (if (0 <? length (updates b))%nat then [UpdateObjects (updates b)] else [])
  ++ (if (0 <? length (deletes b))%nat then [DeleteObjects (deletes b)] else []).

(** [executeAIActions(actions)]: the sync-layer calls it makes, or [None]
    when the loop throws (before any call is made). *)
Definition executeAIActions (user : option string) (actions : list instruction)
    : option (list syncCall) :=
  match user with
  | None => Some []
  | Some uid => b ← partition actions; Some (batchCalls uid b)
  end.

End BoardPage.

(** ** WhiteboardCanvas.tsx: the wheel handler

    The stage geometry is computed on binary64 floating-point numbers
    with rounding to nearest, ties to even: the numbers of JavaScript. *)

Module Canvas.

Import PrimFloat.
Local Open Scope float_scope.

Definition MIN_ZOOM : float := 0.1.
Definition MAX_ZOOM : float := 5.

(** The part of the Konva stage the wheel handler reads and writes. *)
Record stage : Type := {
  scaleX : float;
  scaleY : float;
  posX : float;
  posY : float
}.

Record wheel : Type := {
  ctrlKey : bool;
  metaKey : bool;
  deltaX : float;
  deltaY : float
}.

(** [Math.min(a, b)] and [Math.max(a, b)]: NaN when an argument is NaN,
    and -0 counts as less than +0. *)
Definition Math_min (a b : float) : float :=
  if a <? b then a
  else if b <? a then b
  else if a =? b then (if get_sign a then a else b)
  else nan.

Definition Math_max (a b : float) : float :=
  if a <? b then b
  else if b <? a then a
  else if a =? b then (if get_sign a then b else a)
  else nan.

(** [Math.max(MIN_ZOOM, Math.min(MAX_ZOOM, s))] *)
Definition clampZoom (s : float) : float := Math_max MIN_ZOOM (Math_min MAX_ZOOM s).

(** [e.evt.deltaY > 0] *)
Definition positive (q : float) : bool := 0 <? q.

(** [handleWheel(e)]: [st] is [stageRef.current], [pointer] the result of
    [stage.getPointerPosition()]; the result is the stage afterwards. *)
Definition handleWheel (st : option stage) (pointer : option (float * float)) (e : wheel)
    : option stage :=
  match st with
  | None => None
  | Some s =>
      if ctrlKey e || metaKey e then
        let oldScale := scaleX s in
        match pointer with
        | None => Some s
        | Some (px, py) =>
            let mousePointToX := (px - posX s) / oldScale in
            let mousePointToY := (py - posY s) / oldScale in
            let scaleBy := 1.03 in
            let direction := if positive (deltaY e) then (-1)%Z else 1%Z in
            let newScale :=
              if (0 <? direction)%Z then oldScale * scaleBy else oldScale / scaleBy in
            let newScale := clampZoom newScale in
            Some {| scaleX := newScale; scaleY := newScale;
                    posX := px - mousePointToX * newScale;
                    posY := py - mousePointToY * newScale |}
        end
      else
        Some {| scaleX := scaleX s; scaleY := scaleY s;
                posX := posX s - deltaX e;
                posY := posY s - deltaY e |}
  end.

Definition toBoard (scale pos p : float) : float := (p - pos) / scale.

End Canvas.

(** ** useBoardObjects.ts: the snapshot listener and the batch operations *)

Module BoardStore.

Import Firestore BoardObjects.

(** One entry of [snapshot.docChanges()] of the objects collection. *)
Record docChange : Type := {
  ctype : Cursors.changeType;
  doc_id : string;
  doc_data : jsobj
}.

(** [{ id: change.doc.id, ...change.doc.data() }] *)
Definition entry (change : docChange) : jsobj :=
  JS.spread (JS.literal [("id", VStr (doc_id change))]) (doc_data change).

(** The body of the [forEach] over the changes of a snapshot. *)
Definition applyChange (next : gmap string jsobj) (change : docChange)
    : gmap string jsobj :=
  match ctype change with
  | Cursors.added | Cursors.modified => <[doc_id change := entry change]> next
  | Cursors.removed => delete (doc_id change) next
  end.

(** The state update run for one snapshot. *)
Definition onSnapshot (changes : list docChange) (prev : gmap string jsobj)
    : gmap string jsobj :=
  foldl applyChange prev changes.

(** The [batch.set] calls [addObjects] stages, in order.  [uuids n] is
    the token the [n]-th call of [uuidv4()] returns; [uuidv4()] is only
    called for an object without a truthy [id].  [None]: building a
    document reference for a key that is not a string throws. *)
Fixpoint stageSets (objs : list jsobj) (userId : string) (now : Z)
    (uuids : nat → string) (n : nat) : option (list (string * jsobj)) :=
  match objs with
  | [] => Some []
  | obj :: rest =>
      id ← chooseId obj (uuids n);
      sets ← stageSets rest userId now uuids
                (if JS.truthy (JS.get obj "id") then n else S n);
      Some ((id, fullObj obj id userId now) :: sets)
  end.

(** [batch.commit()] of staged sets: all of them, in order. *)
Definition commitSets (sets : list (string * jsobj)) (c : coll) : coll :=
  foldl (λ c e, setDoc e.1 e.2 c) c sets.

(** [addObjects(objs, userId)]: [None] is a rejected call that wrote
    nothing; otherwise the collection afterwards and the returned ids. *)
Definition addObjects (boardId : option string) (objs : list jsobj) (userId : string)
    (now : Z) (uuids : nat → string) (c : coll) : option (coll * list string) :=
  match JS.truthyStr boardId with
  | None => Some (c, [])
  | Some _ =>
      sets ← stageSets objs userId now uuids 0;
      Some (commitSets sets c, sets.*1)
  end.

(** [deleteObjects(ids)] *)
Definition deleteObjects (boardId : option string) (ids : list string) (c : coll) : coll :=
  match JS.truthyStr boardId with
  | None => c
  | Some _ => foldl (λ c id, deleteDoc id c) c ids
  end.

End BoardStore.

(** ** usePresence.ts: the user colour *)

Module PresenceColor.

Definition USER_COLORS : list string :=
  [ "#FF6B6B"; "#4ECDC4"; "#45B7D1"; "#96CEB4";
    "#FFEAA7"; "#DDA0DD"; "#98D8C8"; "#F7DC6F";
    "#BB8FCE"; "#85C1E9"; "#F0B27A"; "#82E0AA" ].

(** The signed 32-bit integer a number is converted to by the bitwise
    operators ([x | 0], the operands of [<<]). *)
Definition toInt32 (z : Z) : Z := (z + 2 ^ 31) mod 2 ^ 32 - 2 ^ 31.

(** [hash << 5] *)
Definition shl5 (hash : Z) : Z := toInt32 (toInt32 hash * 2 ^ 5).

(** One turn of the loop: [hash = ((hash << 5) - hash) + c; hash |= 0]. *)
Definition mix (hash c : Z) : Z := toInt32 ((shl5 hash - hash) + c).

(** The loop over the UTF-16 code units of the uid. *)
Definition hashOf (uid : list Z) : Z := foldl mix 0 uid.

(** [getUserColor(uid)], on the code units of [uid]. *)
Definition getUserColor (uid : list Z) : string :=
  default "" (USER_COLORS !! Z.to_nat (Z.abs (hashOf uid) mod Z.of_nat (length USER_COLORS))).

(** The code units of a string of ASCII characters. *)
Definition charCodes (s : string) : list Z :=
  (λ a, Z.of_nat (Ascii.nat_of_ascii a)) <$> String.list_ascii_of_string s.

(** [user ? getUserColor(user.uid) : '#ccc'] *)
Definition userColor (user : option (list Z)) : string :=
  match user with
  | Some uid => getUserColor uid
  | None => "#ccc"
  end.

End PresenceColor.

(** The polynomial hash over the integers: [31 * h + c] per code unit. *)
Definition polyHash (uid : list Z) : Z := foldl (λ h c, 31 * h + c) 0 uid.

(** ** BoardPage.tsx: selection, clipboard and keyboard *)

Module BoardKeys.

Import BoardPage.

(** [v + q] for a number [q], where the sum is a number: a number [v],
    [null] (0) and the booleans (1, 0).  [None]: [v] is [undefined] (the
    sum is NaN), a string or an array (the sum is a string built from
    the decimal text of [q]); those sums have no counterpart among the
    values of this development. *)
Definition plusNumber (v : value) (q : Q) : option value :=
  match v with
  | VNum a => Some (VNum (a + q))
  | VNull => Some (VNum q)
  | VBool true => Some (VNum (1 + q))
  | VBool false => Some (VNum q)
  | _ => None
  end.

(** The page state of [BoardPage] beside the debounce buffer: the
    selection, the clipboard ref and the AI panel flag. *)
Record board : Type := {
  pg : page;
  selectedIds : list string;
  clipboard : list jsobj;
  showAI : bool
}.

Definition withCall (call : syncCall) (p : page) : page :=
  {| pendingUpdates := pendingUpdates p; flushTimer := flushTimer p;
     activeTool := activeTool p; calls := calls p ++ [call] |}.

(** [setActiveTool(t)] *)
Definition setActiveTool (t : Tool) (b : board) : board :=
  {| pg := {| pendingUpdates := pendingUpdates (pg b); flushTimer := flushTimer (pg b);
              activeTool := t; calls := calls (pg b) |};
     selectedIds := selectedIds b; clipboard := clipboard b; showAI := showAI b |}.

(** [selectedIds.includes(o.id)] *)
Definition isSelected (ids : list string) (o : jsobj) : bool :=
  match JS.get o "id" with
  | VStr s => bool_decide (s ∈ ids)
  | _ => false
  end.

Definition handleDelete (b : board) : board :=
  if (0 <? length (selectedIds b))%nat then
    {| pg := withCall (DeleteObjects (VStr <$> selectedIds b)) (pg b);
       selectedIds := []; clipboard := clipboard b; showAI := showAI b |}
  else b.

(** [{ ...obj, id: undefined, x: obj.x + q, y: obj.y + q }] *)
Definition offsetCopy (q : Q) (obj : jsobj) : option jsobj :=
  x' ← plusNumber (JS.get obj "x") q;
  y' ← plusNumber (JS.get obj "y") q;
  Some (JS.spread obj (JS.literal [("id", VUndef); ("x", x'); ("y", y')])).

(** [{ ...obj, x: obj.x + q, y: obj.y + q }] *)
Definition offsetKeep (q : Q) (obj : jsobj) : option jsobj :=
  x' ← plusNumber (JS.get obj "x") q;
  y' ← plusNumber (JS.get obj "y") q;
  Some (JS.spread obj (JS.literal [("x", x'); ("y", y')])).

(** [handleDuplicate()], with [objects] the hook's object list.  [None]:
    a sum outside the value model (see [plusNumber]). *)
Definition handleDuplicate (user : option string) (objects : list jsobj) (b : board)
    : option board :=
  match user with
  | None => Some b
  | Some uid =>
      if (length (selectedIds b) =? 0)%nat then Some b
      else
        newObjs ← mapM (offsetCopy 20) (filter (λ o, isSelected (selectedIds b) o = true) objects);
        Some {| pg := withCall (AddObjects newObjs uid) (pg b);
                selectedIds := selectedIds b; clipboard := clipboard b;
                showAI := showAI b |}
  end.

Definition handleCopy (objects : list jsobj) (b : board) : board :=
  if (length (selectedIds b) =? 0)%nat then b
  else {| pg := pg b; selectedIds := selectedIds b;
          clipboard := filter (λ o, isSelected (selectedIds b) o = true) objects;
          showAI := showAI b |}.

(** [handlePaste()] up to its [await]: the [addObjects] call. *)
Definition handlePaste (user : option string) (b : board) : option board :=
  match user with
  | None => Some b
  | Some uid =>
      if (length (clipboard b) =? 0)%nat then Some b
      else
        newObjs ← mapM (offsetCopy 30) (clipboard b);
        Some {| pg := withCall (AddObjects newObjs uid) (pg b);
                selectedIds := selectedIds b; clipboard := clipboard b;
                showAI := showAI b |}
  end.

(** [handlePaste()] after its [await], once [addObjects] has resolved:
    the clipboard moves on, so that the next paste lands further. *)
Definition pasteResolved (b : board) : option board :=
  moved ← mapM (offsetKeep 30) (clipboard b);
  Some {| pg := pg b; selectedIds := selectedIds b; clipboard := moved;
          showAI := showAI b |}.

(** What [handleKeyDown] reads of the event. *)
Record keyEvent : Type := {
  key : string;
  metaKey : bool;
  ctrlKey : bool;
  inTextField : bool
}.

Definition keyIs (e : keyEvent) (k : string) : bool := String.eqb (key e) k.

Definition when (c : bool) (f : board → board) (b : board) : board :=
  if c then f b else b.

(** The tail of [handleKeyDown], from the [Escape] test on. *)
Definition toolKeys (e : keyEvent) (b : board) : board :=
  let b := when (keyIs e "Escape")
             (λ b, setActiveTool ToolSelect
                     {| pg := pg b; selectedIds := []; clipboard := clipboard b;
                        showAI := showAI b |}) b in
  let b := when (keyIs e "v" && negb (metaKey e) && negb (ctrlKey e))
             (setActiveTool ToolSelect) b in
  let b := when (keyIs e "h") (setActiveTool ToolPan) b in
  let b := when (keyIs e "n") (setActiveTool ToolStickyNote) b in
  let b := when (keyIs e "r") (setActiveTool ToolRectangle) b in
  let b := when (keyIs e "c" && negb (metaKey e) && negb (ctrlKey e))
             (setActiveTool ToolCircle) b in
  let b := when (keyIs e "l") (setActiveTool ToolLine) b in
  let b := when (keyIs e "a" && negb (metaKey e) && negb (ctrlKey e))
             (setActiveTool ToolArrow) b in
  let b := when (keyIs e "t") (setActiveTool ToolText) b in
  when (keyIs e "/")
    (λ b, {| pg := pg b; selectedIds := selectedIds b; clipboard := clipboard b;
             showAI := true |}) b.

(** [handleKeyDown(e)] *)
Definition handleKeyDown (e : keyEvent) (user : option string) (objects : list jsobj)
    (b : board) : option board :=
  if inTextField e then Some b
  else
    let b := when (keyIs e "Delete" || keyIs e "Backspace") handleDelete b in
    b ← (if keyIs e "d" && (metaKey e || ctrlKey e)
         then handleDuplicate user objects b else Some b);
    if keyIs e "c" && (metaKey e || ctrlKey e) then Some (handleCopy objects b)
    else if keyIs e "v" && (metaKey e || ctrlKey e) then handlePaste user b
    else Some (toolKeys e b).

End BoardKeys.

(** ** WhiteboardCanvas: selection, transform and drawing order *)

Module CanvasEvents.

Import BoardPage.
Local Open Scope Q_scope.

(** [interface BoardObject] of the canvas. *)
Record BoardObject : Type := {
  id : string;
  type : string;
  x : Q;
  y : Q;
  width : Q;
  height : Q;
  rotation : Q;
  text : option string;
  color : string;
  fontSize : option Q;
  fromId : option string;
  toId : option string;
  points : option (list Q)
}.

Definition isTool (a b : Tool) : bool := String.eqb (toolName a) (toolName b).

(** [handleObjectClick(e, objId)]: the argument of [onSelectionChange], if
    it is called. *)
Definition handleObjectClick (activeTool : Tool) (shift : bool)
    (selectedIds : list string) (objId : string) : option (list string) :=
  if negb (isTool activeTool ToolSelect) then None
  else if shift then
    if bool_decide (objId ∈ selectedIds)
    then Some (filter (λ i, i ≠ objId) selectedIds)
    else Some (selectedIds ++ [objId])
  else Some [objId].

(** What the handlers read of a Konva node. *)
Record node : Type := {
  nodeX : Q;
  nodeY : Q;
  nodeWidth : Q;
  nodeHeight : Q;
  nodeScaleX : Q;
  nodeScaleY : Q;
  nodeRotation : Q
}.

(** The updates [handleDragEnd] passes to [onObjectUpdate]. *)
Definition handleDragEnd (n : node) : jsobj :=
  JS.literal [("x", VNum (nodeX n)); ("y", VNum (nodeY n))].

(** [handleTransformEnd]: the node with its scale reset, and the updates. *)
Definition handleTransformEnd (n : node) : node * jsobj :=
  let sx := nodeScaleX n in
  let sy := nodeScaleY n in
  ({| nodeX := nodeX n; nodeY := nodeY n; nodeWidth := nodeWidth n;
      nodeHeight := nodeHeight n; nodeScaleX := 1; nodeScaleY := 1;
      nodeRotation := nodeRotation n |},
   JS.literal [("x", VNum (nodeX n)); ("y", VNum (nodeY n));
               ("width", VNum (Qmax 20 (nodeWidth n * sx)));
               ("height", VNum (Qmax 20 (nodeHeight n * sy)));
               ("rotation", VNum (nodeRotation n))]).

(** The circle of [renderObject]: where its node is put, and the updates
    of its own [onDragEnd]. *)
Definition circlePosition (obj : BoardObject) : Q * Q :=
  (x obj + width obj / 2, y obj + height obj / 2).

Definition circleDragEnd (obj : BoardObject) (n : node) : jsobj :=
  JS.literal [("x", VNum (nodeX n - width obj / 2));
              ("y", VNum (nodeY n - height obj / 2))].

(** The connector of [renderObject]: the points of its arrow, [None] when
    it returns [null]. *)
Definition hasId (k : option string) (o : BoardObject) : bool :=
  match k with
  | Some s => String.eqb (id o) s
  | None => false
  end.

Definition connectorPoints (objects : list BoardObject) (obj : BoardObject)
    : option (list Q) :=
  match List.find (hasId (fromId obj)) objects with
  | None => None
  | Some fromObj =>
      match List.find (hasId (toId obj)) objects with
      | None => None
      | Some toObj =>
          Some [x fromObj + width fromObj / 2; y fromObj + height fromObj / 2;
                x toObj + width toObj / 2; y toObj + height toObj / 2]
      end
  end.

(** The children of the objects layer, in drawing order. *)
Definition isType (t : string) (o : BoardObject) : bool := String.eqb (type o) t.

Definition drawingOrder (objects : list BoardObject) : list BoardObject :=
  List.filter (isType "frame") objects
  ++ List.filter (isType "connector") objects
  ++ List.filter (λ o, negb (isType "frame" o) && negb (isType "connector" o)) objects.

(** A box of the transformer, and its [boundBoxFunc]. *)
Record box : Type := { boxWidth : Q; boxHeight : Q }.

(** [a < b] *)
Definition lessThan (a b : Q) : bool := negb (Qle_bool b a).

Definition boundBoxFunc (oldBox newBox : box) : box :=
  if lessThan (boxWidth newBox) 20 || lessThan (boxHeight newBox) 20 then oldBox else newBox.

End CanvasEvents.

(** ** WhiteboardCanvas: the mouse handlers of the stage *)

Module CanvasPointer.

Import PrimFloat BoardPage Canvas.
Local Open Scope float_scope.

(** The calls the canvas makes on the callbacks of its props. *)
Inductive callback : Type :=
| OnSelectionChange (ids : list string)
| OnCanvasClick (cx cy : float)
| OnCursorMove (cx cy : float)
| OnObjectUpdate (objId : string) (updates : jsobj).

(** The attributes the handlers set on the selection rectangle. *)
Record rectAttrs : Type := {
  rectX : float;
  rectY : float;
  rectWidth : float;
  rectHeight : float;
  visible : bool
}.

(** The refs of the component and the calls made so far. *)
Record canvas : Type := {
  stageRef : option stage;
  selectionRectRef : option rectAttrs;
  isSelecting : bool;
  selectionStart : float * float;
  isPanning : bool;
  lastPointerPos : float * float;
  spacePressed : bool;
  emitted : list callback
}.

(** What the mouse handlers read of an event: [pointer] is
    [stage.getPointerPosition()], [onEmpty] the test [clickedOnEmpty]. *)
Record mouseEvent : Type := {
  button : Z;
  shiftKey : bool;
  pointer : option (float * float);
  onEmpty : bool
}.

Section Konva.

(** [transform.point] for the inverse of the absolute transform of a
    stage: the map from screen to board coordinates, as Konva computes
    it. *)
Variable inversePoint : stage → float * float → float * float.

(** [getPointerPosition()] *)
Definition getPointerPosition (st : option stage) (pointer : option (float * float))
    : float * float :=
  match st with
  | None => (0, 0)
  | Some s =>
      match pointer with
      | None => (0, 0)
      | Some p => inversePoint s p
      end
  end.

Definition handleMouseDown (activeTool : Tool) (e : mouseEvent) (c : canvas) : canvas :=
  match stageRef c with
  | None => c
  | Some s =>
      if (button e =? 1)%Z || CanvasEvents.isTool activeTool ToolPan || spacePressed c
         || ((button e =? 0)%Z && shiftKey e && CanvasEvents.isTool activeTool ToolSelect)
      then
        {| stageRef := stageRef c; selectionRectRef := selectionRectRef c;
           isSelecting := isSelecting c; selectionStart := selectionStart c;
           isPanning := true;
           lastPointerPos := default (0, 0) (pointer e);
           spacePressed := spacePressed c; emitted := emitted c |}
      else if onEmpty e then
        let pos := getPointerPosition (Some s) (pointer e) in
        if CanvasEvents.isTool activeTool ToolSelect then
          {| stageRef := stageRef c;
             selectionRectRef :=
               (λ _, {| rectX := pos.1; rectY := pos.2; rectWidth := 0; rectHeight := 0;
                        visible := true |}) <$> selectionRectRef c;
             isSelecting := true; selectionStart := pos;
             isPanning := isPanning c; lastPointerPos := lastPointerPos c;
             spacePressed := spacePressed c;
             emitted := emitted c ++ [OnSelectionChange []] |}
        else
          {| stageRef := stageRef c; selectionRectRef := selectionRectRef c;
             isSelecting := isSelecting c; selectionStart := selectionStart c;
             isPanning := isPanning c; lastPointerPos := lastPointerPos c;
             spacePressed := spacePressed c;
             emitted := emitted c ++ [OnCanvasClick pos.1 pos.2] |}
      else c
  end.

(** [handleMouseMove], with [ptr] the stage's pointer position. *)
Definition handleMouseMove (ptr : option (float * float)) (c : canvas) : canvas :=
  match stageRef c with
  | None => c
  | Some s =>
      let pos := getPointerPosition (Some s) ptr in
      let out := emitted c ++ [OnCursorMove pos.1 pos.2] in
      if isPanning c then
        match ptr with
        | None =>
            {| stageRef := stageRef c; selectionRectRef := selectionRectRef c;
               isSelecting := isSelecting c; selectionStart := selectionStart c;
               isPanning := isPanning c; lastPointerPos := lastPointerPos c;
               spacePressed := spacePressed c; emitted := out |}
        | Some (px, py) =>
            let dx := px - (lastPointerPos c).1 in
            let dy := py - (lastPointerPos c).2 in
            {| stageRef := Some {| scaleX := scaleX s; scaleY := scaleY s;
                                   posX := posX s + dx; posY := posY s + dy |};
               selectionRectRef := selectionRectRef c;
               isSelecting := isSelecting c; selectionStart := selectionStart c;
               isPanning := isPanning c; lastPointerPos := (px, py);
               spacePressed := spacePressed c; emitted := out |}
        end
      else
        {| stageRef := stageRef c;
           selectionRectRef :=
             if isSelecting c then
               (λ r, {| rectX := Math_min (selectionStart c).1 pos.1;
                        rectY := Math_min (selectionStart c).2 pos.2;
                        rectWidth := abs (pos.1 - (selectionStart c).1);
                        rectHeight := abs (pos.2 - (selectionStart c).2);
                        visible := visible r |}) <$> selectionRectRef c
             else selectionRectRef c;
           isSelecting := isSelecting c; selectionStart := selectionStart c;
           isPanning := isPanning c; lastPointerPos := lastPointerPos c;
           spacePressed := spacePressed c; emitted := out |}
  end.

End Konva.

End CanvasPointer.

(** ** Specification-side definitions and sample data *)

Import Firestore BoardObjects.

(** A stored note at (1, 2). *)
Definition noteAt12 : jsobj :=
  <["x" := VNum 1]> (<["y" := VNum 2]> (<["color" := VStr "#FFEB3B"]> ∅)).

(** The update [{x: 5, y: 5}]. *)
Definition moveTo55 : jsobj := <["x" := VNum 5]> (<["y" := VNum 5]> ∅).

(** The colour the canvas click handler documents for an object type. *)
Definition typeDefaultColor (ty : value) : value :=
  match ty with
  | VStr name => JS.get (default ∅ (BoardPage.defaults !! name)) "color"
  | _ => VUndef
  end.

(** The law "a created object that omits its colour gets the default
    colour of its type". *)
Definition color_defaults_per_type : Prop :=
  ∀ (b : string) (obj : jsobj) (userId : string) (now : Z) (uuid : string)
    (c c' : coll) (id : string) (d : jsobj),
    JS.nullish (JS.get obj "color") = true →
    addObject (Some b) obj userId now uuid c = Some (c', Some id) →
    c' !! id = Some d →
    d !! "color" = Some (typeDefaultColor (JS.get obj "type")).

(** A partial object that carries only its type. *)
Definition bareCircle : jsobj := <["type" := VStr "circle"]> ∅.
Definition bareStickyNote : jsobj := <["type" := VStr "sticky-note"]> ∅.

(** Two remote cursors and two presence records, one fresh and one last
    refreshed at time 0. *)
Definition freshCursor : Cursors.CursorData :=
  {| Cursors.userId := "user-2"; Cursors.displayName := "Fresh";
     Cursors.photoURL := None; Cursors.x := 0; Cursors.y := 0;
     Cursors.color := "#fff"; Cursors.lastUpdated := 60000 |}.

Definition staleCursor : Cursors.CursorData :=
  {| Cursors.userId := "user-3"; Cursors.displayName := "Stale";
     Cursors.photoURL := None; Cursors.x := 0; Cursors.y := 0;
     Cursors.color := "#fff"; Cursors.lastUpdated := 0 |}.

Definition freshUser : Presence.PresenceUser :=
  {| Presence.uid := "user-2"; Presence.displayName := "Fresh";
     Presence.photoURL := None; Presence.color := "#4ECDC4";
     Presence.isOnline := true; Presence.lastSeen := 60000 |}.

Definition staleUser : Presence.PresenceUser :=
  {| Presence.uid := "user-3"; Presence.displayName := "Stale";
     Presence.photoURL := None; Presence.color := "#FF6B6B";
     Presence.isOnline := true; Presence.lastSeen := 0 |}.

(** The document [updateCursor] writes. *)
Definition cursorDoc (uid name col : string) (photo : option string)
    (now : Z) (px py : Q) : string * Cursors.CursorData :=
  (uid, {| Cursors.userId := uid; Cursors.displayName := name;
           Cursors.photoURL := Cursors.photoOrNull photo;
           Cursors.x := px; Cursors.y := py; Cursors.color := col;
           Cursors.lastUpdated := now |}).




(** The own-cursor law as the specification words it: after every
    delivery, whatever came before, the returned list holds no cursor of
    the user the hook has at that delivery. *)
Definition own_cursor_law : Prop :=
  ∀ (ds : list Cursors.delivery) (d : Cursors.delivery) (uid : string),
    Cursors.hookUserId d = Some uid →
    Forall (λ cur, Cursors.userId cur ≠ uid)
           (Cursors.cursorList (Cursors.run (ds ++ [d]))).

(** A snapshot at 60000 that adds the fresh cursor (of [user-2]) while the
    hook has no user id yet, and one at 60001 that modifies it once the
    hook knows it runs for [user-2]. *)
Definition beforeLogin : Cursors.delivery :=
  {| Cursors.now_ms := 60000; Cursors.hookUserId := None;
     Cursors.docChanges :=
       [ {| Cursors.ctype := Cursors.added; Cursors.doc_id := "user-2";
            Cursors.doc_data := freshCursor |} ] |}.
Definition afterLogin : Cursors.delivery :=
  {| Cursors.now_ms := 60001; Cursors.hookUserId := Some "user-2";
     Cursors.docChanges :=
       [ {| Cursors.ctype := Cursors.modified; Cursors.doc_id := "user-2";
            Cursors.doc_data := freshCursor |} ] |}.

(** The test's snapshot, for a hook that runs for [uid]: the cursors of
    [user-2] (fresh) and [user-3] (stale). *)
Definition twoCursors (uid : string) : Cursors.delivery :=
  {| Cursors.now_ms := 60000; Cursors.hookUserId := Some uid;
     Cursors.docChanges :=
       [ {| Cursors.ctype := Cursors.added; Cursors.doc_id := "user-2";
            Cursors.doc_data := freshCursor |};
         {| Cursors.ctype := Cursors.added; Cursors.doc_id := "user-3";
            Cursors.doc_data := staleCursor |} ] |}.

(** An update that names at least one field, all of them geometry. *)
Definition geometryOnly (u : jsobj) : Prop :=
  u ≠ ∅ ∧ ∀ k, is_Some (u !! k) → k ∈ ["x"; "y"; "width"; "height"; "rotation"].

(** Two drag updates. *)
Definition dragTo (px py : Q) : jsobj := <["x" := VNum px]> (<["y" := VNum py]> ∅).
Definition resizeTo (w : Q) : jsobj := <["width" := VNum w]> (<["x" := VNum 7]> ∅).

Import BoardPage.

(** *** The AI catalogue as the specification words it

    Ten action names in three groups; for each creating or updating
    action, the fields of the request and where each comes from. *)

Inductive group : Type := Creation | Update | Deletion.

(** Lookup in a table keyed by name. *)
Fixpoint assoc {A : Type} (k : string) (l : list (string * A)) : option A :=
  match l with
  | [] => None
  | (k', v) :: l => if String.eqb k k' then Some v else assoc k l
  end.

Definition catalogue : list (string * group) :=
  [ ("createStickyNote", Creation); ("createShape", Creation);
    ("createFrame", Creation); ("createText", Creation);
    ("createConnector", Creation);
    ("moveObject", Update); ("resizeObject", Update);
    ("updateText", Update); ("changeColor", Update);
    ("deleteObject", Deletion) ].

Definition groupOf (a : string) : option group := assoc a catalogue.

(** Where a field of a request comes from: a constant, a parameter as
    it is, a parameter with a default for when it is absent, [undefined]
    or [null], or the shape kind (circle if the [type] parameter says so,
    rectangle otherwise). *)
Inductive source : Type :=
| Fixed (v : value)
| Param (name : string)
| ParamOr (name : string) (dflt : value)
| CircleOrRectangle.

Definition readSource (ps : jsobj) (s : source) : value :=
  match s with
  | Fixed v => v
  | Param name => default VUndef (ps !! name)
  | ParamOr name dflt =>
      match ps !! name with
      | None | Some VUndef | Some VNull => dflt
      | Some v => v
      end
  | CircleOrRectangle =>
      match ps !! "type" with
      | Some (VStr s) => if String.eqb s "circle" then VStr "circle" else VStr "rectangle"
      | _ => VStr "rectangle"
      end
  end.

Definition createFields : list (string * list (string * source)) :=
  [ ("createStickyNote",
      [ ("type", Fixed (VStr "sticky-note"));
        ("x", ParamOr "x" (VNum 0)); ("y", ParamOr "y" (VNum 0));
        ("width", ParamOr "width" (VNum 200)); ("height", ParamOr "height" (VNum 200));
        ("color", ParamOr "color" (VStr "#FFEB3B")); ("text", ParamOr "text" (VStr "")) ]);
    ("createShape",
      [ ("type", CircleOrRectangle);
        ("x", ParamOr "x" (VNum 0)); ("y", ParamOr "y" (VNum 0));
        ("width", ParamOr "width" (VNum 200)); ("height", ParamOr "height" (VNum 150));
        ("color", ParamOr "color" (VStr "#2196F3")) ]);
    ("createFrame",
      [ ("type", Fixed (VStr "frame"));
        ("x", ParamOr "x" (VNum 0)); ("y", ParamOr "y" (VNum 0));
        ("width", ParamOr "width" (VNum 400)); ("height", ParamOr "height" (VNum 300));
        ("color", ParamOr "color" (VStr "#37474F")); ("text", ParamOr "title" (VStr "Frame")) ]);
    ("createText",
      [ ("type", Fixed (VStr "text"));
        ("x", ParamOr "x" (VNum 0)); ("y", ParamOr "y" (VNum 0));
        ("width", Fixed (VNum 300)); ("height", Fixed (VNum 50));
        ("color", ParamOr "color" (VStr "#ffffff")); ("text", ParamOr "text" (VStr ""));
        ("fontSize", ParamOr "fontSize" (VNum 20)) ]);
    ("createConnector",
      [ ("type", Fixed (VStr "connector"));
        ("x", Fixed (VNum 0)); ("y", Fixed (VNum 0));
        ("width", Fixed (VNum 0)); ("height", Fixed (VNum 0));
        ("color", ParamOr "color" (VStr "#ffffff"));
        ("fromId", Param "fromId"); ("toId", Param "toId") ]) ].

Definition updateFields : list (string * list (string * source)) :=
  [ ("moveObject", [("x", Param "x"); ("y", Param "y")]);
    ("resizeObject", [("width", Param "width"); ("height", Param "height")]);
    ("updateText", [("text", Param "newText")]);
    ("changeColor", [("color", Param "color")]) ].

(** The object with the given fields read from the parameters. *)
Definition build (ps : jsobj) (fields : list (string * source)) : jsobj :=
  list_to_map ((λ f : string * source, (f.1, readSource ps f.2)) <$> fields).

(** The create request, the update entry and the deleted id that an
    action with parameters [ps] stands for, if any. *)
Definition createOf (a : string) (ps : jsobj) : option jsobj :=
  build ps <$> assoc a createFields.

Definition updateOf (a : string) (ps : jsobj) : option (value * jsobj) :=
  (λ fields, (default VUndef (ps !! "objectId"), build ps fields))
    <$> assoc a updateFields.

Definition deleteOf (a : string) (ps : jsobj) : option value :=
  match groupOf a with
  | Some Deletion => Some (default VUndef (ps !! "objectId"))
  | _ => None
  end.

(** The same for an instruction that carries parameters. *)
Definition paramsOf (i : instruction) : jsobj := default ∅ (params i).
Definition createReq (i : instruction) : option jsobj := createOf (action i) (paramsOf i).
Definition updateReq (i : instruction) : option (value * jsobj) :=
  updateOf (action i) (paramsOf i).
Definition deleteReq (i : instruction) : option value := deleteOf (action i) (paramsOf i).

(** An instruction of the catalogue: a known action name with parameters. *)
Definition inCatalogue (i : instruction) : Prop :=
  action i ∈ catalogue.*1 ∧ is_Some (params i).

(** The three arrays with the requests of one more action. *)
Definition extend (b : batches) (a : string) (ps : jsobj) : batches :=
  {| creates := creates b ++ option_list (createOf a ps);
     updates := updates b ++ option_list (updateOf a ps);
     deletes := deletes b ++ option_list (deleteOf a ps) |}.

(** One batch call per non-empty group, creations first. *)
Definition groupCalls (uid : string) (cs : list jsobj) (us : list (value * jsobj))
    (ds : list value) : list syncCall :=
  match cs with [] => [] | _ => [AddObjects cs uid] end
  ++ match us with [] => [] | _ => [UpdateObjects us] end
  ++ match ds with [] => [] | _ => [DeleteObjects ds] end.

(** Sample instructions; the last two are outside the catalogue, one of
    them without parameters. *)
Definition aiNote : instruction :=
  {| action := "createStickyNote";
     params := Some (<["text" := VStr "Idea"]> (<["x" := VNum 40]> ∅)) |}.
Definition aiMove : instruction :=
  {| action := "moveObject";
     params := Some (<["objectId" := VStr "o1"]> (<["x" := VNum 5]> (<["y" := VNum 6]> ∅))) |}.
Definition aiDelete : instruction :=
  {| action := "deleteObject"; params := Some (<["objectId" := VStr "o2"]> ∅) |}.
Definition aiBogus : instruction :=
  {| action := "rotateObject"; params := Some (<["objectId" := VStr "o1"]> ∅) |}.
Definition aiBare : instruction :=
  {| action := "groupObjects"; params := None |}.

Section CanvasSamples.

Import PrimFloat.
Local Open Scope float_scope.

(** A binary64 number that is not NaN. *)
Definition number (x : PrimFloat.float) : Prop := FloatOps.Prim2SF x ≠ SpecFloat.S754_nan.



(** The stage as mounted, at half size, and at the upper zoom limit; a
    pinch-zoom-in and a pinch-zoom-out event. *)
Definition stage0 : Canvas.stage :=
  {| Canvas.scaleX := 1; Canvas.scaleY := 1; Canvas.posX := 0; Canvas.posY := 0 |}.
Definition stageAtMax : Canvas.stage :=
  {| Canvas.scaleX := 5; Canvas.scaleY := 5; Canvas.posX := 0; Canvas.posY := 0 |}.
Definition zoomIn : Canvas.wheel :=
  {| Canvas.ctrlKey := true; Canvas.metaKey := false;
     Canvas.deltaX := 0; Canvas.deltaY := (-1) |}.

End CanvasSamples.

(** The key [addObject] writes under: a non-empty string [id] of the
    caller, otherwise the generated token. *)
Definition keyFor (obj : jsobj) (uuid : string) : string :=
  match JS.get obj "id" with
  | VStr s => if String.eqb s "" then uuid else s
  | _ => uuid
  end.

(** *** The remaining handlers: what their properties are stated with *)

(** The collection a change stream describes: the document of an added
    or modified change replaces what the key held, a removed change
    takes the key away. *)
Definition replay (c : coll) (change : BoardStore.docChange) : coll :=
  match BoardStore.ctype change with
  | Cursors.added | Cursors.modified =>
      setDoc (BoardStore.doc_id change) (BoardStore.doc_data change) c
  | Cursors.removed => deleteDoc (BoardStore.doc_id change) c
  end.

(** A document as the cache holds it: its key as [id], unless the
    document has an [id] field of its own. *)
Definition withId (k : string) (d : jsobj) : jsobj := d ∪ {["id" := VStr k]}.

(** The cache holds, key by key, the documents of [c] with their ids. *)
Definition mirrors (cache : gmap string jsobj) (c : coll) : Prop :=
  ∀ k, cache !! k = withId k <$> c !! k.

(** A partial object whose [id] is a string or absent, as its type says. *)
Definition idStringOrAbsent (obj : jsobj) : Prop :=
  JS.get obj "id" = VUndef ∨ ∃ s, JS.get obj "id" = VStr s.

(** Three tokens for [uuidv4()]. *)
Definition sampleUuids (n : nat) : string :=
  match n with
  | O => "uuid-0"
  | S O => "uuid-1"
  | _ => "uuid-2"
  end.

(** Consecutive entries of a list of clock readings are at least [d] apart. *)
Definition spaced (d : Z) (ts : list Z) : Prop :=
  ∀ i a b, ts !! i = Some a → ts !! S i = Some b → d ≤ b - a.

(** The clock readings of the remote cursor writes. *)
Definition writeTimes (p : Cursors.publisher) : list Z :=
  (λ w : string * Cursors.CursorData, Cursors.lastUpdated w.2) <$> Cursors.writes p.

(** What the publisher keeps true from its initial state on. *)
Definition throttled (p : Cursors.publisher) : Prop :=
  spaced 50 (writeTimes p) ∧
  (∀ t, last (writeTimes p) = Some t → t = Cursors.throttleRef p) ∧
  (writeTimes p = [] → Cursors.throttleRef p = 0) ∧
  Forall (λ t, 50 ≤ t) (writeTimes p).

(** A call of [debouncedUpdate] and the clock reading it is made at. *)
Record timedUpdate : Type := { at_time : Z; target : string; fields : jsobj }.

(** A run of [debouncedUpdate] calls; the event loop reaches the clock
    reading of each call before the call is made. *)
Definition drag (events : list timedUpdate) (p : page) : page :=
  foldl (λ p e, debouncedUpdate (at_time e) (target e) (fields e) (elapse (at_time e) p))
        p events.

(** Each call comes less than 50ms after the one before; [t] is the
    clock reading of the call before the first. *)
Fixpoint closeTogether (t : Z) (events : list timedUpdate) : Prop :=
  match events with
  | [] => True
  | e :: rest => at_time e - t < 50 ∧ closeTogether (at_time e) rest
  end.

(** The clock reading of the last call. *)
Definition lastTime (t : Z) (events : list timedUpdate) : Z :=
  default t (last (at_time <$> events)).

(** The buffer with one more update merged in, and with a run of them. *)
Definition buffered (m : gmap string jsobj) (e : timedUpdate) : gmap string jsobj :=
  <[target e := JS.spread (default ∅ (m !! target e)) (fields e)]> m.

Definition bufferAll (events : list timedUpdate) (m : gmap string jsobj)
    : gmap string jsobj :=
  foldl buffered m events.

(** An update that names a content field. *)
Definition namesContent (u : jsobj) : Prop :=
  is_Some (u !! "text") ∨ is_Some (u !! "color") ∨ is_Some (u !! "strokeWidth").

(** An object whose [x] and [y] are numbers, as its type says. *)
Definition numericXY (o : jsobj) : Prop :=
  ∃ a b : Q, JS.get o "x" = VNum a ∧ JS.get o "y" = VNum b.

(** [new] is [src] moved by [q] along both axes (as rationals), every
    field but [x], [y] and [id] being the same. *)
Definition movedBy (q : Q) (src new : jsobj) : Prop :=
  (∃ a a' : Q, JS.get src "x" = VNum a ∧ JS.get new "x" = VNum a' ∧ (a' == a + q)%Q) ∧
  (∃ b b' : Q, JS.get src "y" = VNum b ∧ JS.get new "y" = VNum b' ∧ (b' == b + q)%Q) ∧
  ∀ k, k ≠ "x" → k ≠ "y" → k ≠ "id" → new !! k = src !! k.

(** A copy: moved, and without an id of its own. *)
Definition copyMovedBy (q : Q) (src new : jsobj) : Prop :=
  movedBy q src new ∧ new !! "id" = Some VUndef.

(** [n] pastes, each awaited before the next. *)
Fixpoint pasteRounds (n : nat) (user : option string) (b : BoardKeys.board)
    : option BoardKeys.board :=
  match n with
  | O => Some b
  | S n =>
      b1 ← BoardKeys.handlePaste user b;
      b2 ← BoardKeys.pasteResolved b1;
      pasteRounds n user b2
  end.

(** [q] added to [a] [n] times, one addition after the other. *)
Definition addedTimes (n : nat) (q a : Q) : Q := Nat.iter n (λ v, (v + q)%Q) a.

(** [new] is [src] with [q] added [n] times to its [x] and to its [y],
    every field but [x], [y] and [id] being the same. *)
Definition steppedBy (n : nat) (q : Q) (src new : jsobj) : Prop :=
  (∃ a : Q, JS.get src "x" = VNum a ∧ JS.get new "x" = VNum (addedTimes n q a)) ∧
  (∃ b : Q, JS.get src "y" = VNum b ∧ JS.get new "y" = VNum (addedTimes n q b)) ∧
  ∀ k, k ≠ "x" → k ≠ "y" → k ≠ "id" → new !! k = src !! k.

(** A copy: stepped, and without an id of its own. *)
Definition copySteppedBy (n : nat) (q : Q) (src new : jsobj) : Prop :=
  steppedBy n q src new ∧ new !! "id" = Some VUndef.

(** The keys that make [handleKeyDown] call the sync layer. *)
Definition writingKey (e : BoardKeys.keyEvent) : bool :=
  BoardKeys.keyIs e "Delete" || BoardKeys.keyIs e "Backspace"
  || ((BoardKeys.keyIs e "d" || BoardKeys.keyIs e "v")
      && (BoardKeys.metaKey e || BoardKeys.ctrlKey e)).

(** The tool shortcuts. *)
Definition shortcutTool : list (string * Tool) :=
  [ ("v", ToolSelect); ("h", ToolPan); ("n", ToolStickyNote); ("r", ToolRectangle);
    ("c", ToolCircle); ("l", ToolLine); ("a", ToolArrow); ("t", ToolText) ].

(** What the board holds for the sync layer: the calls made, the debounce
    buffer and its timer. *)
Definition syncState (b : BoardKeys.board) : list syncCall * gmap string jsobj * option Z :=
  (calls (BoardKeys.pg b), pendingUpdates (BoardKeys.pg b), flushTimer (BoardKeys.pg b)).

(** A drag with the mouse held: the pointer positions of its moves. *)
Definition mouseMoves
    (inversePoint : Canvas.stage → PrimFloat.float * PrimFloat.float
                    → PrimFloat.float * PrimFloat.float)
    (ptrs : list (PrimFloat.float * PrimFloat.float))
    (c : CanvasPointer.canvas) : CanvasPointer.canvas :=
  foldl (λ c p, CanvasPointer.handleMouseMove inversePoint (Some p) c) c ptrs.

(** The map from screen to board coordinates in the way the wheel handler
    computes it, by subtracting the position and dividing by the scale. *)
Definition byDivision (s : Canvas.stage) (p : PrimFloat.float * PrimFloat.float)
    : PrimFloat.float * PrimFloat.float :=
  (Canvas.toBoard (Canvas.scaleX s) (Canvas.posX s) p.1,
   Canvas.toBoard (Canvas.scaleY s) (Canvas.posY s) p.2).

(** Calls of [onCursorMove] only. *)
Definition cursorMoves (out : list CanvasPointer.callback) : Prop :=
  Forall (λ cb, ∃ cx cy, cb = CanvasPointer.OnCursorMove cx cy) out.

(** One coordinate of the stage after a pan: from [pos], with the pointer
    last seen at [last], each pointer position in turn adds its distance
    from the one before. *)
Fixpoint panned (pos last : PrimFloat.float) (ptrs : list PrimFloat.float)
    : PrimFloat.float :=
  match ptrs with
  | [] => pos
  | p :: rest => panned (PrimFloat.add pos (PrimFloat.sub p last)) p rest
  end.

(** The transformer asking for one box after the other. *)
Definition resizeSteps (start : CanvasEvents.box) (asked : list CanvasEvents.box)
    : CanvasEvents.box :=
  foldl CanvasEvents.boundBoxFunc start asked.

Definition atLeast20 (b : CanvasEvents.box) : Prop :=
  (20 <= CanvasEvents.boxWidth b ∧ 20 <= CanvasEvents.boxHeight b)%Q.

(** The layer an object is drawn in: frames, connectors, the rest. *)
Definition layerOf (o : CanvasEvents.BoardObject) : nat :=
  if CanvasEvents.isType "frame" o then 0%nat
  else if CanvasEvents.isType "connector" o then 1%nat else 2%nat.

(** *** Sample data *)

(** A change that adds the note under key [o1], its removal, a change to
    another key, and the note as the cache holds it. *)
Definition noteAdded : BoardStore.docChange :=
  {| BoardStore.ctype := Cursors.added; BoardStore.doc_id := "o1";
     BoardStore.doc_data := noteAt12 |}.
Definition noteRemoved : BoardStore.docChange :=
  {| BoardStore.ctype := Cursors.removed; BoardStore.doc_id := "o1";
     BoardStore.doc_data := ∅ |}.
Definition otherAdded : BoardStore.docChange :=
  {| BoardStore.ctype := Cursors.added; BoardStore.doc_id := "o2";
     BoardStore.doc_data := moveTo55 |}.
Definition cachedNote : jsobj := <["id" := VStr "o1"]> noteAt12.

(** A change that adds the fresh cursor. *)
Definition cursorAdded : Cursors.docChange :=
  {| Cursors.ctype := Cursors.added; Cursors.doc_id := "user-2";
     Cursors.doc_data := freshCursor |}.

(** A drag of [o1] in two steps, 10ms apart. *)
Definition dragStep1 : timedUpdate :=
  {| at_time := 100; target := "o1"; fields := dragTo 1 1 |}.
Definition dragStep2 : timedUpdate :=
  {| at_time := 110; target := "o1"; fields := dragTo 2 2 |}.

(** A colour change. *)
Definition recolour : jsobj := <["color" := VStr "#4CAF50"]> ∅.

(** The page with the line tool chosen. *)
Definition lineToolPage : page :=
  {| pendingUpdates := ∅; flushTimer := None; activeTool := ToolLine; calls := [] |}.

(** A board with the note selected and on the clipboard. *)
Definition noteSelected : BoardKeys.board :=
  {| BoardKeys.pg := mount; BoardKeys.selectedIds := ["o1"];
     BoardKeys.clipboard := [cachedNote]; BoardKeys.showAI := false |}.

Section PointerSamples.

Import PrimFloat.
Local Open Scope float_scope.

(** The canvas as mounted with its selection rectangle hidden, a press of
    the left button on the empty canvas at screen position (10, 20), and
    one at (10.1, 20). *)
Definition hiddenRect : CanvasPointer.rectAttrs :=
  {| CanvasPointer.rectX := 0; CanvasPointer.rectY := 0;
     CanvasPointer.rectWidth := 0; CanvasPointer.rectHeight := 0;
     CanvasPointer.visible := false |}.
Definition canvas0 : CanvasPointer.canvas :=
  {| CanvasPointer.stageRef := Some stage0;
     CanvasPointer.selectionRectRef := Some hiddenRect;
     CanvasPointer.isSelecting := false; CanvasPointer.selectionStart := (0, 0);
     CanvasPointer.isPanning := false; CanvasPointer.lastPointerPos := (0, 0);
     CanvasPointer.spacePressed := false; CanvasPointer.emitted := [] |}.
Definition pressAt0 : CanvasPointer.mouseEvent :=
  {| CanvasPointer.button := 0; CanvasPointer.shiftKey := false;
     CanvasPointer.pointer := Some (10, 20); CanvasPointer.onEmpty := true |}.
Definition pressAt : CanvasPointer.mouseEvent :=
  {| CanvasPointer.button := 0; CanvasPointer.shiftKey := false;
     CanvasPointer.pointer := Some (10.1, 20); CanvasPointer.onEmpty := true |}.

End PointerSamples.

(** Three transformer boxes. *)
Definition box100 : CanvasEvents.box :=
  {| CanvasEvents.boxWidth := 100; CanvasEvents.boxHeight := 100 |}.
Definition boxTooNarrow : CanvasEvents.box :=
  {| CanvasEvents.boxWidth := 10; CanvasEvents.boxHeight := 50 |}.
Definition box30 : CanvasEvents.box :=
  {| CanvasEvents.boxWidth := 30; CanvasEvents.boxHeight := 30 |}.

(** * Properties *)

(** ** The object sync layer *)

Lemma updateDoc_merge (id : string) (data : jsobj) (c : coll) (old : jsobj) :
  c !! id = Some old →
  updateDoc id data c = Some (<[id := data ∪ old]> c).
Proof. intros H. unfold updateDoc. by rewrite H. Qed.

Lemma truthyStr_nonempty (s : string) : s ≠ "" → JS.truthyStr (Some s) = Some s.
Proof. intros H. unfold JS.truthyStr. by apply String.eqb_neq in H as ->. Qed.

Lemma truthyStr_is_Some (o : option string) :
  is_Some (JS.truthyStr o) → ∃ s, o = Some s ∧ s ≠ "".
Proof.
  destruct o as [s|]; simpl; [|by intros [? ?]].
  destruct (String.eqb_spec s "") as [->|Hne]; [by intros [? ?]|]. eauto.
Qed.

Lemma updateObject_result (b id : string) (updates : jsobj) (now : Z)
    (c : coll) (old : jsobj) :
  b ≠ "" →
  c !! id = Some old →
  updateObject (Some b) id updates now c
  = Some (<[id := <["updatedAt" := VTime now]> updates ∪ old]> c).
Proof.
  intros Hb H. unfold updateObject. rewrite truthyStr_nonempty by done.
  by apply updateDoc_merge.
Qed.

(** A field other than [updatedAt] of the merged document: the update's
    value when the update names the field, the old value otherwise. *)
Lemma stamped_merge_lookup (updates old : jsobj) (now : Z) (k : string) :
  k ≠ "updatedAt" →
  (<["updatedAt" := VTime now]> updates ∪ old) !! k
  = match updates !! k with Some v => Some v | None => old !! k end.
Proof.
  intros Hk. destruct (updates !! k) as [v|] eqn:E.
  - apply lookup_union_Some_l. by rewrite lookup_insert_ne.
  - rewrite lookup_union_r; [done|]. by rewrite lookup_insert_ne.
Qed.

(** C1. [updateObject(id, updates)] on an existing object of a mounted
    board (a non-empty board id) is a partial merge: the stored document
    afterwards carries the current time in [updatedAt], the update's
    value for every other field the update names, and the previous value
    for every field it does not name; no other document changes. *)
Theorem updateObject_partial_merge
    (boardId : option string) (id : string) (updates : jsobj) (now : Z)
    (c : coll) (old : jsobj) :
  is_Some (JS.truthyStr boardId) →
  c !! id = Some old →
  ∃ (c' : coll) (new : jsobj),
    updateObject boardId id updates now c = Some c' ∧
    c' !! id = Some new ∧
    new !! "updatedAt" = Some (VTime now) ∧
    (∀ k v, k ≠ "updatedAt" → updates !! k = Some v → new !! k = Some v) ∧
    (∀ k, k ≠ "updatedAt" → updates !! k = None → new !! k = old !! k) ∧
    (∀ id', id' ≠ id → c' !! id' = c !! id').
Proof.
  intros (b & -> & Hb)%truthyStr_is_Some Hold.
  eexists _, _. split; [by apply updateObject_result|].
  split; [by rewrite lookup_insert_eq|].
  split; [by apply lookup_union_Some_l, lookup_insert_eq|].
  split; [|split].
  - intros k v Hk Hv. by rewrite stamped_merge_lookup, Hv.
  - intros k Hk Hv. by rewrite stamped_merge_lookup, Hv.
  - intros id' Hne. by rewrite lookup_insert_ne.
Qed.

Lemma updateObject_partial_merge_witness :
  ∃ (c' : coll) (new : jsobj),
    updateObject (Some "board") "o1" (<["x" := VNum 5]> ∅) 1000
      (<["o1" := noteAt12]> ∅) = Some c' ∧
    c' !! "o1" = Some new ∧
    new !! "updatedAt" = Some (VTime 1000) ∧
    (∀ k v, k ≠ "updatedAt" →
       (<["x" := VNum 5]> ∅ : jsobj) !! k = Some v → new !! k = Some v) ∧
    (∀ k, k ≠ "updatedAt" →
       (<["x" := VNum 5]> ∅ : jsobj) !! k = None → new !! k = noteAt12 !! k) ∧
    (∀ id', id' ≠ "o1" → c' !! id' = (<["o1" := noteAt12]> ∅ : coll) !! id').
Proof.
  apply updateObject_partial_merge.
  - by eexists.
  - reflexivity.
Defined.

(** Applying any update twice gives, field by field, what applying it
    once gives, except for [updatedAt]. *)
Lemma updateObject_twice (b id : string) (u : jsobj) (t1 t2 : Z)
    (c : coll) (old : jsobj) :
  b ≠ "" →
  c !! id = Some old →
  ∃ (c1 c2 : coll) (d1 d2 : jsobj),
    updateObject (Some b) id u t1 c = Some c1 ∧
    updateObject (Some b) id u t2 c1 = Some c2 ∧
    c1 !! id = Some d1 ∧ c2 !! id = Some d2 ∧
    (∀ k, k ≠ "updatedAt" → d2 !! k = d1 !! k) ∧
    d1 !! "updatedAt" = Some (VTime t1) ∧
    d2 !! "updatedAt" = Some (VTime t2).
Proof.
  intros Hb Hold.
  pose proof (updateObject_result b id u t1 c old Hb Hold) as H1.
  set (d1 := <["updatedAt" := VTime t1]> u ∪ old) in *.
  set (c1 := <[id := d1]> c) in *.
  assert (c1 !! id = Some d1) as Hd1 by apply lookup_insert_eq.
  pose proof (updateObject_result b id u t2 c1 d1 Hb Hd1) as H2.
  eexists c1, _, d1, _. split; [exact H1|]. split; [exact H2|].
  split; [exact Hd1|]. split; [apply lookup_insert_eq|].
  split; [|split].
  - intros k Hk. rewrite stamped_merge_lookup by done.
    destruct (u !! k) as [v|] eqn:E; [|done].
    unfold d1. by rewrite stamped_merge_lookup, E.
  - by apply lookup_union_Some_l, lookup_insert_eq.
  - by apply lookup_union_Some_l, lookup_insert_eq.
Qed.

(** C7. Applying [update(id, {x: 5, y: 5})] a second time, at a later
    clock reading, leaves the geometry ([x], [y], [width], [height],
    [rotation]) exactly as the first application left it; of all fields
    only [updatedAt] differs, holding the later time. *)
Theorem update_xy_twice_same_geometry
    (b id : string) (t1 t2 : Z) (c : coll) (old : jsobj) :
  b ≠ "" →
  c !! id = Some old →
  (t1 < t2)%Z →
  ∃ (c1 c2 : coll) (once twice : jsobj),
    updateObject (Some b) id moveTo55 t1 c = Some c1 ∧
    updateObject (Some b) id moveTo55 t2 c1 = Some c2 ∧
    c1 !! id = Some once ∧ c2 !! id = Some twice ∧
    twice !! "x" = Some (VNum 5) ∧ once !! "x" = Some (VNum 5) ∧
    twice !! "y" = Some (VNum 5) ∧ once !! "y" = Some (VNum 5) ∧
    twice !! "width" = once !! "width" ∧
    twice !! "height" = once !! "height" ∧
    twice !! "rotation" = once !! "rotation" ∧
    (∀ k, k ≠ "updatedAt" → twice !! k = once !! k) ∧
    once !! "updatedAt" = Some (VTime t1) ∧
    twice !! "updatedAt" = Some (VTime t2) ∧
    VTime t1 ≠ VTime t2.
Proof.
  intros Hb Hold Hlt.
  destruct (updateObject_twice b id moveTo55 t1 t2 c old Hb Hold)
    as (c1 & c2 & d1 & d2 & H1 & H2 & Hd1 & Hd2 & Hsame & Ht1 & Ht2).
  assert (d1 !! "x" = Some (VNum 5) ∧ d1 !! "y" = Some (VNum 5)) as [Hx Hy].
  { rewrite (updateObject_result b id moveTo55 t1 c old Hb Hold) in H1.
    injection H1 as <-. rewrite lookup_insert_eq in Hd1. injection Hd1 as <-.
    by rewrite !stamped_merge_lookup. }
  exists c1, c2, d1, d2.
  repeat split; try done.
  - by rewrite Hsame.
  - by rewrite Hsame.
  - by apply Hsame.
  - by apply Hsame.
  - by apply Hsame.
  - unfold VTime. intros [= E]. lia.
Qed.

Lemma update_xy_twice_same_geometry_witness :
  ∃ (c1 c2 : coll) (once twice : jsobj),
    updateObject (Some "board") "o1" moveTo55 1000 (<["o1" := noteAt12]> ∅) = Some c1 ∧
    updateObject (Some "board") "o1" moveTo55 1040 c1 = Some c2 ∧
    c1 !! "o1" = Some once ∧ c2 !! "o1" = Some twice ∧
    twice !! "x" = Some (VNum 5) ∧ once !! "x" = Some (VNum 5) ∧
    twice !! "y" = Some (VNum 5) ∧ once !! "y" = Some (VNum 5) ∧
    twice !! "width" = once !! "width" ∧
    twice !! "height" = once !! "height" ∧
    twice !! "rotation" = once !! "rotation" ∧
    (∀ k, k ≠ "updatedAt" → twice !! k = once !! k) ∧
    once !! "updatedAt" = Some (VTime 1000) ∧
    twice !! "updatedAt" = Some (VTime 1040) ∧
    VTime 1000 ≠ VTime 1040.
Proof.
  apply (update_xy_twice_same_geometry "board" "o1" 1000 1040 _ noteAt12).
  - discriminate.
  - reflexivity.
  - lia.
Defined.

Lemma set_if_defined_lookup_ne (k k' : string) (v : value) (o : jsobj) :
  k ≠ k' → JS.set_if_defined k v o !! k' = o !! k'.
Proof. intros H. destruct v; simpl; try done; by rewrite lookup_insert_ne. Qed.

Ltac fullObj_lookup :=
  unfold fullObj;
  rewrite !set_if_defined_lookup_ne by done;
  repeat (rewrite lookup_insert_ne by done);
  apply lookup_insert_eq.

Lemma fullObj_width obj id uid now :
  fullObj obj id uid now !! "width"
  = Some (JS.coalesce (JS.get obj "width") (VNum 200)).
Proof. fullObj_lookup. Qed.

Lemma fullObj_height obj id uid now :
  fullObj obj id uid now !! "height"
  = Some (JS.coalesce (JS.get obj "height") (VNum 200)).
Proof. fullObj_lookup. Qed.

Lemma fullObj_rotation obj id uid now :
  fullObj obj id uid now !! "rotation"
  = Some (JS.coalesce (JS.get obj "rotation") (VNum 0)).
Proof. fullObj_lookup. Qed.

Lemma fullObj_color obj id uid now :
  fullObj obj id uid now !! "color"
  = Some (JS.coalesce (JS.get obj "color") (VStr "#FFEB3B")).
Proof. fullObj_lookup. Qed.

Lemma fullObj_fontSize obj id uid now :
  fullObj obj id uid now !! "fontSize"
  = Some (JS.coalesce (JS.get obj "fontSize") (VNum 16)).
Proof. fullObj_lookup. Qed.

Lemma fullObj_stamps obj id uid now :
  fullObj obj id uid now !! "createdBy" = Some (VStr uid) ∧
  fullObj obj id uid now !! "createdAt" = Some (VTime now) ∧
  fullObj obj id uid now !! "updatedAt" = Some (VTime now) ∧
  fullObj obj id uid now !! "id" = Some (VStr id).
Proof. repeat split; fullObj_lookup. Qed.

Lemma coalesce_nullish (v d : value) : JS.nullish v = true → JS.coalesce v d = d.
Proof. unfold JS.coalesce. by intros ->. Qed.

Lemma coalesce_given (v d : value) : JS.nullish v = false → JS.coalesce v d = v.
Proof. unfold JS.coalesce. by intros ->. Qed.

Lemma chooseId_spec (obj : jsobj) (uuid : string) :
  (JS.get obj "id" = VUndef ∨ ∃ s, JS.get obj "id" = VStr s) →
  chooseId obj uuid = Some (keyFor obj uuid).
Proof.
  unfold chooseId, keyFor, JS.or. intros [-> | [s ->]]; simpl; [done|].
  by destruct (String.eqb s "").
Qed.

(** C2, as the code has it.  [addObject] on a mounted board (a non-empty
    board id), for a partial object whose [id] is a string or absent,
    stores one document under the caller's non-empty id or else the
    generated token and returns that key.  In the stored document every
    omitted field among width, height, rotation, fontSize has the fixed
    default 200, 200, 0, 16, an omitted colour is ["#FFEB3B"] whatever the
    type (which is the sticky-note colour), supplied values are kept, and
    createdBy, createdAt, updatedAt and id are stamped. *)
Theorem addObject_fills_defaults
    (b : string) (obj : jsobj) (userId : string) (now : Z) (uuid : string) (c : coll) :
  b ≠ "" →
  (JS.get obj "id" = VUndef ∨ ∃ s, JS.get obj "id" = VStr s) →
  ∃ (id : string) (d : jsobj),
    addObject (Some b) obj userId now uuid c = Some (<[id := d]> c, Some id) ∧
    id = keyFor obj uuid ∧
    (JS.nullish (JS.get obj "width") = true → d !! "width" = Some (VNum 200)) ∧
    (JS.nullish (JS.get obj "height") = true → d !! "height" = Some (VNum 200)) ∧
    (JS.nullish (JS.get obj "rotation") = true → d !! "rotation" = Some (VNum 0)) ∧
    (JS.nullish (JS.get obj "fontSize") = true → d !! "fontSize" = Some (VNum 16)) ∧
    (JS.nullish (JS.get obj "color") = true → d !! "color" = Some (VStr "#FFEB3B")) ∧
    (JS.nullish (JS.get obj "color") = true →
     JS.get obj "type" = VStr "sticky-note" →
     d !! "color" = Some (typeDefaultColor (JS.get obj "type"))) ∧
    (∀ k, k ∈ ["width"; "height"; "rotation"; "fontSize"; "color"] →
          JS.nullish (JS.get obj k) = false → d !! k = Some (JS.get obj k)) ∧
    d !! "createdBy" = Some (VStr userId) ∧
    d !! "createdAt" = Some (VTime now) ∧
    d !! "updatedAt" = Some (VTime now) ∧
    d !! "id" = Some (VStr id).
Proof.
  intros Hb Hid.
  exists (keyFor obj uuid), (fullObj obj (keyFor obj uuid) userId now).
  split.
  { unfold addObject. by rewrite truthyStr_nonempty, (chooseId_spec obj uuid Hid). }
  split; [done|].
  rewrite fullObj_width, fullObj_height, fullObj_rotation, fullObj_fontSize,
    fullObj_color.
  destruct (fullObj_stamps obj (keyFor obj uuid) userId now) as (H1 & H2 & H3 & H4).
  repeat split; try done.
  - intros H. by rewrite coalesce_nullish.
  - intros H. by rewrite coalesce_nullish.
  - intros H. by rewrite coalesce_nullish.
  - intros H. by rewrite coalesce_nullish.
  - intros H. by rewrite coalesce_nullish.
  - intros H ->. by rewrite coalesce_nullish.
  - intros k Hk Hgiven.
    repeat (apply elem_of_cons in Hk as [-> | Hk]);
      [rewrite fullObj_width | rewrite fullObj_height | rewrite fullObj_rotation
      | rewrite fullObj_fontSize | rewrite fullObj_color | by apply elem_of_nil in Hk];
      by rewrite coalesce_given.
Qed.

Lemma addObject_fills_defaults_witness :
  ∃ (id : string) (d : jsobj),
    addObject (Some "board") bareStickyNote "user-1" 1000 "test-uuid-1234" ∅
      = Some (<[id := d]> ∅, Some id) ∧
    id = keyFor bareStickyNote "test-uuid-1234" ∧
    (JS.nullish (JS.get bareStickyNote "width") = true → d !! "width" = Some (VNum 200)) ∧
    (JS.nullish (JS.get bareStickyNote "height") = true → d !! "height" = Some (VNum 200)) ∧
    (JS.nullish (JS.get bareStickyNote "rotation") = true → d !! "rotation" = Some (VNum 0)) ∧
    (JS.nullish (JS.get bareStickyNote "fontSize") = true → d !! "fontSize" = Some (VNum 16)) ∧
    (JS.nullish (JS.get bareStickyNote "color") = true →
     d !! "color" = Some (VStr "#FFEB3B")) ∧
    (JS.nullish (JS.get bareStickyNote "color") = true →
     JS.get bareStickyNote "type" = VStr "sticky-note" →
     d !! "color" = Some (typeDefaultColor (JS.get bareStickyNote "type"))) ∧
    (∀ k, k ∈ ["width"; "height"; "rotation"; "fontSize"; "color"] →
          JS.nullish (JS.get bareStickyNote k) = false →
          d !! k = Some (JS.get bareStickyNote k)) ∧
    d !! "createdBy" = Some (VStr "user-1") ∧
    d !! "createdAt" = Some (VTime 1000) ∧
    d !! "updatedAt" = Some (VTime 1000) ∧
    d !! "id" = Some (VStr id).
Proof.
  apply (addObject_fills_defaults "board" bareStickyNote "user-1" 1000 "test-uuid-1234" ∅).
  - discriminate.
  - left. reflexivity.
Defined.

(** C2, as stated, fails: a circle created without a colour is stored
    with ["#FFEB3B"], not with the circle colour ["#4CAF50"]. *)
Lemma addObject_color_not_per_type : ¬ color_defaults_per_type.
Proof.
  intros Hlaw.
  specialize (Hlaw "board" bareCircle "user-1" 1000 "tok"
                   ∅ (<["tok" := fullObj bareCircle "tok" "user-1" 1000]> ∅)
                   "tok" (fullObj bareCircle "tok" "user-1" 1000)).
  rewrite fullObj_color in Hlaw.
  specialize (Hlaw eq_refl eq_refl (lookup_insert_eq _ _ _)).
  vm_compute in Hlaw. discriminate Hlaw.
Qed.

(** A canvas click with a drawing tool asks [addObject] for an object of
    the tool's type carrying the colour documented for that type, and
    returns to the select tool. *)
Lemma canvas_click_uses_type_color (t : Tool) (uid : string) (cx cy : Q) (p : page) :
  activeTool p = t →
  t ≠ ToolSelect → t ≠ ToolPan →
  handleCanvasClick (Some uid) cx cy p
  = {| pendingUpdates := pendingUpdates p; flushTimer := flushTimer p;
       activeTool := ToolSelect;
       calls := calls p ++ [AddObject (clickObject t cx cy) uid] |} ∧
  JS.get (clickObject t cx cy) "type" = VStr (toolName t) ∧
  JS.get (clickObject t cx cy) "color" = typeDefaultColor (VStr (toolName t)) ∧
  JS.nullish (JS.get (clickObject t cx cy) "color") = false.
Proof.
  intros Ht Hs Hp. unfold handleCanvasClick. rewrite Ht.
  destruct t; try done; repeat split; reflexivity.
Qed.

(** The scenario: a sticky note placed by a click is stored 200 by 200,
    in the sticky-note colour, with font size 16. *)
Lemma sticky_note_click_stored (cx cy : Q) (uid : string) (now : Z) (uuid : string) :
  ∃ d : jsobj,
    addObject (Some "board") (clickObject ToolStickyNote cx cy) uid now uuid ∅
      = Some (<[uuid := d]> ∅, Some uuid) ∧
    d !! "width" = Some (VNum 200) ∧ d !! "height" = Some (VNum 200) ∧
    d !! "color" = Some (typeDefaultColor (VStr "sticky-note")) ∧
    d !! "fontSize" = Some (VNum 16).
Proof.
  exists (fullObj (clickObject ToolStickyNote cx cy) uuid uid now).
  rewrite fullObj_width, fullObj_height, fullObj_color, fullObj_fontSize.
  repeat split; reflexivity.
Qed.

(** ** Cursors and presence *)

Lemma elem_of_cursorList (m : gmap string Cursors.CursorData) (cur : Cursors.CursorData) :
  cur ∈ Cursors.cursorList m ↔ ∃ k, m !! k = Some cur.
Proof.
  unfold Cursors.cursorList. rewrite list_elem_of_fmap. split.
  - intros [[k v] [-> Hin]]. exists k. by apply elem_of_map_to_list.
  - intros [k Hk]. exists (k, cur). split; [done|]. by apply elem_of_map_to_list.
Qed.

Lemma cleanStale_lookup (now : Z) (m : gmap string Cursors.CursorData)
    (k : string) (cur : Cursors.CursorData) :
  Cursors.cleanStale now m !! k = Some cur ↔
  m !! k = Some cur ∧ ¬ Cursors.stale now cur.
Proof. unfold Cursors.cleanStale. by rewrite map_lookup_filter_Some. Qed.

(** A cursor that is not stale and survives the changes of a snapshot
    stays listed: the purge removes stale entries only. *)
Lemma fresh_cursor_kept (me : option string) (now : Z)
    (changes : list Cursors.docChange) (prev : gmap string Cursors.CursorData)
    (k : string) (cur : Cursors.CursorData) :
  foldl (Cursors.applyChange me) prev changes !! k = Some cur →
  (now - Cursors.lastUpdated cur ≤ 30000)%Z →
  cur ∈ Cursors.cursorList (Cursors.onSnapshot me now changes prev).
Proof.
  intros Hk Hfresh. apply elem_of_cursorList. exists k.
  apply cleanStale_lookup. split; [done|]. unfold Cursors.stale. lia.
Qed.




(** The fresh entries of the same snapshots are listed. *)
Example fresh_entries_listed :
  Cursors.cursorList
    (Cursors.onSnapshot (Some "user-1") 60000 []
       (<["user-3" := staleCursor]> (<["user-2" := freshCursor]> ∅)))
  = [freshCursor] ∧
  Presence.onSnapshot 60000 [staleUser; freshUser] = [freshUser].
Proof. split; reflexivity. Qed.

Lemma applyChange_own_kept (uid : string) (m : gmap string Cursors.CursorData)
    (change : Cursors.docChange) (k : string) (cur : Cursors.CursorData) :
  Cursors.applyChange (Some uid) m change !! k = Some cur →
  Cursors.userId cur = uid →
  m !! k = Some cur.
Proof.
  unfold Cursors.applyChange. intros Hk Hown.
  destruct (Cursors.ctype change).
  1,2: case_bool_decide as Hne; [|done];
       destruct (decide (Cursors.doc_id change = k)) as [E|Hne'];
       [ rewrite E, lookup_insert_eq in Hk; injection Hk as <-; congruence
       | by rewrite lookup_insert_ne in Hk ].
  by apply lookup_delete_Some in Hk as [_ Hk].
Qed.

Lemma applyChanges_own_kept (uid : string) (changes : list Cursors.docChange)
    (m : gmap string Cursors.CursorData) (k : string) (cur : Cursors.CursorData) :
  foldl (Cursors.applyChange (Some uid)) m changes !! k = Some cur →
  Cursors.userId cur = uid →
  m !! k = Some cur.
Proof.
  revert m. induction changes as [|ch changes IH]; intros m Hk Hown; [done|].
  cbn [foldl] in Hk. eapply applyChange_own_kept; [|done]. by apply IH.
Qed.

(** A delivery made while the hook runs for [uid] adds no cursor of [uid]
    to the cache: one that is in it afterwards was in it before. *)
Lemma onSnapshot_own_kept (uid : string) (now : Z) (changes : list Cursors.docChange)
    (prev : gmap string Cursors.CursorData) (k : string) (cur : Cursors.CursorData) :
  Cursors.onSnapshot (Some uid) now changes prev !! k = Some cur →
  Cursors.userId cur = uid →
  prev !! k = Some cur.
Proof.
  intros [Hk _]%cleanStale_lookup Hown. by eapply applyChanges_own_kept.
Qed.

Lemma run_app (before after : list Cursors.delivery) :
  Cursors.run (before ++ after)
  = foldl (λ prev d, Cursors.onSnapshot (Cursors.hookUserId d) (Cursors.now_ms d)
                       (Cursors.docChanges d) prev)
          (Cursors.run before) after.
Proof. unfold Cursors.run. by rewrite foldl_app. Qed.

Lemma deliveries_own_kept (uid : string) (after : list Cursors.delivery)
    (m : gmap string Cursors.CursorData) (k : string) (cur : Cursors.CursorData) :
  Forall (λ d, Cursors.hookUserId d = Some uid) after →
  foldl (λ prev d, Cursors.onSnapshot (Cursors.hookUserId d) (Cursors.now_ms d)
                     (Cursors.docChanges d) prev) m after !! k = Some cur →
  Cursors.userId cur = uid →
  m !! k = Some cur.
Proof.
  intros Hall. revert m. induction Hall as [|d after Hd _ IH]; intros m Hk Hown; [done|].
  cbn [foldl] in Hk. apply IH in Hk; [|done]. rewrite Hd in Hk.
  by eapply onSnapshot_own_kept.
Qed.

(** C9, as the code has it.  While the hook runs for the user [uid], no
    delivery puts a cursor of [uid] into the cache: a cursor of [uid] that
    the cache holds after the deliveries [after] was already there, under
    the same key, after the deliveries [before] (those made while the hook
    had another, or no, user id).  So a hook that has run for [uid] from
    its mount on never lists a cursor of [uid]. *)
Theorem own_cursor_never_listed
    (uid : string) (before after : list Cursors.delivery) :
  Forall (λ d, Cursors.hookUserId d = Some uid) after →
  (∀ k cur,
     Cursors.run (before ++ after) !! k = Some cur →
     Cursors.userId cur = uid →
     Cursors.run before !! k = Some cur) ∧
  Forall (λ cur, Cursors.userId cur ≠ uid) (Cursors.cursorList (Cursors.run after)).
Proof.
  intros Hall. split.
  - intros k cur Hk Hown. rewrite run_app in Hk.
    by eapply deliveries_own_kept.
  - apply Forall_forall. intros cur [k Hk]%elem_of_cursorList Hown.
    change after with ([] ++ after) in Hk. rewrite run_app in Hk.
    by apply (deliveries_own_kept uid after _ k cur Hall) in Hk.
Qed.

Lemma own_cursor_never_listed_witness :
  (∀ k cur,
     Cursors.run ([beforeLogin] ++ [afterLogin]) !! k = Some cur →
     Cursors.userId cur = "user-2" →
     Cursors.run [beforeLogin] !! k = Some cur) ∧
  Forall (λ cur, Cursors.userId cur ≠ "user-2")
         (Cursors.cursorList (Cursors.run [afterLogin])).
Proof.
  apply (own_cursor_never_listed "user-2" [beforeLogin] [afterLogin]).
  repeat constructor.
Defined.

(** C9, as stated, fails.  The hook's [userId] is a prop: the page passes
    [user?.uid], which is undefined until the user is known, and the cache
    outlives the change.  The own cursor cached by a delivery made before
    the id was known is skipped, not evicted, by the changes delivered
    afterwards, and stays in the returned list. *)
Lemma own_cursor_listed_after_login : ¬ own_cursor_law.
Proof.
  intros Hlaw.
  pose proof (Hlaw [beforeLogin] afterLogin "user-2" eq_refl) as H.
  rewrite Forall_forall in H. apply (H freshCursor); [|reflexivity].
  apply elem_of_cursorList. exists "user-2". reflexivity.
Qed.

(** The test's snapshot: the local user's own cursor and another user's. *)
Example own_cursor_filtered :
  Cursors.cursorList (Cursors.run [twoCursors "user-2"]) = [] ∧
  Cursors.cursorList (Cursors.run [twoCursors "user-3"]) = [freshCursor].
Proof. split; reflexivity. Qed.

(** The run of the counterexample: the own cursor is listed after both
    deliveries, until a [removed] change or the purge takes it away. *)
Example own_cursor_cached_before_login :
  Cursors.cursorList (Cursors.run [beforeLogin; afterLogin]) = [freshCursor].
Proof. reflexivity. Qed.

Lemma updateCursor_sent (b uid : string) (now : Z) (px py : Q)
    (name col : string) (photo : option string) (p : Cursors.publisher) :
  b ≠ "" → uid ≠ "" →
  (50 ≤ now - Cursors.throttleRef p)%Z →
  Cursors.updateCursor (Some b) (Some uid) now px py name col photo p
  = {| Cursors.throttleRef := now;
       Cursors.writes := Cursors.writes p ++ [cursorDoc uid name col photo now px py] |}.
Proof.
  intros Hb Hu H. unfold Cursors.updateCursor.
  rewrite !truthyStr_nonempty by done.
  rewrite bool_decide_eq_false_2 by lia. done.
Qed.

Lemma updateCursor_dropped (b uid : string) (now : Z) (px py : Q)
    (name col : string) (photo : option string) (p : Cursors.publisher) :
  (now - Cursors.throttleRef p < 50)%Z →
  Cursors.updateCursor (Some b) (Some uid) now px py name col photo p = p.
Proof.
  intros H. unfold Cursors.updateCursor.
  destruct (JS.truthyStr (Some b)), (JS.truthyStr (Some uid)); try done.
  by rewrite bool_decide_eq_true_2.
Qed.

(** C4. The cursor publisher (with a board id and a user id) is a
    leading-edge 50ms throttle.  With the first call at a clock reading [t0] of at least 50 (the stamp starts at
    0; any real clock is far past it), calls at [t0], [t0 + 10] and
    [t0 + 60] produce exactly two remote writes, those of the first and
    the third call.  In general a call made 50ms or more after the last
    write is written at once, and a call made less than 50ms after it
    leaves the publisher exactly as it was: nothing is queued. *)
Theorem updateCursor_leading_edge_throttle
    (b uid name col : string) (photo : option string)
    (t0 : Z) (x0 y0 x1 y1 x2 y2 : Q) :
  b ≠ "" → uid ≠ "" →
  (50 ≤ t0)%Z →
  Cursors.writes
    (Cursors.publish (Some b) (Some uid) name col photo
       [ {| Cursors.at_ms := t0; Cursors.mx := x0; Cursors.my := y0 |};
         {| Cursors.at_ms := t0 + 10; Cursors.mx := x1; Cursors.my := y1 |};
         {| Cursors.at_ms := t0 + 60; Cursors.mx := x2; Cursors.my := y2 |} ]
       Cursors.initial)
  = [ cursorDoc uid name col photo t0 x0 y0;
      cursorDoc uid name col photo (t0 + 60) x2 y2 ]
  ∧ (∀ (p : Cursors.publisher) (now : Z) (px py : Q),
       (50 ≤ now - Cursors.throttleRef p)%Z →
       Cursors.updateCursor (Some b) (Some uid) now px py name col photo p
       = {| Cursors.throttleRef := now;
            Cursors.writes :=
              Cursors.writes p ++ [cursorDoc uid name col photo now px py] |})
  ∧ (∀ (p : Cursors.publisher) (now : Z) (px py : Q),
       (now - Cursors.throttleRef p < 50)%Z →
       Cursors.updateCursor (Some b) (Some uid) now px py name col photo p = p).
Proof.
  intros Hb Hu Ht0. split; [|split].
  - unfold Cursors.publish.
    cbn [foldl Cursors.at_ms Cursors.mx Cursors.my].
    rewrite (updateCursor_sent b uid t0) by (done || (simpl; lia)).
    rewrite (updateCursor_dropped b uid (t0 + 10)) by (simpl; lia).
    rewrite (updateCursor_sent b uid (t0 + 60)) by (done || (simpl; lia)).
    done.
  - intros p now px py H. by apply updateCursor_sent.
  - intros p now px py H. by apply updateCursor_dropped.
Qed.

Lemma updateCursor_leading_edge_throttle_witness :
  Cursors.writes
    (Cursors.publish (Some "board-123") (Some "user-1") "User" "#fff" None
       [ {| Cursors.at_ms := 1704067200000; Cursors.mx := 0; Cursors.my := 0 |};
         {| Cursors.at_ms := 1704067200000 + 10; Cursors.mx := 10; Cursors.my := 10 |};
         {| Cursors.at_ms := 1704067200000 + 60; Cursors.mx := 20; Cursors.my := 20 |} ]
       Cursors.initial)
  = [ cursorDoc "user-1" "User" "#fff" None 1704067200000 0 0;
      cursorDoc "user-1" "User" "#fff" None (1704067200000 + 60) 20 20 ].
Proof.
  apply (updateCursor_leading_edge_throttle "board-123" "user-1" "User" "#fff" None
           1704067200000 0 0 10 10 20 20).
  - discriminate.
  - discriminate.
  - lia.
Defined.

(** At a clock reading of exactly 0 the stamp's initial value 0 makes the
    publisher drop the first two calls. *)
Example updateCursor_at_epoch :
  Cursors.writes
    (Cursors.publish (Some "board-123") (Some "user-1") "User" "#fff" None
       [ {| Cursors.at_ms := 0; Cursors.mx := 0; Cursors.my := 0 |};
         {| Cursors.at_ms := 10; Cursors.mx := 10; Cursors.my := 10 |};
         {| Cursors.at_ms := 60; Cursors.mx := 20; Cursors.my := 20 |} ]
       Cursors.initial)
  = [ cursorDoc "user-1" "User" "#fff" None 60 20 20 ].
Proof. reflexivity. Qed.

(** ** Update coalescing *)

Lemma toBatch_elem (m : gmap string jsobj) (id : string) (ch : jsobj) :
  (VStr id, ch) ∈ toBatch m ↔ m !! id = Some ch.
Proof.
  unfold toBatch. rewrite list_elem_of_fmap. split.
  - intros [[k v] [[= -> ->] Hin]]. by apply elem_of_map_to_list.
  - intros H. exists (id, ch). split; [done|]. by apply elem_of_map_to_list.
Qed.

Lemma toBatch_NoDup (m : gmap string jsobj) : NoDup (toBatch m).*1.
Proof.
  unfold toBatch. rewrite <- list_fmap_compose.
  assert ((fst ∘ (λ e : string * jsobj, (VStr e.1, e.2))) <$> map_to_list m
          = VStr <$> (map_to_list m).*1) as ->.
  { rewrite <- list_fmap_compose. done. }
  apply NoDup_fmap_2; [|apply NoDup_fst_map_to_list].
  intros a b' [=]. done.
Qed.

Lemma flush_nonempty (p : page) :
  pendingUpdates p ≠ ∅ →
  flushPendingUpdates p =
    {| pendingUpdates := ∅; flushTimer := flushTimer p; activeTool := activeTool p;
       calls := calls p ++ [UpdateObjects (toBatch (pendingUpdates p))] |}.
Proof.
  intros Hne. unfold flushPendingUpdates.
  rewrite bool_decide_eq_false_2; [done|].
  intros Hsz. by apply map_size_empty_iff in Hsz.
Qed.

(** Before its deadline an armed timer does not fire. *)
Lemma elapse_early (now deadline : Z) (p : page) :
  flushTimer p = Some deadline → (now < deadline)%Z → elapse now p = p.
Proof.
  intros Ht Hlt. unfold elapse. rewrite Ht.
  rewrite bool_decide_eq_false_2 by lia. done.
Qed.

(** Field by field, a spread takes the later object's value first. *)
Lemma spread_lookup (a b : jsobj) (k : string) :
  JS.spread a b !! k = match b !! k with Some v => Some v | None => a !! k end.
Proof.
  unfold JS.spread. destruct (b !! k) as [v|] eqn:E.
  - by apply lookup_union_Some_l.
  - by rewrite lookup_union_r.
Qed.

(** C3. Two [debouncedUpdate] calls for the same id less than 50ms apart,
    followed by 50 quiet milliseconds, make the page issue exactly one
    further sync-layer call, a single [updateObjects] batch.  The batch
    has exactly one entry for the id, and for each field that entry
    carries the second update's value if the second update names the
    field, else the first update's, else what the buffer already held for
    the id.  The buffer is empty afterwards. *)
Theorem debounce_merges_by_id
    (p : page) (id : string) (u1 u2 : jsobj) (t1 t2 t3 : Z) :
  (t2 - t1 < 50)%Z →
  (t2 + 50 ≤ t3)%Z →
  ∃ (batch : list (value * jsobj)) (merged : jsobj),
    calls (elapse t3 (debouncedUpdate t2 id u2
             (elapse t2 (debouncedUpdate t1 id u1 p))))
      = (calls p ++ [UpdateObjects batch])%list ∧
    pendingUpdates (elapse t3 (debouncedUpdate t2 id u2
             (elapse t2 (debouncedUpdate t1 id u1 p)))) = ∅ ∧
    (VStr id, merged) ∈ batch ∧
    NoDup batch.*1 ∧
    (∀ changes, (VStr id, changes) ∈ batch → changes = merged) ∧
    (∀ k, merged !! k =
          match u2 !! k with
          | Some v => Some v
          | None => match u1 !! k with
                    | Some v => Some v
                    | None => default ∅ (pendingUpdates p !! id) !! k
                    end
          end).
Proof.
  intros Hnear Hquiet.
  set (prior := default ∅ (pendingUpdates p !! id)).
  set (p1 := debouncedUpdate t1 id u1 p).
  rewrite (elapse_early t2 (t1 + 50) p1) by (done || lia).
  set (p2 := debouncedUpdate t2 id u2 p1).
  set (merged := JS.spread (JS.spread prior u1) u2).
  assert (pendingUpdates p2 = <[id := merged]> (pendingUpdates p)) as Hpend.
  { unfold p2, p1, debouncedUpdate; cbn [pendingUpdates].
    rewrite lookup_insert_eq. cbn [default]. by rewrite insert_insert_eq. }
  assert (elapse t3 p2 =
          {| pendingUpdates := ∅; flushTimer := None; activeTool := activeTool p;
             calls := calls p ++ [UpdateObjects (toBatch (<[id := merged]> (pendingUpdates p)))] |})
    as ->.
  { unfold elapse. cbn [flushTimer p2 debouncedUpdate].
    rewrite bool_decide_eq_true_2 by lia.
    rewrite flush_nonempty; cbn [pendingUpdates flushTimer activeTool calls].
    - by rewrite Hpend.
    - rewrite Hpend. apply insert_non_empty. }
  exists (toBatch (<[id := merged]> (pendingUpdates p))), merged.
  cbn [calls pendingUpdates].
  split; [done|]. split; [done|].
  split; [apply toBatch_elem, lookup_insert_eq|].
  split; [apply toBatch_NoDup|].
  split.
  - intros changes Hin%toBatch_elem. rewrite lookup_insert_eq in Hin. congruence.
  - intros k. unfold merged. rewrite !spread_lookup. done.
Qed.

Lemma debounce_merges_by_id_witness :
  ∃ (batch : list (value * jsobj)) (merged : jsobj),
    calls (elapse 200 (debouncedUpdate 130 "o1" (resizeTo 300)
             (elapse 130 (debouncedUpdate 100 "o1" (dragTo 5 5) mount))))
      = (calls mount ++ [UpdateObjects batch])%list ∧
    pendingUpdates (elapse 200 (debouncedUpdate 130 "o1" (resizeTo 300)
             (elapse 130 (debouncedUpdate 100 "o1" (dragTo 5 5) mount)))) = ∅ ∧
    (VStr "o1", merged) ∈ batch ∧
    NoDup batch.*1 ∧
    (∀ changes, (VStr "o1", changes) ∈ batch → changes = merged) ∧
    (∀ k, merged !! k =
          match resizeTo 300 !! k with
          | Some v => Some v
          | None => match dragTo 5 5 !! k with
                    | Some v => Some v
                    | None => default ∅ (pendingUpdates mount !! "o1") !! k
                    end
          end).
Proof.
  apply (debounce_merges_by_id mount "o1" (dragTo 5 5) (resizeTo 300) 100 130 200); lia.
Defined.

(** The same two updates on a concrete run: one batch, one entry, with
    [x] from the later update and [y] from the earlier one. *)
Example debounce_run_within_window :
  calls (elapse 200 (debouncedUpdate 130 "o1" (resizeTo 300)
           (elapse 130 (debouncedUpdate 100 "o1" (dragTo 5 5) mount))))
  = [UpdateObjects
       [(VStr "o1",
         <["width" := VNum 300]> (<["x" := VNum 7]> (<["y" := VNum 5]> ∅)))]].
Proof. vm_compute. reflexivity. Qed.

(** When the second update comes 50ms or more after the first, the timer
    has fired in between and there are two batches. *)
Example debounce_run_outside_window :
  calls (elapse 300 (debouncedUpdate 150 "o1" (resizeTo 300)
           (elapse 150 (debouncedUpdate 100 "o1" (dragTo 5 5) mount))))
  = [UpdateObjects [(VStr "o1", dragTo 5 5)];
     UpdateObjects [(VStr "o1", resizeTo 300)]].
Proof. vm_compute. reflexivity. Qed.

Lemma has_true (k : string) (u : jsobj) : is_Some (u !! k) → JS.has k u = true.
Proof. intros H. unfold JS.has. by apply bool_decide_eq_true_2. Qed.

Lemma has_false (k : string) (u : jsobj) : ¬ is_Some (u !! k) → JS.has k u = false.
Proof. intros H. unfold JS.has. by apply bool_decide_eq_false_2. Qed.

(** [handleObjectUpdate] sends every geometry-only update to the
    debounce buffer. *)
Lemma geometryOnly_isPositionUpdate (u : jsobj) :
  geometryOnly u → isPositionUpdate u = true.
Proof.
  intros [Hne Hgeo]. unfold isPositionUpdate.
  assert (∀ k, k ∉ ["x"; "y"; "width"; "height"; "rotation"] → JS.has k u = false)
    as Hnot.
  { intros k Hk. apply has_false. intros Hs. by apply Hk, Hgeo. }
  rewrite (Hnot "text"), (Hnot "color"), (Hnot "strokeWidth")
    by (intros Hin; repeat (apply elem_of_cons in Hin as [Hin|Hin]; [discriminate Hin|]);
        by apply elem_of_nil in Hin).
  apply map_choose in Hne as (k & v & Hkv).
  assert (is_Some (u !! k)) as Hs by eauto.
  pose proof (Hgeo k Hs) as Hin.
  repeat (apply elem_of_cons in Hin as [-> | Hin]);
    [..|by apply elem_of_nil in Hin];
    rewrite (has_true _ u Hs); simpl; by rewrite ?orb_true_r.
Qed.

Lemma handleObjectUpdate_geometry (now : Z) (id : string) (u : jsobj) (p : page) :
  geometryOnly u → handleObjectUpdate now id u p = debouncedUpdate now id u p.
Proof.
  intros H. unfold handleObjectUpdate. by rewrite geometryOnly_isPositionUpdate.
Qed.

(** A content change goes to [updateObject] at once and leaves the
    buffer and its timer alone. *)
Lemma handleObjectUpdate_content (now : Z) (id : string) (u : jsobj) (p : page) :
  is_Some (u !! "text") ∨ is_Some (u !! "color") ∨ is_Some (u !! "strokeWidth") →
  handleObjectUpdate now id u p
  = {| pendingUpdates := pendingUpdates p; flushTimer := flushTimer p;
       activeTool := activeTool p;
       calls := calls p ++ [UpdateObject id u] |}.
Proof.
  intros H. unfold handleObjectUpdate, isPositionUpdate.
  destruct H as [H|[H|H]]; rewrite (has_true _ u H); simpl;
    by rewrite ?andb_false_r.
Qed.

(** ** The AI action executor *)

Lemma coalesce_readSource (ps : jsobj) (k : string) (d : value) :
  JS.coalesce (JS.get ps k) d = readSource ps (ParamOr k d).
Proof. unfold JS.coalesce, JS.get. simpl. destruct (ps !! k) as [[]|]; done. Qed.

Lemma is_str_circle (ps : jsobj) :
  (if JS.is_str (JS.get ps "type") "circle" then VStr "circle" else VStr "rectangle")
  = readSource ps CircleOrRectangle.
Proof.
  unfold JS.get. simpl. destruct (ps !! "type") as [[| | | |s|]|]; simpl; done.
Qed.

Lemma get_readSource (ps : jsobj) (k : string) : JS.get ps k = readSource ps (Param k).
Proof. done. Qed.

Ltac dispatch_case a name :=
  destruct (String.eqb_spec a name) as [->|?];
  [ unfold pushCreate, pushUpdate, pushDelete; cbn; rewrite ?app_nil_r; reflexivity | ].

(** One turn of the loop on an instruction with parameters adds exactly
    the requests the tables give for it. *)
Lemma dispatch_extend (b : batches) (a : string) (ps : jsobj) :
  dispatch b {| action := a; params := Some ps |} = Some (extend b a ps).
Proof.
  unfold dispatch, extend, createOf, updateOf, deleteOf, groupOf.
  cbn [action params mbind option_bind].
  rewrite !coalesce_readSource, is_str_circle, !get_readSource.
  dispatch_case a "createStickyNote".
  dispatch_case a "createShape".
  dispatch_case a "createFrame".
  dispatch_case a "createText".
  dispatch_case a "createConnector".
  dispatch_case a "moveObject".
  dispatch_case a "resizeObject".
  dispatch_case a "updateText".
  dispatch_case a "changeColor".
  dispatch_case a "deleteObject".
  cbn [assoc createFields updateFields catalogue].
  repeat match goal with
         | H : a ≠ ?s |- _ => apply String.eqb_neq in H; rewrite H; clear H
         end.
  cbn. rewrite !app_nil_r. by destruct b.
Qed.

(** The names of the catalogue are the ten action names, and exactly the
    names that have a group. *)
Lemma catalogue_names :
  catalogue.*1
  = ["createStickyNote"; "createShape"; "createFrame"; "createText";
     "createConnector"; "moveObject"; "resizeObject"; "updateText";
     "changeColor"; "deleteObject"].
Proof. reflexivity. Qed.

Lemma groupOf_catalogue (a : string) : is_Some (groupOf a) ↔ a ∈ catalogue.*1.
Proof.
  rewrite catalogue_names. unfold groupOf. cbn [assoc catalogue]. split.
  - repeat match goal with
           | |- context [String.eqb a ?s] =>
               destruct (String.eqb_spec a s) as [->|?];
               [ intros _; rewrite !elem_of_cons; tauto | ]
           end.
    by intros [? ?].
  - intros Hin.
    repeat (apply elem_of_cons in Hin as [-> | Hin]; [by eexists|]).
    by apply elem_of_nil in Hin.
Qed.

Lemma groupOf_outside (a : string) : a ∉ catalogue.*1 → groupOf a = None.
Proof.
  intros Hout. destruct (groupOf a) as [g|] eqn:E; [|done].
  exfalso. apply Hout, groupOf_catalogue. by eexists.
Qed.

(** An action name outside the catalogue adds nothing to any array and
    throws nothing, with or without parameters. *)
Lemma dispatch_unknown (b : batches) (i : instruction) :
  action i ∉ catalogue.*1 → dispatch b i = Some b.
Proof.
  intros Hout%groupOf_outside. destruct i as [a ps]. revert Hout.
  unfold dispatch, groupOf. cbn [action params assoc catalogue].
  repeat match goal with
         | |- context [String.eqb a ?s] =>
             destruct (String.eqb_spec a s) as [->|?]; [ discriminate | ]
         end.
  done.
Qed.

Lemma option_list_omap {A B : Type} (f : A → option B) (x : A) (l : list A) :
  omap f (x :: l) = option_list (f x) ++ omap f l.
Proof. simpl. by destruct (f x). Qed.

Lemma loop_app (l1 l2 : list instruction) (b : batches) :
  loop b (l1 ++ l2) = b' ← loop b l1; loop b' l2.
Proof.
  revert b. induction l1 as [|i l1 IH]; intros b; [done|].
  cbn [app loop]. destruct (dispatch b i) as [b'|]; [|done]. apply IH.
Qed.

Lemma loop_requests (actions : list instruction) (b : batches) :
  Forall (λ i, is_Some (params i)) actions →
  loop b actions
  = Some {| creates := creates b ++ omap createReq actions;
            updates := updates b ++ omap updateReq actions;
            deletes := deletes b ++ omap deleteReq actions |}.
Proof.
  intros Hps. revert b.
  induction Hps as [|[a ops] actions [ps Hi] _ IH]; intros b.
  - simpl. rewrite !app_nil_r. by destruct b.
  - cbn [params] in Hi. subst ops.
    cbn [loop]. rewrite dispatch_extend. cbn [mbind option_bind].
    rewrite IH. unfold extend. cbn [creates updates deletes].
    rewrite !option_list_omap, !app_assoc. done.
Qed.

Lemma partition_requests (actions : list instruction) :
  Forall (λ i, is_Some (params i)) actions →
  partition actions
  = Some {| creates := omap createReq actions;
            updates := omap updateReq actions;
            deletes := omap deleteReq actions |}.
Proof. intros H. unfold partition. by rewrite loop_requests. Qed.

Lemma batchCalls_groupCalls (uid : string) (b : batches) :
  batchCalls uid b = groupCalls uid (creates b) (updates b) (deletes b).
Proof.
  unfold batchCalls, groupCalls.
  by destruct (creates b), (updates b), (deletes b).
Qed.

(** A catalogue action stands for exactly one request, in the group of
    its name. *)
Lemma catalogue_one_request (a : string) (ps : jsobj) (g : group) :
  groupOf a = Some g →
  match g with
  | Creation => is_Some (createOf a ps) ∧ updateOf a ps = None ∧ deleteOf a ps = None
  | Update => createOf a ps = None ∧ is_Some (updateOf a ps) ∧ deleteOf a ps = None
  | Deletion => createOf a ps = None ∧ updateOf a ps = None ∧ is_Some (deleteOf a ps)
  end.
Proof.
  unfold groupOf, createOf, updateOf, deleteOf, groupOf.
  cbn [assoc catalogue createFields updateFields].
  repeat match goal with
         | |- context [String.eqb a ?s] =>
             destruct (String.eqb_spec a s) as [->|?];
             [ cbn; intros [= <-]; repeat split; eauto | ]
         end.
  discriminate.
Qed.

Lemma catalogue_count (i : instruction) :
  action i ∈ catalogue.*1 →
  (length (option_list (createReq i)) + length (option_list (updateReq i))
   + length (option_list (deleteReq i)) = 1)%nat.
Proof.
  intros [g Hg]%groupOf_catalogue.
  pose proof (catalogue_one_request (action i) (paramsOf i) g Hg) as H.
  unfold createReq, updateReq, deleteReq.
  destruct g; destruct H as (H1 & H2 & H3);
    repeat match goal with
           | H : is_Some _ |- _ => destruct H as [? ->]
           | H : _ = None |- _ => rewrite H
           end; done.
Qed.

Lemma partition_count (actions : list instruction) :
  Forall (λ i, action i ∈ catalogue.*1) actions →
  (length (omap createReq actions) + length (omap updateReq actions)
   + length (omap deleteReq actions) = length actions)%nat.
Proof.
  induction 1 as [|i actions Hi _ IH]; [done|].
  rewrite !option_list_omap, !length_app. cbn [length].
  pose proof (catalogue_count i Hi). lia.
Qed.

(** C6. For a signed-in user and any list of instructions drawn from the
    ten-action catalogue, the executor splits the list into exactly three
    groups: the create requests of the creating instructions, the update
    entries of the updating instructions and the ids of the deleting
    instructions, each in instruction order and built as the catalogue
    tables say (fields, parameters, defaults).  Every instruction lands in
    exactly one group, and each non-empty group is passed to the matching
    batch operation ([addObjects], [updateObjects], [deleteObjects]) in
    one call. *)
Theorem executeAIActions_partitions (uid : string) (actions : list instruction) :
  Forall inCatalogue actions →
  ∃ b : batches,
    partition actions = Some b ∧
    creates b = omap createReq actions ∧
    updates b = omap updateReq actions ∧
    deletes b = omap deleteReq actions ∧
    Forall (λ i, (length (option_list (createReq i)) + length (option_list (updateReq i))
                  + length (option_list (deleteReq i)) = 1)%nat) actions ∧
    (length (creates b) + length (updates b) + length (deletes b)
     = length actions)%nat ∧
    executeAIActions (Some uid) actions
    = Some (groupCalls uid (creates b) (updates b) (deletes b)).
Proof.
  intros Hcat.
  assert (Forall (λ i, is_Some (params i)) actions) as Hps.
  { eapply Forall_impl; [exact Hcat|]. by intros i [_ H]. }
  assert (Forall (λ i, action i ∈ catalogue.*1) actions) as Hnames.
  { eapply Forall_impl; [exact Hcat|]. by intros i [H _]. }
  eexists. split; [by apply partition_requests|]. cbn [creates updates deletes].
  repeat split; try done.
  - eapply Forall_impl; [exact Hnames|]. intros i Hi. by apply catalogue_count.
  - by apply partition_count.
  - unfold executeAIActions. rewrite partition_requests by done.
    cbn [mbind option_bind]. by rewrite batchCalls_groupCalls.
Qed.

Lemma executeAIActions_partitions_witness :
  ∃ b : batches,
    partition [aiNote; aiMove; aiDelete] = Some b ∧
    creates b = omap createReq [aiNote; aiMove; aiDelete] ∧
    updates b = omap updateReq [aiNote; aiMove; aiDelete] ∧
    deletes b = omap deleteReq [aiNote; aiMove; aiDelete] ∧
    Forall (λ i, (length (option_list (createReq i)) + length (option_list (updateReq i))
                  + length (option_list (deleteReq i)) = 1)%nat)
           [aiNote; aiMove; aiDelete] ∧
    (length (creates b) + length (updates b) + length (deletes b) = 3)%nat ∧
    executeAIActions (Some "user-1") [aiNote; aiMove; aiDelete]
    = Some (groupCalls "user-1" (creates b) (updates b) (deletes b)).
Proof.
  apply (executeAIActions_partitions "user-1" [aiNote; aiMove; aiDelete]).
  repeat constructor;
    try (by eexists);
    cbn; rewrite !elem_of_cons; tauto.
Defined.

(** The calls of that run, written out. *)
Example executeAIActions_run :
  executeAIActions (Some "user-1") [aiNote; aiMove; aiDelete]
  = Some
    [ AddObjects
        [ <["type" := VStr "sticky-note"]> (<["x" := VNum 40]> (<["y" := VNum 0]>
          (<["width" := VNum 200]> (<["height" := VNum 200]>
          (<["color" := VStr "#FFEB3B"]> (<["text" := VStr "Idea"]> ∅)))))) ]
        "user-1";
      UpdateObjects [ (VStr "o1", <["x" := VNum 5]> (<["y" := VNum 6]> ∅)) ];
      DeleteObjects [ VStr "o2" ] ].
Proof. vm_compute. reflexivity. Qed.

(** C10. An instruction whose action name is outside the ten-item
    catalogue changes nothing and throws nothing, even when it carries no
    parameters: the loop passes over it with the arrays as they were, and
    wherever it stands in the list the executor's outcome (the sync-layer
    calls made, or a failure caused by another instruction) is the one for
    the list without it. *)
Theorem unknown_action_skipped
    (user : option string) (before after : list instruction) (i : instruction) :
  action i ∉ catalogue.*1 →
  (∀ b : batches, dispatch b i = Some b) ∧
  partition (before ++ i :: after) = partition (before ++ after) ∧
  executeAIActions user (before ++ i :: after) = executeAIActions user (before ++ after).
Proof.
  intros Hout.
  assert (partition (before ++ i :: after) = partition (before ++ after)) as Hp.
  { unfold partition. rewrite !loop_app.
    destruct (loop noBatches before) as [b|]; [|done].
    cbn [mbind option_bind loop]. by rewrite dispatch_unknown. }
  split; [intros b; by apply dispatch_unknown|].
  split; [done|]. unfold executeAIActions. by rewrite Hp.
Qed.

Lemma unknown_action_skipped_witness :
  (∀ b : batches, dispatch b aiBare = Some b) ∧
  partition ([aiNote] ++ aiBare :: [aiMove; aiDelete])
    = partition ([aiNote] ++ [aiMove; aiDelete]) ∧
  executeAIActions (Some "user-1") ([aiNote] ++ aiBare :: [aiMove; aiDelete])
    = executeAIActions (Some "user-1") ([aiNote] ++ [aiMove; aiDelete]).
Proof.
  apply (unknown_action_skipped (Some "user-1") [aiNote] [aiMove; aiDelete] aiBare).
  cbn. intros Hin.
  repeat (apply elem_of_cons in Hin as [Hin|Hin]; [discriminate Hin|]).
  by apply elem_of_nil in Hin.
Defined.

(** A run with an unknown action in the middle makes the calls of the
    run without it; a known action without parameters makes the loop
    throw. *)
Example executeAIActions_skips_unknown :
  executeAIActions (Some "user-1") [aiNote; aiBogus; aiMove; aiBare; aiDelete]
  = executeAIActions (Some "user-1") [aiNote; aiMove; aiDelete].
Proof. vm_compute. reflexivity. Qed.

Example executeAIActions_known_without_params :
  executeAIActions (Some "user-1")
    [aiNote; {| action := "moveObject"; params := None |}] = None.
Proof. reflexivity. Qed.

(** ** The wheel handler *)

Section Wheel.

Import PrimFloat SpecFloat FloatOps FloatAxioms Canvas.

(** *** Comparisons of binary64 numbers *)

Lemma compare_cont_flip (p q : BinNums.positive) :
  PosDef.Pos.compare_cont Eq q p = CompOpp (PosDef.Pos.compare_cont Eq p q).
Proof. exact (eq_sym (Pos.compare_cont_antisym p q Eq)). Qed.

Lemma SFcompare_antisym (x y : spec_float) :
  SFcompare y x = CompOpp <$> SFcompare x y.
Proof.
  destruct x as [sx|sx| |sx mx ex], y as [sy|sy| |sy my ey]; cbn;
    try destruct sx; try destruct sy; try reflexivity.
  - rewrite (Z.compare_antisym ex ey). destruct (ex ?= ey)%Z; cbn; try reflexivity.
    by rewrite (compare_cont_flip mx my).
  - rewrite (Z.compare_antisym ex ey). destruct (ex ?= ey)%Z; cbn; try reflexivity.
    by rewrite (compare_cont_flip mx my).
Qed.

Lemma SFcompare_number (x y : spec_float) :
  x ≠ S754_nan → y ≠ S754_nan → is_Some (SFcompare x y).
Proof. destruct x, y; cbn; try done; eauto. Qed.

Lemma ltb_leb (x y : float) : (x <? y)%float = true → (x <=? y)%float = true.
Proof.
  rewrite ltb_spec, leb_spec. unfold SFltb, SFleb.
  by destruct (SFcompare _ _) as [[]|].
Qed.

Lemma eqb_leb (x y : float) : (x =? y)%float = true → (x <=? y)%float = true.
Proof.
  rewrite eqb_spec, leb_spec. unfold SFeqb, SFleb.
  by destruct (SFcompare _ _) as [[]|].
Qed.

Lemma eqb_geb (x y : float) : (x =? y)%float = true → (y <=? x)%float = true.
Proof.
  rewrite eqb_spec, leb_spec. unfold SFeqb, SFleb.
  rewrite (SFcompare_antisym (Prim2SF x) (Prim2SF y)).
  by destruct (SFcompare _ _) as [[]|].
Qed.

Lemma leb_number_l (x y : float) : (x <=? y)%float = true → number x.
Proof.
  rewrite leb_spec. unfold SFleb, number. intros H E. rewrite E in H. done.
Qed.

Lemma leb_number_r (x y : float) : (x <=? y)%float = true → number y.
Proof.
  rewrite leb_spec. unfold SFleb, number. intros H E. rewrite E in H.
  by destruct (Prim2SF x).
Qed.

Lemma float_trichotomy (x y : float) :
  number x → number y →
  (x <? y)%float = true ∨ (y <? x)%float = true ∨ (x =? y)%float = true.
Proof.
  intros Hx Hy. rewrite !ltb_spec, eqb_spec. unfold SFltb, SFeqb.
  rewrite (SFcompare_antisym (Prim2SF x) (Prim2SF y)).
  destruct (SFcompare_number _ _ Hx Hy) as [[] ->]; cbn; auto.
Qed.

(** [Math.min] and [Math.max] of two numbers are one of them, and on the
    right side of both. *)
Lemma Math_min_spec (a b : float) :
  number a → number b →
  (Math_min a b = a ∨ Math_min a b = b) ∧
  (Math_min a b <=? a)%float = true ∧
  (Math_min a b <=? b)%float = true.
Proof.
  intros Ha Hb. unfold Math_min.
  assert ((a <=? a)%float = true ∧ (b <=? b)%float = true) as [Haa Hbb].
  { rewrite !leb_spec. unfold SFleb.
    pose proof (SFcompare_antisym (Prim2SF a) (Prim2SF a)) as Ea.
    pose proof (SFcompare_antisym (Prim2SF b) (Prim2SF b)) as Eb.
    destruct (SFcompare_number _ _ Ha Ha) as [ca Hca].
    destruct (SFcompare_number _ _ Hb Hb) as [cb Hcb].
    rewrite Hca in Ea |- *. rewrite Hcb in Eb |- *. cbn in Ea, Eb.
    by destruct ca, cb. }
  destruct (a <? b)%float eqn:Hab.
  { split; [by left|]. split; [done|by apply ltb_leb]. }
  destruct (b <? a)%float eqn:Hba.
  { split; [by right|]. split; [by apply ltb_leb|done]. }
  destruct (float_trichotomy a b Ha Hb) as [H|[H|H]]; try congruence.
  rewrite H. destruct (get_sign a).
  - split; [by left|]. split; [done|by apply eqb_leb].
  - split; [by right|]. split; [by apply eqb_geb|done].
Qed.














(** Zooming in from the mounted stage, and zooming at the limits and on a
    scale that is not a number. *)
Example wheel_zoom_in :
  handleWheel (Some stage0) (Some (10, 20)%float) zoomIn
  = Some {| scaleX := 1.03; scaleY := 1.03;
            posX := -0.30000000000000071; posY := -0.60000000000000142 |}.
Proof. reflexivity. Qed.

Example wheel_zoom_at_limit :
  scaleX <$> handleWheel (Some stageAtMax) (Some (10, 20)%float) zoomIn = Some 5%float ∧
  clampZoom (0.1 / 1.03) = 0.1%float ∧
  clampZoom nan = nan.
Proof. repeat split; reflexivity. Qed.

End Wheel.

(** * Further properties of the hooks, the page and the canvas *)

(** ** The objects cache and the batch operations *)

Section BoardStoreFacts.

Import BoardStore.

Lemma entry_withId (change : docChange) :
  entry change = withId (doc_id change) (doc_data change).
Proof. reflexivity. Qed.

Lemma onSnapshot_snoc (changes : list docChange) (ch : docChange)
    (prev : gmap string jsobj) :
  onSnapshot (changes ++ [ch]) prev = applyChange (onSnapshot changes prev) ch.
Proof. unfold onSnapshot. by rewrite foldl_app. Qed.

Lemma applyChange_other (next : gmap string jsobj) (ch : docChange) (k : string) :
  doc_id ch ≠ k → applyChange next ch !! k = next !! k.
Proof.
  intros Hne. unfold applyChange.
  destruct (ctype ch); by rewrite ?lookup_insert_ne, ?lookup_delete_ne.
Qed.

(** X1. In the objects cache the last change delivered for a key decides
    what the key holds: nothing after a [removed] change, otherwise the
    document of that change with its key as [id] (unless the document
    carries an [id] of its own); changes to other keys that follow do not
    touch it. *)
Theorem objects_last_change_wins
    (changes later : list docChange) (ch : docChange) (prev : gmap string jsobj) :
  Forall (λ c, doc_id c ≠ doc_id ch) later →
  onSnapshot (changes ++ ch :: later) prev !! doc_id ch
  = match ctype ch with
    | Cursors.removed => None
    | _ => Some (withId (doc_id ch) (doc_data ch))
    end.
Proof.
  intros Hlater. unfold onSnapshot. rewrite foldl_app. cbn [foldl].
  generalize (foldl applyChange prev changes). intros m.
  assert (applyChange m ch !! doc_id ch
          = match ctype ch with
            | Cursors.removed => None
            | _ => Some (withId (doc_id ch) (doc_data ch))
            end) as Hnow.
  { unfold applyChange. destruct (ctype ch);
      by rewrite ?lookup_insert_eq, ?lookup_delete_eq. }
  revert Hnow. generalize (applyChange m ch). clear m.
  induction Hlater as [|c later Hc _ IH]; intros m Hm; [done|].
  cbn [foldl]. apply IH. by rewrite applyChange_other.
Qed.

Lemma objects_untouched_keys_kept
    (changes : list docChange) (prev : gmap string jsobj) (k : string) :
  Forall (λ c, doc_id c ≠ k) changes →
  onSnapshot changes prev !! k = prev !! k.
Proof.
  intros H. unfold onSnapshot. revert prev.
  induction H as [|c changes Hc _ IH]; intros prev; [done|].
  cbn [foldl]. rewrite IH. by apply applyChange_other.
Qed.

Lemma applyChange_mirrors (cache : gmap string jsobj) (c : coll) (ch : docChange) :
  mirrors cache c → mirrors (applyChange cache ch) (replay c ch).
Proof.
  intros Hm k. unfold applyChange, replay, setDoc, deleteDoc.
  destruct (decide (doc_id ch = k)) as [<-|Hne].
  - destruct (ctype ch); by rewrite ?lookup_insert_eq, ?lookup_delete_eq.
  - destruct (ctype ch); rewrite ?lookup_insert_ne, ?lookup_delete_ne by done; apply Hm.
Qed.

Lemma onSnapshot_mirrors (changes : list docChange)
    (cache : gmap string jsobj) (c : coll) :
  mirrors cache c → mirrors (onSnapshot changes cache) (foldl replay c changes).
Proof.
  unfold onSnapshot. revert cache c.
  induction changes as [|ch changes IH]; intros cache c Hm; [exact Hm|].
  cbn [foldl]. by apply IH, applyChange_mirrors.
Qed.

(** X2. Starting from the empty cache, after any stream of changes the
    cache holds exactly the keys of the collection the stream describes,
    each with its document extended by the key as [id]. *)
Theorem objects_cache_mirrors_stream (changes : list docChange) (k : string) :
  onSnapshot changes ∅ !! k = withId k <$> foldl replay ∅ changes !! k.
Proof.
  apply onSnapshot_mirrors. intros k'. by rewrite !lookup_empty.
Qed.


Lemma fullObj_id_field (obj : jsobj) (id uid : string) (now : Z) :
  fullObj obj id uid now !! "id" = Some (VStr id).
Proof. apply fullObj_stamps. Qed.

Lemma withId_own (k : string) (d : jsobj) :
  d !! "id" = Some (VStr k) → withId k d = d.
Proof.
  intros H. unfold withId. apply map_eq. intros f.
  destruct (d !! f) as [v|] eqn:E.
  - by apply lookup_union_Some_l.
  - rewrite lookup_union_r by done.
    destruct (decide (f = "id")) as [->|Hne]; [congruence|].
    by rewrite lookup_singleton_ne.
Qed.

Lemma stageSets_ok (objs : list jsobj) (uid : string) (now : Z)
    (uuids : nat → string) (n : nat) :
  Forall idStringOrAbsent objs →
  ∃ sets, stageSets objs uid now uuids n = Some sets ∧
          length sets = length objs ∧
          ∀ i obj e, objs !! i = Some obj → sets !! i = Some e →
                     e.2 = fullObj obj e.1 uid now.
Proof.
  intros H. revert n. induction H as [|obj objs Hobj _ IH]; intros n.
  - exists []. split; [done|]. split; [done|].
    intros i obj e Hi. by rewrite lookup_nil in Hi.
  - cbn [stageSets]. rewrite (chooseId_spec obj (uuids n) Hobj). cbn [mbind option_bind].
    destruct (IH (if JS.truthy (JS.get obj "id") then n else S n))
      as (sets & -> & Hlen & Hsets).
    eexists. split; [reflexivity|]. split; [simpl; by rewrite Hlen|].
    intros [|i] o e; simpl.
    + by intros [= <-] [= <-].
    + apply Hsets.
Qed.

Lemma commitSets_cons (id : string) (d : jsobj) (sets : list (string * jsobj)) (c : coll) :
  commitSets ((id, d) :: sets) c = commitSets sets (<[id := d]> c).
Proof. reflexivity. Qed.

Lemma commitSets_lookup_other (sets : list (string * jsobj)) (c : coll) (k : string) :
  k ∉ sets.*1 → commitSets sets c !! k = c !! k.
Proof.
  revert c. induction sets as [|[id d] sets IH]; intros c Hk; [done|].
  rewrite fmap_cons, not_elem_of_cons in Hk. destruct Hk as [Hne Hk].
  rewrite commitSets_cons, IH by done. by rewrite lookup_insert_ne.
Qed.

Lemma commitSets_lookup_in (sets : list (string * jsobj)) (c : coll) (k : string) :
  k ∈ sets.*1 → ∃ d, (k, d) ∈ sets ∧ commitSets sets c !! k = Some d.
Proof.
  revert c. induction sets as [|[id d] sets IH]; intros c Hk.
  - by apply elem_of_nil in Hk.
  - rewrite commitSets_cons. destruct (decide (k ∈ sets.*1)) as [Hin|Hnin].
    + destruct (IH (<[id := d]> c) Hin) as (d' & Hd' & Hl).
      exists d'. split; [by right|done].
    + rewrite fmap_cons in Hk. apply elem_of_cons in Hk as [->|Hk]; [|done].
      exists d. split; [by left|].
      rewrite commitSets_lookup_other by done. by rewrite lookup_insert_eq.
Qed.

Lemma commitSets_lookup_nodup (sets : list (string * jsobj)) (c : coll)
    (i : nat) (k : string) (d : jsobj) :
  NoDup sets.*1 → sets !! i = Some (k, d) → commitSets sets c !! k = Some d.
Proof.
  intros Hnd Hi.
  assert (k ∈ sets.*1) as Hin.
  { apply list_elem_of_fmap. exists (k, d). split; [done|]. by eapply list_elem_of_lookup_2. }
  destruct (commitSets_lookup_in sets c k Hin) as (d' & Hd' & ->).
  f_equal. apply list_elem_of_lookup in Hd' as [j Hj].
  assert (i = j) as ->.
  { apply (NoDup_lookup (sets.*1) i j k Hnd); rewrite list_lookup_fmap.
    - by rewrite Hi.
    - by rewrite Hj. }
  congruence.
Qed.

(** X3. [addObjects] on a single object does what [addObject] does on it:
    the same collection afterwards and the same id, a rejected call when
    [addObject] is rejected, and nothing on an unmounted board (where
    [addObjects] returns the empty list and [addObject] returns null). *)
Theorem addObjects_singleton
    (boardId : option string) (obj : jsobj) (uid : string) (now : Z)
    (uuids : nat → string) (c : coll) :
  addObjects boardId [obj] uid now uuids c
  = match addObject boardId obj uid now (uuids 0%nat) c with
    | Some (c', Some id) => Some (c', [id])
    | Some (c', None) => Some (c', [])
    | None => None
    end.
Proof.
  unfold addObjects, addObject. destruct (JS.truthyStr boardId); [|done].
  cbn [stageSets]. destruct (chooseId obj (uuids 0%nat)); done.
Qed.

(** What a batch of well-typed objects does to the collection. *)
Lemma addObjects_result
    (b : string) (objs : list jsobj) (uid : string) (now : Z)
    (uuids : nat → string) (c : coll) :
  b ≠ "" →
  Forall idStringOrAbsent objs →
  ∃ sets : list (string * jsobj),
    addObjects (Some b) objs uid now uuids c = Some (commitSets sets c, sets.*1) ∧
    length sets = length objs ∧
    ∀ i obj e, objs !! i = Some obj → sets !! i = Some e →
               e.2 = fullObj obj e.1 uid now.
Proof.
  intros Hb Hobjs. unfold addObjects. rewrite truthyStr_nonempty by done.
  destruct (stageSets_ok objs uid now uuids 0 Hobjs) as (sets & -> & Hlen & Hsets).
  by exists sets.
Qed.

(** X4. On a mounted board [addObjects] returns one id per object, in
    order; keys outside the returned ids keep what they held; every
    returned id holds a document with that id, the caller as creator and
    the one clock reading of the call as both time stamps; and when the
    ids are distinct, the [i]-th id holds the full document of the [i]-th
    object. *)
Theorem addObjects_batch
    (b : string) (objs : list jsobj) (uid : string) (now : Z)
    (uuids : nat → string) (c : coll) :
  b ≠ "" →
  Forall idStringOrAbsent objs →
  ∃ (c' : coll) (ids : list string),
    addObjects (Some b) objs uid now uuids c = Some (c', ids) ∧
    length ids = length objs ∧
    (∀ k, k ∉ ids → c' !! k = c !! k) ∧
    (∀ id, id ∈ ids →
       ∃ d, c' !! id = Some d ∧
            d !! "id" = Some (VStr id) ∧
            d !! "createdBy" = Some (VStr uid) ∧
            d !! "createdAt" = Some (VTime now) ∧
            d !! "updatedAt" = Some (VTime now)) ∧
    (NoDup ids →
     ∀ i obj id, objs !! i = Some obj → ids !! i = Some id →
                 c' !! id = Some (fullObj obj id uid now)).
Proof.
  intros Hb Hobjs.
  destruct (addObjects_result b objs uid now uuids c Hb Hobjs)
    as (sets & Hadd & Hlen & Hsets).
  eexists _, _. split; [exact Hadd|].
  split; [by rewrite length_fmap|].
  split; [intros k Hk; by apply commitSets_lookup_other|].
  split.
  - intros id Hin. destruct (commitSets_lookup_in sets c id Hin) as (d & Hd & Hl).
    exists d. split; [done|].
    apply list_elem_of_lookup in Hd as [i Hi].
    assert (is_Some (objs !! i)) as [obj Hobj].
    { apply lookup_lt_is_Some. rewrite <- Hlen. by eapply lookup_lt_Some. }
    pose proof (Hsets i obj (id, d) Hobj Hi) as E. cbn in E. subst d.
    destruct (fullObj_stamps obj id uid now) as (H1 & H2 & H3 & H4). done.
  - intros Hnd i obj id Hobj Hid.
    rewrite list_lookup_fmap in Hid.
    destruct (sets !! i) as [[k d]|] eqn:Hi; [|done]. injection Hid as ->.
    rewrite (commitSets_lookup_nodup sets c i id d Hnd Hi).
    pose proof (Hsets i obj (id, d) Hobj Hi) as E. cbn in E. by subst d.
Qed.

Lemma deleteObjects_lookup (b : string) (ids : list string) (c : coll) (k : string) :
  b ≠ "" →
  deleteObjects (Some b) ids c !! k = if decide (k ∈ ids) then None else c !! k.
Proof.
  intros Hb. unfold deleteObjects. rewrite truthyStr_nonempty by done.
  revert c. induction ids as [|id ids IH]; intros c.
  - cbn. by rewrite decide_False by apply not_elem_of_nil.
  - cbn [foldl]. rewrite IH. unfold deleteDoc.
    destruct (decide (k ∈ ids)) as [Hin|Hnin].
    + by rewrite decide_True by (by right).
    + destruct (decide (k = id)) as [->|Hne].
      * rewrite decide_True by (by left). apply lookup_delete_eq.
      * rewrite decide_False by (rewrite elem_of_cons; tauto).
        by rewrite lookup_delete_ne.
Qed.

(** X5. On a mounted board [deleteObjects] removes exactly the keys it is
    given: those keys hold nothing afterwards (whether or not they did
    before), every other key keeps its document, and repeating the call
    changes nothing. *)
Theorem deleteObjects_removes_exactly
    (b : string) (ids : list string) (c : coll) :
  b ≠ "" →
  (∀ k, k ∈ ids → deleteObjects (Some b) ids c !! k = None) ∧
  (∀ k, k ∉ ids → deleteObjects (Some b) ids c !! k = c !! k) ∧
  deleteObjects (Some b) ids (deleteObjects (Some b) ids c)
    = deleteObjects (Some b) ids c.
Proof.
  intros Hb. split; [|split].
  - intros k Hk. rewrite deleteObjects_lookup by done. by rewrite decide_True.
  - intros k Hk. rewrite deleteObjects_lookup by done. by rewrite decide_False.
  - apply map_eq. intros k. rewrite !deleteObjects_lookup by done.
    by destruct (decide (k ∈ ids)).
Qed.

(** X6. Deleting the ids [addObjects] returned undoes the batch: if none
    of the ids was in use before, the collection is the one before the
    batch. *)
Theorem addObjects_then_deleteObjects
    (b : string) (objs : list jsobj) (uid : string) (now : Z)
    (uuids : nat → string) (c : coll) :
  b ≠ "" →
  Forall idStringOrAbsent objs →
  ∃ (c' : coll) (ids : list string),
    addObjects (Some b) objs uid now uuids c = Some (c', ids) ∧
    ((∀ id, id ∈ ids → c !! id = None) → deleteObjects (Some b) ids c' = c).
Proof.
  intros Hb Hobjs.
  destruct (addObjects_result b objs uid now uuids c Hb Hobjs)
    as (sets & Hadd & _ & _).
  eexists _, _. split; [exact Hadd|]. intros Hfresh.
  apply map_eq. intros k. rewrite deleteObjects_lookup by done.
  destruct (decide (k ∈ sets.*1)) as [Hin|Hnin];
    [by rewrite Hfresh|by rewrite commitSets_lookup_other].
Qed.

(** X7. An object written by [addObject] comes back from the snapshot
    listener as written: the cache entry made from the [added] change of
    the stored document is that document, and its [id] is the key it is
    stored under. *)
Theorem addObject_snapshot_round_trip
    (b : string) (obj : jsobj) (uid : string) (now : Z) (uuid : string)
    (c : coll) (prev : gmap string jsobj) :
  b ≠ "" →
  idStringOrAbsent obj →
  ∃ (c' : coll) (id : string) (d : jsobj),
    addObject (Some b) obj uid now uuid c = Some (c', Some id) ∧
    c' !! id = Some d ∧
    onSnapshot [{| ctype := Cursors.added; doc_id := id; doc_data := d |}] prev !! id
      = Some d ∧
    JS.get d "id" = VStr id.
Proof.
  intros Hb Hobj. unfold addObject. rewrite truthyStr_nonempty by done.
  rewrite (chooseId_spec obj uuid Hobj).
  eexists _, _, _. split; [reflexivity|].
  split; [apply lookup_insert_eq|].
  split.
  - unfold onSnapshot. cbn [foldl]. unfold applyChange. cbn [ctype doc_id doc_data].
    rewrite lookup_insert_eq, entry_withId. cbn [doc_id doc_data].
    f_equal. apply withId_own, fullObj_id_field.
  - unfold JS.get. by rewrite fullObj_id_field.
Qed.

Lemma objects_last_change_wins_witness :
  onSnapshot ([noteAdded] ++ noteRemoved :: [otherAdded]) ∅ !! doc_id noteRemoved
  = match ctype noteRemoved with
    | Cursors.removed => None
    | _ => Some (withId (doc_id noteRemoved) (doc_data noteRemoved))
    end.
Proof.
  apply (objects_last_change_wins [noteAdded] [otherAdded] noteRemoved ∅).
  repeat constructor. discriminate.
Defined.

Lemma addObjects_batch_witness :
  ∃ (c' : coll) (ids : list string),
    addObjects (Some "board-1") [bareCircle; bareStickyNote] "user-1" 1000 sampleUuids ∅
      = Some (c', ids) ∧
    length ids = length [bareCircle; bareStickyNote] ∧
    (∀ k, k ∉ ids → c' !! k = (∅ : coll) !! k) ∧
    (∀ id, id ∈ ids →
       ∃ d, c' !! id = Some d ∧
            d !! "id" = Some (VStr id) ∧
            d !! "createdBy" = Some (VStr "user-1") ∧
            d !! "createdAt" = Some (VTime 1000) ∧
            d !! "updatedAt" = Some (VTime 1000)) ∧
    (NoDup ids →
     ∀ i obj id, [bareCircle; bareStickyNote] !! i = Some obj → ids !! i = Some id →
                 c' !! id = Some (fullObj obj id "user-1" 1000)).
Proof.
  apply (addObjects_batch "board-1" [bareCircle; bareStickyNote] "user-1" 1000 sampleUuids ∅).
  - discriminate.
  - repeat constructor; left; reflexivity.
Defined.

Lemma deleteObjects_removes_exactly_witness :
  (∀ k, k ∈ ["o1"] →
        deleteObjects (Some "board-1") ["o1"] (<["o1" := noteAt12]> ∅) !! k = None) ∧
  (∀ k, k ∉ ["o1"] →
        deleteObjects (Some "board-1") ["o1"] (<["o1" := noteAt12]> ∅) !! k
        = (<["o1" := noteAt12]> ∅ : coll) !! k) ∧
  deleteObjects (Some "board-1") ["o1"]
    (deleteObjects (Some "board-1") ["o1"] (<["o1" := noteAt12]> ∅))
  = deleteObjects (Some "board-1") ["o1"] (<["o1" := noteAt12]> ∅).
Proof.
  apply (deleteObjects_removes_exactly "board-1" ["o1"] (<["o1" := noteAt12]> ∅)).
  discriminate.
Defined.

Lemma addObjects_then_deleteObjects_witness :
  ∃ (c' : coll) (ids : list string),
    addObjects (Some "board-1") [bareCircle; bareStickyNote] "user-1" 1000 sampleUuids ∅
      = Some (c', ids) ∧
    ((∀ id, id ∈ ids → (∅ : coll) !! id = None) →
     deleteObjects (Some "board-1") ids c' = ∅).
Proof.
  apply (addObjects_then_deleteObjects
           "board-1" [bareCircle; bareStickyNote] "user-1" 1000 sampleUuids ∅).
  - discriminate.
  - repeat constructor; left; reflexivity.
Defined.

Lemma addObject_snapshot_round_trip_witness :
  ∃ (c' : coll) (id : string) (d : jsobj),
    addObject (Some "board-1") bareCircle "user-1" 1000 "uuid-0" ∅ = Some (c', Some id) ∧
    c' !! id = Some d ∧
    onSnapshot [{| ctype := Cursors.added; doc_id := id; doc_data := d |}] ∅ !! id
      = Some d ∧
    JS.get d "id" = VStr id.
Proof.
  apply (addObject_snapshot_round_trip "board-1" bareCircle "user-1" 1000 "uuid-0" ∅ ∅).
  - discriminate.
  - left; reflexivity.
Defined.

End BoardStoreFacts.

(** ** The user colour *)

Section PresenceColorFacts.

Import PresenceColor.

Lemma toInt32_range (z : Z) : - 2 ^ 31 ≤ toInt32 z < 2 ^ 31.
Proof. unfold toInt32. pose proof (Z.mod_pos_bound (z + 2 ^ 31) (2 ^ 32)). lia. Qed.

Lemma toInt32_congr (a b k : Z) : a = b + k * 2 ^ 32 → toInt32 a = toInt32 b.
Proof.
  intros ->. unfold toInt32.
  replace (b + k * 2 ^ 32 + 2 ^ 31) with (b + 2 ^ 31 + k * 2 ^ 32) by lia.
  by rewrite Z.mod_add.
Qed.

Lemma toInt32_offset (z : Z) : ∃ k, toInt32 z = z + k * 2 ^ 32.
Proof.
  exists (- ((z + 2 ^ 31) / 2 ^ 32)). unfold toInt32.
  rewrite Z.mod_eq by lia. lia.
Qed.

Lemma mix_poly (a c : Z) : mix (toInt32 a) c = toInt32 (31 * a + c).
Proof.
  unfold mix, shl5.
  destruct (toInt32_offset a) as [k1 E1].
  destruct (toInt32_offset (toInt32 a)) as [k2 E2].
  destruct (toInt32_offset (toInt32 (toInt32 a) * 2 ^ 5)) as [k3 E3].
  apply (toInt32_congr _ _ (k3 + 32 * k2 + 31 * k1)). lia.
Qed.

Lemma hashOf_from (uid : list Z) (a : Z) :
  foldl mix (toInt32 a) uid = toInt32 (foldl (λ h c, 31 * h + c) a uid).
Proof.
  revert a. induction uid as [|c uid IH]; intros a; [done|].
  cbn [foldl]. by rewrite mix_poly, IH.
Qed.

(** X8. The hash [getUserColor] computes with [<<], [-], [+] and [| 0] is
    the polynomial hash [31 * h + c] over the code units of the uid,
    computed over the integers and reduced once to a signed 32-bit
    integer; so it lies in [-2^31, 2^31). *)
Theorem hashOf_is_polynomial_hash (uid : list Z) :
  hashOf uid = toInt32 (polyHash uid) ∧ - 2 ^ 31 ≤ hashOf uid < 2 ^ 31.
Proof.
  assert (hashOf uid = toInt32 (polyHash uid)) as E.
  { unfold hashOf, polyHash. by rewrite <- hashOf_from. }
  split; [done|]. rewrite E. apply toInt32_range.
Qed.

(** X9. Whatever the uid (the empty one and hashes that are negative
    included), [getUserColor] returns one of the twelve colours of
    [USER_COLORS]: the index is never out of range. *)
Theorem getUserColor_in_palette (uid : list Z) :
  getUserColor uid ∈ USER_COLORS.
Proof.
  unfold getUserColor.
  set (i := Z.to_nat (Z.abs (hashOf uid) mod Z.of_nat (length USER_COLORS))).
  assert (i < length USER_COLORS)%nat as Hi.
  { unfold i. pose proof (Z.mod_pos_bound (Z.abs (hashOf uid)) (Z.of_nat (length USER_COLORS))).
    cbn [length USER_COLORS] in *. lia. }
  apply lookup_lt_is_Some in Hi as [col Hcol]. rewrite Hcol. cbn.
  by eapply list_elem_of_lookup_2.
Qed.

(** A uid whose hash leaves the 32-bit range on the way. *)
Example getUserColor_user_123 :
  polyHash (charCodes "user-123") = 3324036989232 ∧
  hashOf (charCodes "user-123") = -267697872 ∧
  getUserColor (charCodes "user-123") = "#FF6B6B".
Proof. by vm_compute. Qed.

End PresenceColorFacts.

(** ** More on cursors *)

Lemma spaced_snoc (d : Z) (ts : list Z) (x : Z) :
  spaced d ts → (∀ t, last ts = Some t → d ≤ x - t) → spaced d (ts ++ [x]).
Proof.
  intros Hts Hlast i a b Ha Hb.
  destruct (decide (S i < length ts)%nat) as [Hlt|Hge].
  - rewrite lookup_app_l in Ha by lia. rewrite lookup_app_l in Hb by lia.
    by apply (Hts i).
  - assert (S i = length ts) as Hi.
    { apply lookup_lt_Some in Hb. rewrite length_app in Hb. simpl in Hb. lia. }
    rewrite lookup_app_l in Ha by lia.
    rewrite lookup_app_r in Hb by lia.
    replace (S i - length ts)%nat with 0%nat in Hb by lia. injection Hb as <-.
    apply Hlast. rewrite last_lookup. rewrite <- Hi. simpl. done.
Qed.

Lemma updateCursor_throttled (boardId me : option string) (now : Z) (px py : Q)
    (name col : string) (photo : option string) (p : Cursors.publisher) :
  throttled p →
  throttled (Cursors.updateCursor boardId me now px py name col photo p).
Proof.
  intros (Hsp & Hlast & Hinit & Hall). unfold Cursors.updateCursor.
  destruct (JS.truthyStr boardId); [|done].
  destruct (JS.truthyStr me) as [uid|]; [|done].
  case_bool_decide as Hnear; [done|].
  unfold throttled, writeTimes. cbn [Cursors.writes Cursors.throttleRef].
  rewrite fmap_app. cbn [fmap list_fmap Cursors.lastUpdated snd].
  fold (writeTimes p).
  split; [|split; [|split]].
  - apply spaced_snoc; [done|]. intros t Ht. rewrite (Hlast t Ht). lia.
  - intros t. rewrite last_snoc. by intros [= <-].
  - intros Hnil. by destruct (writeTimes p).
  - apply Forall_app. split; [done|]. constructor; [|done].
    destruct (writeTimes p) as [|t0 ts] eqn:E.
    + rewrite Hinit in Hnear by done. lia.
    + assert (is_Some (last (t0 :: ts))) as [t Ht].
      { rewrite last_is_Some. done. }
      pose proof (Hlast t Ht) as Hl.
      assert (50 ≤ t) as H50.
      { rewrite Forall_forall in Hall. apply Hall.
        rewrite last_lookup in Ht. by eapply list_elem_of_lookup_2. }
      lia.
Qed.

Lemma publish_throttled (boardId me : option string) (name col : string)
    (photo : option string) (moves : list Cursors.move) (p : Cursors.publisher) :
  throttled p → throttled (Cursors.publish boardId me name col photo moves p).
Proof.
  unfold Cursors.publish. revert p.
  induction moves as [|m moves IH]; intros p Hp; [done|].
  cbn [foldl]. by apply IH, updateCursor_throttled.
Qed.

Lemma publish_length (boardId me : option string) (name col : string)
    (photo : option string) (moves : list Cursors.move) (p : Cursors.publisher) :
  (length (Cursors.writes (Cursors.publish boardId me name col photo moves p))
   ≤ length (Cursors.writes p) + length moves)%nat.
Proof.
  unfold Cursors.publish. revert p.
  induction moves as [|m moves IH]; intros p; [simpl; lia|].
  cbn [foldl length]. etrans; [apply IH|].
  unfold Cursors.updateCursor.
  destruct (JS.truthyStr boardId); [|lia].
  destruct (JS.truthyStr me); [|lia].
  case_bool_decide; [lia|]. cbn [Cursors.writes]. rewrite length_app. simpl. lia.
Qed.

(** X10. From the mounted hook on, whatever pointer moves are fed to
    [updateCursor] and whatever the clock reads at each, two consecutive
    cursor writes are at least 50ms apart, and there are no more writes
    than moves. *)
Theorem cursor_writes_rate_limited
    (boardId me : option string) (name col : string) (photo : option string)
    (moves : list Cursors.move) :
  spaced 50 (writeTimes (Cursors.publish boardId me name col photo moves Cursors.initial)) ∧
  (length (Cursors.writes (Cursors.publish boardId me name col photo moves Cursors.initial))
   ≤ length moves)%nat.
Proof.
  split.
  - apply publish_throttled. repeat split; done.
  - apply (publish_length boardId me name col photo moves Cursors.initial).
Qed.

Lemma cursor_applyChange_other (me : option string) (next : gmap string Cursors.CursorData)
    (ch : Cursors.docChange) (k : string) :
  Cursors.doc_id ch ≠ k → Cursors.applyChange me next ch !! k = next !! k.
Proof.
  intros Hne. unfold Cursors.applyChange.
  destruct (Cursors.ctype ch); try case_bool_decide;
    by rewrite ?lookup_insert_ne, ?lookup_delete_ne.
Qed.

Lemma cursor_applyChanges_other (me : option string) (changes : list Cursors.docChange)
    (next : gmap string Cursors.CursorData) (k : string) :
  Forall (λ c, Cursors.doc_id c ≠ k) changes →
  foldl (Cursors.applyChange me) next changes !! k = next !! k.
Proof.
  intros H. revert next. induction H as [|c changes Hc _ IH]; intros next; [done|].
  cbn [foldl]. rewrite IH. by apply cursor_applyChange_other.
Qed.

(** X11. In the cursor cache the last change of a snapshot for a key
    decides: after a [removed] change the key holds nothing; after an
    [added] or [modified] change of another user's cursor that is not
    stale at delivery, the key holds that cursor and the hook lists it. *)
Theorem remote_cursor_last_change_decides
    (me : option string) (now : Z) (changes later : list Cursors.docChange)
    (ch : Cursors.docChange) (prev : gmap string Cursors.CursorData) :
  Forall (λ c, Cursors.doc_id c ≠ Cursors.doc_id ch) later →
  (Cursors.ctype ch = Cursors.removed →
     Cursors.onSnapshot me now (changes ++ ch :: later) prev !! Cursors.doc_id ch = None) ∧
  (Cursors.ctype ch ≠ Cursors.removed →
   Some (Cursors.userId (Cursors.doc_data ch)) ≠ me →
   now - Cursors.lastUpdated (Cursors.doc_data ch) ≤ 30000 →
     Cursors.onSnapshot me now (changes ++ ch :: later) prev !! Cursors.doc_id ch
       = Some (Cursors.doc_data ch) ∧
     Cursors.doc_data ch
       ∈ Cursors.cursorList (Cursors.onSnapshot me now (changes ++ ch :: later) prev)).
Proof.
  intros Hlater.
  assert (∀ m, foldl (Cursors.applyChange me) m (changes ++ ch :: later) !! Cursors.doc_id ch
               = Cursors.applyChange me (foldl (Cursors.applyChange me) m changes) ch
                   !! Cursors.doc_id ch) as Hfold.
  { intros m. rewrite foldl_app. cbn [foldl]. by apply cursor_applyChanges_other. }
  split.
  - intros Hrem. unfold Cursors.onSnapshot.
    destruct (Cursors.cleanStale now _ !! _) as [cur|] eqn:E; [|done].
    apply cleanStale_lookup in E as [E _]. rewrite Hfold in E.
    unfold Cursors.applyChange in E. rewrite Hrem in E.
    by rewrite lookup_delete_eq in E.
  - intros Hkind Hother Hfresh.
    assert (foldl (Cursors.applyChange me) prev (changes ++ ch :: later) !! Cursors.doc_id ch
            = Some (Cursors.doc_data ch)) as Hin.
    { rewrite Hfold. unfold Cursors.applyChange.
      destruct (Cursors.ctype ch); try done;
        rewrite bool_decide_eq_true_2 by done; apply lookup_insert_eq. }
    split.
    + apply cleanStale_lookup. split; [done|]. unfold Cursors.stale. lia.
    + by eapply fresh_cursor_kept.
Qed.

Lemma remote_cursor_last_change_decides_witness :
  (Cursors.ctype cursorAdded = Cursors.removed →
     Cursors.onSnapshot (Some "user-1") 60000 ([] ++ cursorAdded :: []) ∅
       !! Cursors.doc_id cursorAdded = None) ∧
  (Cursors.ctype cursorAdded ≠ Cursors.removed →
   Some (Cursors.userId (Cursors.doc_data cursorAdded)) ≠ Some "user-1" →
   60000 - Cursors.lastUpdated (Cursors.doc_data cursorAdded) ≤ 30000 →
     Cursors.onSnapshot (Some "user-1") 60000 ([] ++ cursorAdded :: []) ∅
       !! Cursors.doc_id cursorAdded
       = Some (Cursors.doc_data cursorAdded) ∧
     Cursors.doc_data cursorAdded
       ∈ Cursors.cursorList
           (Cursors.onSnapshot (Some "user-1") 60000 ([] ++ cursorAdded :: []) ∅)).
Proof.
  apply (remote_cursor_last_change_decides (Some "user-1") 60000 [] [] cursorAdded ∅).
  constructor.
Defined.

(** ** More on update coalescing and canvas clicks *)

Lemma lastTime_cons (t : Z) (e : timedUpdate) (rest : list timedUpdate) :
  lastTime t (e :: rest) = lastTime (at_time e) rest.
Proof.
  unfold lastTime. destruct rest as [|e' rest]; [done|].
  rewrite !fmap_cons.
  change (last (at_time e :: at_time e' :: (at_time <$> rest)))
    with (last (at_time e' :: (at_time <$> rest))).
  assert (is_Some (last (at_time e' :: (at_time <$> rest)))) as [x ->]; [|done].
  by rewrite last_is_Some.
Qed.

(** While calls keep coming in time, nothing is written and the timer is
    re-armed by each of them. *)
Lemma drag_close (events : list timedUpdate) (t : Z) (q : page) :
  flushTimer q = Some (t + 50) →
  closeTogether t events →
  drag events q
  = {| pendingUpdates := bufferAll events (pendingUpdates q);
       flushTimer := Some (lastTime t events + 50);
       activeTool := activeTool q;
       calls := calls q |}.
Proof.
  revert t q. induction events as [|e rest IH]; intros t q Htimer Hclose.
  - unfold drag, bufferAll, lastTime. cbn. rewrite <- Htimer. by destruct q.
  - destruct Hclose as [Hnear Hrest]. unfold drag. cbn [foldl].
    rewrite (elapse_early (at_time e) (t + 50) q) by (done || lia).
    fold (drag rest (debouncedUpdate (at_time e) (target e) (fields e) q)).
    rewrite (IH (at_time e)); [|done|done].
    by rewrite lastTime_cons.
Qed.

Lemma bufferAll_touched (events : list timedUpdate) (m : gmap string jsobj)
    (e : timedUpdate) :
  e ∈ events → is_Some (bufferAll events m !! target e).
Proof.
  unfold bufferAll. revert m.
  induction events as [|e' rest IH] using rev_ind; intros m Hin.
  - by apply elem_of_nil in Hin.
  - rewrite foldl_app. cbn [foldl]. unfold buffered at 1.
    destruct (decide (target e' = target e)) as [->|Hne].
    + rewrite lookup_insert_eq. by eexists.
    + rewrite lookup_insert_ne by done.
      apply elem_of_app in Hin as [Hin|Hin]; [by apply IH|].
      apply list_elem_of_singleton in Hin. congruence.
Qed.

(** X12. A burst of [debouncedUpdate] calls on a page whose timer is not
    armed, each less than 50ms after the one before, ends in one write:
    once 50ms have passed after the last call there has been exactly one
    [updateObjects] call and the buffer is empty.  The batch has one entry
    per id, an entry for every object of the burst, and for the ids the
    burst did not name what the buffer held before. *)
Theorem debounce_burst_is_one_write
    (p : page) (first : timedUpdate) (rest : list timedUpdate) (t_end : Z) :
  flushTimer p = None →
  closeTogether (at_time first) rest →
  lastTime (at_time first) rest + 50 ≤ t_end →
  let after := elapse t_end (drag (first :: rest) p) in
  let batch := toBatch (bufferAll (first :: rest) (pendingUpdates p)) in
  calls after = calls p ++ [UpdateObjects batch] ∧
  pendingUpdates after = ∅ ∧
  NoDup batch.*1 ∧
  (∀ e, e ∈ first :: rest → ∃ changes, (VStr (target e), changes) ∈ batch) ∧
  (∀ k, (∀ e, e ∈ first :: rest → target e ≠ k) →
        ∀ changes, (VStr k, changes) ∈ batch ↔ pendingUpdates p !! k = Some changes).
Proof.
  intros Hidle Hclose Hquiet after batch.
  assert (drag (first :: rest) p
          = {| pendingUpdates := bufferAll (first :: rest) (pendingUpdates p);
               flushTimer := Some (lastTime (at_time first) rest + 50);
               activeTool := activeTool p; calls := calls p |}) as Hrun.
  { unfold drag. cbn [foldl]. unfold elapse at 2. rewrite Hidle.
    fold (drag rest (debouncedUpdate (at_time first) (target first) (fields first) p)).
    by rewrite (drag_close rest (at_time first)). }
  assert (after
          = {| pendingUpdates := ∅; flushTimer := None;
               activeTool := activeTool p; calls := calls p ++ [UpdateObjects batch] |})
    as ->.
  { unfold after. rewrite Hrun. unfold elapse. cbn [flushTimer].
    rewrite bool_decide_eq_true_2 by lia.
    rewrite flush_nonempty; [done|]. cbn [pendingUpdates].
    intros Hempty.
    destruct (bufferAll_touched (first :: rest) (pendingUpdates p) first) as [? Hf];
      [by left|].
    by rewrite Hempty, lookup_empty in Hf. }
  cbn [calls pendingUpdates]. split; [done|]. split; [done|].
  split; [apply toBatch_NoDup|]. split.
  - intros e He.
    destruct (bufferAll_touched (first :: rest) (pendingUpdates p) e He) as [ch Hch].
    exists ch. by apply toBatch_elem.
  - intros k Hk changes. unfold batch. rewrite toBatch_elem.
    assert (bufferAll (first :: rest) (pendingUpdates p) !! k = pendingUpdates p !! k) as ->;
      [|done].
    unfold bufferAll. generalize (pendingUpdates p). revert Hk.
    generalize (first :: rest). clear.
    intros events. induction events as [|e events IH]; intros Hk m; [done|].
    cbn [foldl]. rewrite IH by (intros e' He'; apply Hk; by right).
    unfold buffered. rewrite lookup_insert_ne; [done|]. apply Hk. by left.
Qed.

(** X13. A content update (one that names [text], [color] or
    [strokeWidth]) is written at once and does not flush the buffer: when
    it follows a geometry update of the same object within the 50ms
    window, the sync layer sees the later content update first and the
    earlier geometry update, in its batch, after it. *)
Theorem content_update_overtakes_buffer
    (p : page) (id : string) (geo content : jsobj) (t1 t2 t3 : Z) :
  geometryOnly geo →
  namesContent content →
  t2 - t1 < 50 →
  t1 + 50 ≤ t3 →
  calls (elapse t3 (handleObjectUpdate t2 id content
           (elapse t2 (handleObjectUpdate t1 id geo p))))
  = calls p ++
      [ UpdateObject id content;
        UpdateObjects (toBatch (<[id := JS.spread (default ∅ (pendingUpdates p !! id)) geo]>
                                  (pendingUpdates p))) ].
Proof.
  intros Hgeo Hcontent Hnear Hdue.
  rewrite (handleObjectUpdate_geometry t1 id geo p Hgeo).
  rewrite (elapse_early t2 (t1 + 50)) by (done || lia).
  rewrite handleObjectUpdate_content by exact Hcontent.
  unfold elapse. cbn [flushTimer debouncedUpdate].
  rewrite bool_decide_eq_true_2 by lia.
  rewrite flush_nonempty; cbn [pendingUpdates calls debouncedUpdate].
  - by rewrite <- app_assoc.
  - apply insert_non_empty.
Qed.

(** X14. With a creation tool chosen, [handleCanvasClick] asks for exactly
    one object.  Its [x] is the click's [x] minus half its width, and its
    [y] the click's [y] minus half its height, as the code computes them;
    for a line or an arrow the height is 0, for which the code takes 200
    instead, so that the object is put at the click's [y] minus 100.  The
    tool goes back to select, so a second click adds nothing. *)
Theorem canvas_click_places_object
    (t : Tool) (uid : string) (cx cy cx' cy' : Q) (p : page) :
  activeTool p = t →
  t ≠ ToolSelect → t ≠ ToolPan →
  (∃ w h : Q,
     JS.get (clickObject t cx cy) "width" = VNum w ∧
     JS.get (clickObject t cx cy) "height" = VNum h ∧
     JS.get (clickObject t cx cy) "x" = VNum (cx - w / 2)%Q ∧
     match t with
     | ToolLine | ToolArrow =>
         h = 0%Q ∧ JS.get (clickObject t cx cy) "y" = VNum (cy - 200 / 2)%Q
     | _ => JS.get (clickObject t cx cy) "y" = VNum (cy - h / 2)%Q
     end) ∧
  calls (handleCanvasClick (Some uid) cx cy p)
  = calls p ++ [AddObject (clickObject t cx cy) uid] ∧
  handleCanvasClick (Some uid) cx' cy' (handleCanvasClick (Some uid) cx cy p)
  = handleCanvasClick (Some uid) cx cy p.
Proof.
  intros Ht Hs Hp. split; [|split].
  - destruct t; try done;
      [ exists 200%Q, 200%Q | exists 200%Q, 150%Q | exists 200%Q, 200%Q
      | exists 200%Q, 0%Q | exists 200%Q, 0%Q | exists 200%Q, 200%Q ];
      repeat split; reflexivity.
  - unfold handleCanvasClick. rewrite Ht. destruct t; done.
  - unfold handleCanvasClick at 2 3. rewrite Ht.
    destruct t; done.
Qed.

Lemma dragTo_geometryOnly (px py : Q) : geometryOnly (dragTo px py).
Proof.
  split.
  - intros H. by apply (f_equal (λ m : jsobj, m !! "x")) in H.
  - intros k [v Hv]. unfold dragTo in Hv.
    apply lookup_insert_Some in Hv as [[<- _]|[_ Hv]]; [by left|].
    apply lookup_insert_Some in Hv as [[<- _]|[_ Hv]]; [right; by left|done].
Qed.

Lemma debounce_burst_is_one_write_witness :
  let after := elapse 200 (drag (dragStep1 :: [dragStep2]) mount) in
  let batch := toBatch (bufferAll (dragStep1 :: [dragStep2]) (pendingUpdates mount)) in
  calls after = calls mount ++ [UpdateObjects batch] ∧
  pendingUpdates after = ∅ ∧
  NoDup batch.*1 ∧
  (∀ e, e ∈ dragStep1 :: [dragStep2] → ∃ changes, (VStr (target e), changes) ∈ batch) ∧
  (∀ k, (∀ e, e ∈ dragStep1 :: [dragStep2] → target e ≠ k) →
        ∀ changes, (VStr k, changes) ∈ batch ↔ pendingUpdates mount !! k = Some changes).
Proof.
  apply (debounce_burst_is_one_write mount dragStep1 [dragStep2] 200).
  - reflexivity.
  - simpl. lia.
  - vm_compute. discriminate.
Defined.

Lemma content_update_overtakes_buffer_witness :
  calls (elapse 200 (handleObjectUpdate 110 "o1" recolour
           (elapse 110 (handleObjectUpdate 100 "o1" (dragTo 1 1) mount))))
  = calls mount ++
      [ UpdateObject "o1" recolour;
        UpdateObjects (toBatch (<["o1" := JS.spread (default ∅ (pendingUpdates mount !! "o1"))
                                            (dragTo 1 1)]>
                                  (pendingUpdates mount))) ].
Proof.
  apply (content_update_overtakes_buffer mount "o1" (dragTo 1 1) recolour 100 110 200).
  - apply dragTo_geometryOnly.
  - right; left. eexists. reflexivity.
  - lia.
  - lia.
Defined.

Lemma canvas_click_places_object_witness :
  (∃ w h : Q,
     JS.get (clickObject ToolLine 300 200) "width" = VNum w ∧
     JS.get (clickObject ToolLine 300 200) "height" = VNum h ∧
     JS.get (clickObject ToolLine 300 200) "x" = VNum (300 - w / 2)%Q ∧
     h = 0%Q ∧ JS.get (clickObject ToolLine 300 200) "y" = VNum (200 - 200 / 2)%Q) ∧
  calls (handleCanvasClick (Some "user-1") 300 200 lineToolPage)
  = calls lineToolPage ++ [AddObject (clickObject ToolLine 300 200) "user-1"] ∧
  handleCanvasClick (Some "user-1") 0 0
    (handleCanvasClick (Some "user-1") 300 200 lineToolPage)
  = handleCanvasClick (Some "user-1") 300 200 lineToolPage.
Proof.
  apply (canvas_click_places_object ToolLine "user-1" 300 200 0 0 lineToolPage).
  - reflexivity.
  - discriminate.
  - discriminate.
Defined.

(** ** Selection, clipboard and keyboard *)

Section BoardKeysFacts.

Import BoardKeys.

Lemma when_syncState (c : bool) (f : board → board) (b : board) :
  (∀ b, syncState (f b) = syncState b) → syncState (when c f b) = syncState b.
Proof. intros H. unfold when. by destruct c. Qed.

Lemma toolKeys_syncState (e : keyEvent) (b : board) :
  syncState (toolKeys e b) = syncState b.
Proof.
  unfold toolKeys. cbn zeta.
  repeat (rewrite when_syncState by (intros; reflexivity)). reflexivity.
Qed.

(** X15. Outside a text field, Delete and Backspace do what [handleDelete]
    does and nothing else: with an empty selection nothing at all, and
    otherwise one [deleteObjects] call with the selected ids, after which
    the selection is empty. *)
Theorem keydown_delete_is_guarded
    (e : keyEvent) (user : option string) (objects : list jsobj) (b : board) :
  inTextField e = false →
  key e = "Delete" ∨ key e = "Backspace" →
  handleKeyDown e user objects b = Some (handleDelete b) ∧
  (selectedIds b = [] → handleDelete b = b) ∧
  (selectedIds b ≠ [] →
     handleDelete b
     = {| pg := withCall (DeleteObjects (VStr <$> selectedIds b)) (pg b);
          selectedIds := []; clipboard := clipboard b; showAI := showAI b |}).
Proof.
  intros Hfield Hkey. split; [|split].
  - destruct e as [k m c f]. cbn in *. subst f.
    unfold handleKeyDown, keyIs. cbn [inTextField key metaKey ctrlKey].
    destruct Hkey as [-> | ->]; cbn; unfold toolKeys, keyIs, when; cbn; done.
  - intros Hnil. unfold handleDelete. by rewrite Hnil.
  - intros Hsel. unfold handleDelete. by destruct (selectedIds b).
Qed.

(** X16. [handleKeyDown] reaches the sync layer only on Delete, Backspace
    and, with meta or ctrl held, [d] and [v]: on every other key event
    it makes no call and leaves the debounce buffer and its timer as they
    were. *)
Theorem keydown_writes_only_on_four_keys
    (e : keyEvent) (user : option string) (objects : list jsobj) (b : board) :
  writingKey e = false →
  ∃ b', handleKeyDown e user objects b = Some b' ∧
        calls (pg b') = calls (pg b) ∧
        pendingUpdates (pg b') = pendingUpdates (pg b) ∧
        flushTimer (pg b') = flushTimer (pg b).
Proof.
  unfold writingKey. intros Hw.
  apply orb_false_elim in Hw as [Hw Hmod].
  apply orb_false_elim in Hw as [Hdel Hback].
  unfold handleKeyDown. destruct (inTextField e); [by exists b|].
  rewrite Hdel, Hback. cbn [orb when].
  assert (keyIs e "d" && (metaKey e || ctrlKey e) = false) as ->.
  { destruct (keyIs e "d"), (keyIs e "v"), (metaKey e || ctrlKey e); done. }
  cbn [mbind option_bind].
  assert (keyIs e "v" && (metaKey e || ctrlKey e) = false) as ->.
  { destruct (keyIs e "d"), (keyIs e "v"), (metaKey e || ctrlKey e); done. }
  destruct (keyIs e "c" && (metaKey e || ctrlKey e)).
  - eexists. split; [reflexivity|]. unfold handleCopy.
    by destruct (length (selectedIds b) =? 0)%nat.
  - eexists. split; [reflexivity|].
    pose proof (toolKeys_syncState e b) as H. unfold syncState in H.
    by injection H as -> -> ->.
Qed.

(** X17. Outside a text field each of the keys [v h n r c l a t] chooses
    its tool and changes nothing else.  For [v], [c] and [a] this needs
    that neither meta nor ctrl is held; [h], [n], [r], [l] and [t] choose
    their tool with a modifier held, too. *)
Theorem keydown_selects_tool
    (e : keyEvent) (user : option string) (objects : list jsobj) (b : board) (t : Tool) :
  inTextField e = false →
  assoc (key e) shortcutTool = Some t →
  (metaKey e = false ∧ ctrlKey e = false) ∨ key e ∈ ["h"; "n"; "r"; "l"; "t"] →
  handleKeyDown e user objects b = Some (setActiveTool t b).
Proof.
  intros Hfield Ht Hmod. destruct e as [k m c f]. cbn in *. subst f.
  unfold handleKeyDown, keyIs. cbn [inTextField key metaKey ctrlKey].
  revert Ht. cbn [assoc shortcutTool].
  repeat match goal with
         | |- context [String.eqb k ?s] =>
             destruct (String.eqb_spec k s) as [->|?]
         end; try discriminate; intros [= <-].
  all: destruct Hmod as [[-> ->]|Hin];
    [ cbn; unfold toolKeys, keyIs, when; cbn; by destruct b as [[] ? ? ?]
    | repeat (apply elem_of_cons in Hin as [Hin|Hin]; [try discriminate Hin|]);
      try (by apply elem_of_nil in Hin) ].
  all: destruct m, c; cbn; unfold toolKeys, keyIs, when; cbn; by destruct b as [[] ? ? ?].
Qed.

Lemma movedBy_start (o : jsobj) : numericXY o → movedBy 0 o o.
Proof.
  intros (a & b & Ha & Hb). split; [|split].
  - exists a, a. repeat split; try done. ring.
  - exists b, b. repeat split; try done. ring.
  - done.
Qed.

Lemma movedBy_equal (q q' : Q) (src new : jsobj) :
  (q == q')%Q → movedBy q src new → movedBy q' src new.
Proof.
  intros Hq ((a & a' & Ha & Ha' & Ea) & (b & b' & Hb & Hb' & Eb) & Hrest).
  split; [|split]; [exists a, a' | exists b, b' | done];
    repeat split; try done; by rewrite <- Hq.
Qed.

Lemma get_spread_xy (obj : jsobj) (props : jsobj) (k : string) (v : value) :
  props !! k = Some v → JS.get (JS.spread obj props) k = v.
Proof.
  intros H. unfold JS.get, JS.spread. by rewrite (lookup_union_Some_l _ _ _ _ H).
Qed.

Lemma offsetCopy_moved (q0 q : Q) (src cur : jsobj) :
  movedBy q0 src cur →
  ∃ new, offsetCopy q cur = Some new ∧ copyMovedBy (q0 + q) src new.
Proof.
  intros ((a & a' & Ha & Ha' & Ea) & (b & b' & Hb & Hb' & Eb) & Hrest).
  unfold offsetCopy. rewrite Ha', Hb'. cbn [plusNumber mbind option_bind].
  eexists. split; [reflexivity|]. split; [split; [|split]|].
  - exists a, (a' + q)%Q. split; [done|]. split; [by apply get_spread_xy|].
    rewrite Ea. ring.
  - exists b, (b' + q)%Q. split; [done|]. split; [by apply get_spread_xy|].
    rewrite Eb. ring.
  - intros k Hx Hy Hid. unfold JS.spread, JS.literal. 
    rewrite lookup_union_r; [by apply Hrest|].
    unfold reverse; cbn [rev_append list_to_map foldr fst snd uncurry curry].
    by rewrite !lookup_insert_ne.
  - unfold JS.spread. by apply lookup_union_Some_l.
Qed.

Lemma mapM_offsetCopy (q0 q : Q) (srcs curs : list jsobj) :
  Forall2 (movedBy q0) srcs curs →
  ∃ news, mapM (offsetCopy q) curs = Some news ∧
          Forall2 (copyMovedBy (q0 + q)) srcs news.
Proof.
  induction 1 as [|src cur srcs curs Hm _ (news & Hnews & Hall)].
  - by exists [].
  - destruct (offsetCopy_moved q0 q src cur Hm) as (new & Hnew & Hcopy).
    exists (new :: news). cbn. rewrite Hnew, Hnews. split; [done|]. by constructor.
Qed.

Lemma Forall2_movedBy_start (objs : list jsobj) :
  Forall numericXY objs → Forall2 (movedBy 0) objs objs.
Proof. induction 1; constructor; [by apply movedBy_start|done]. Qed.

(** X18. With a user signed in and a selection, [handleDuplicate] makes one
    [addObjects] call with one copy per selected object of the board, in
    board order: each copy has its source's fields, [x] and [y] moved by
    20, and an undefined [id], so that it is given a new one. *)
Theorem duplicate_copies_selection_offset
    (uid : string) (objects : list jsobj) (b : board) :
  selectedIds b ≠ [] →
  Forall numericXY objects →
  ∃ newObjs : list jsobj,
    handleDuplicate (Some uid) objects b
    = Some {| pg := withCall (AddObjects newObjs uid) (pg b);
              selectedIds := selectedIds b; clipboard := clipboard b;
              showAI := showAI b |} ∧
    Forall2 (copyMovedBy 20)
            (filter (λ o, isSelected (selectedIds b) o = true) objects) newObjs ∧
    length newObjs = length (filter (λ o, isSelected (selectedIds b) o = true) objects).
Proof.
  intros Hsel Hnum. unfold handleDuplicate.
  destruct (selectedIds b) as [|id ids] eqn:Hids; [done|]. cbn [length Nat.eqb].
  set (chosen := filter (λ o, isSelected (id :: ids) o = true) objects).
  assert (Forall numericXY chosen) as Hchosen.
  { apply Forall_forall. intros o Ho. rewrite Forall_forall in Hnum. apply Hnum.
    unfold chosen in Ho. by apply list_elem_of_filter in Ho as [_ Ho]. }
  destruct (mapM_offsetCopy 0 20 chosen chosen (Forall2_movedBy_start _ Hchosen))
    as (news & -> & Hall).
  exists news. cbn [mbind option_bind]. split; [done|].
  assert (Forall2 (copyMovedBy 20) chosen news) as Hall'.
  { eapply Forall2_impl; [exact Hall|]. intros src new [Hm Hid]. split; [|done].
    eapply movedBy_equal; [|exact Hm]. ring. }
  split; [done|]. symmetry. by eapply Forall2_length.
Qed.

Lemma steppedBy_start (q : Q) (o : jsobj) : numericXY o → steppedBy 0 q o o.
Proof.
  intros (a & b & Ha & Hb). split; [|split]; [by exists a|by exists b|done].
Qed.

Lemma offsetCopy_stepped (n : nat) (q : Q) (src cur : jsobj) :
  steppedBy n q src cur →
  ∃ new, offsetCopy q cur = Some new ∧ copySteppedBy (S n) q src new.
Proof.
  intros ((a & Ha & Ha') & (b & Hb & Hb') & Hrest).
  unfold offsetCopy. rewrite Ha', Hb'. cbn [plusNumber mbind option_bind].
  eexists. split; [reflexivity|]. split; [split; [|split]|].
  - exists a. split; [done|]. by apply get_spread_xy.
  - exists b. split; [done|]. by apply get_spread_xy.
  - intros k Hx Hy Hid. unfold JS.spread, JS.literal.
    rewrite lookup_union_r; [by apply Hrest|].
    unfold reverse; cbn [rev_append list_to_map foldr fst snd uncurry curry].
    by rewrite !lookup_insert_ne.
  - unfold JS.spread. by apply lookup_union_Some_l.
Qed.

Lemma offsetKeep_stepped (n : nat) (q : Q) (src cur : jsobj) :
  steppedBy n q src cur →
  ∃ new, offsetKeep q cur = Some new ∧ steppedBy (S n) q src new.
Proof.
  intros ((a & Ha & Ha') & (b & Hb & Hb') & Hrest).
  unfold offsetKeep. rewrite Ha', Hb'. cbn [plusNumber mbind option_bind].
  eexists. split; [reflexivity|]. split; [|split].
  - exists a. split; [done|]. by apply get_spread_xy.
  - exists b. split; [done|]. by apply get_spread_xy.
  - intros k Hx Hy Hid. unfold JS.spread, JS.literal.
    rewrite lookup_union_r; [by apply Hrest|].
    unfold reverse; cbn [rev_append list_to_map foldr fst snd uncurry curry].
    by rewrite !lookup_insert_ne.
Qed.

Lemma mapM_offsetCopy_stepped (n : nat) (q : Q) (srcs curs : list jsobj) :
  Forall2 (steppedBy n q) srcs curs →
  ∃ news, mapM (offsetCopy q) curs = Some news ∧
          Forall2 (copySteppedBy (S n) q) srcs news.
Proof.
  induction 1 as [|src cur srcs curs Hm _ (news & Hnews & Hall)].
  - by exists [].
  - destruct (offsetCopy_stepped n q src cur Hm) as (new & Hnew & Hcopy).
    exists (new :: news). cbn. rewrite Hnew, Hnews. split; [done|]. by constructor.
Qed.

Lemma mapM_offsetKeep_stepped (n : nat) (q : Q) (srcs curs : list jsobj) :
  Forall2 (steppedBy n q) srcs curs →
  ∃ news, mapM (offsetKeep q) curs = Some news ∧
          Forall2 (steppedBy (S n) q) srcs news.
Proof.
  induction 1 as [|src cur srcs curs Hm _ (news & Hnews & Hall)].
  - by exists [].
  - destruct (offsetKeep_stepped n q src cur Hm) as (new & Hnew & Hcopy).
    exists (new :: news). cbn. rewrite Hnew, Hnews. split; [done|]. by constructor.
Qed.

Lemma pasteRounds_from (uid : string) (srcs : list jsobj) (n : nat) :
  srcs ≠ [] →
  ∀ (k : nat) (b : board),
    Forall2 (steppedBy k 30) srcs (clipboard b) →
    ∃ (batches : list (list jsobj)) (b' : board),
      pasteRounds n (Some uid) b = Some b' ∧
      calls (pg b') = calls (pg b) ++ ((λ objs, AddObjects objs uid) <$> batches) ∧
      length batches = n ∧
      (∀ j objs, batches !! j = Some objs →
                 Forall2 (copySteppedBy (k + S j) 30) srcs objs) ∧
      Forall2 (steppedBy (k + n) 30) srcs (clipboard b').
Proof.
  intros Hne. induction n as [|n IH]; intros k b Hclip.
  - exists [], b. cbn [pasteRounds fmap list_fmap length]. rewrite app_nil_r, Nat.add_0_r.
    repeat split; try done.
  - cbn [pasteRounds]. unfold handlePaste.
    assert ((length (clipboard b) =? 0)%nat = false) as ->.
    { apply Nat.eqb_neq. rewrite <- (Forall2_length _ _ _ Hclip).
      destruct srcs; [done|]. cbn. lia. }
    destruct (mapM_offsetCopy_stepped _ 30 _ _ Hclip) as (news & -> & Hnews).
    cbn [mbind option_bind]. unfold pasteResolved. cbn [clipboard].
    destruct (mapM_offsetKeep_stepped _ 30 _ _ Hclip) as (moved & -> & Hmoved).
    cbn [mbind option_bind].
    destruct (IH (S k) {| pg := withCall (AddObjects news uid) (pg b);
                          selectedIds := selectedIds b; clipboard := moved;
                          showAI := showAI b |} Hmoved)
      as (batches & b' & Hrun & Hcalls & Hlen & Hbatches & Hfinal).
    exists (news :: batches), b'. split; [exact Hrun|].
    cbn [pg calls withCall] in Hcalls.
    split; [by rewrite Hcalls, <- app_assoc|].
    split; [cbn; by rewrite Hlen|].
    split; [|by rewrite <- Nat.add_succ_comm].
    intros [|j] objs Hj.
    + cbn in Hj. injection Hj as <-. by rewrite Nat.add_1_r.
    + cbn in Hj. rewrite <- Nat.add_succ_comm. by apply Hbatches.
Qed.

(** X19. Pastes that are each awaited before the next land one step
    further every time: the copies of the [j]-th paste (from 0) are the
    clipboard objects as they were copied with 30 added [j + 1] times to
    [x] and to [y], one addition after the other, and after [n] pastes the
    clipboard holds them with 30 added [n] times. *)
Theorem paste_steps_accumulate (uid : string) (b : board) (n : nat) :
  clipboard b ≠ [] →
  Forall numericXY (clipboard b) →
  ∃ (batches : list (list jsobj)) (b' : board),
    pasteRounds n (Some uid) b = Some b' ∧
    calls (pg b') = calls (pg b) ++ ((λ objs, AddObjects objs uid) <$> batches) ∧
    length batches = n ∧
    (∀ j objs, batches !! j = Some objs →
               Forall2 (copySteppedBy (S j) 30) (clipboard b) objs) ∧
    Forall2 (steppedBy n 30) (clipboard b) (clipboard b').
Proof.
  intros Hne Hnum.
  destruct (pasteRounds_from uid (clipboard b) n Hne 0 b)
    as (batches & b' & Hrun & Hcalls & Hlen & Hbatches & Hfinal).
  { clear Hne. induction Hnum; constructor; [by apply steppedBy_start|done]. }
  exists batches, b'. repeat split; try done.
Qed.

Lemma cachedNote_numericXY : numericXY cachedNote.
Proof. exists 1%Q, 2%Q. split; reflexivity. Qed.

Lemma keydown_delete_is_guarded_witness :
  handleKeyDown {| key := "Delete"; metaKey := false; ctrlKey := false;
                   inTextField := false |} (Some "user-1") [cachedNote] noteSelected
  = Some (handleDelete noteSelected) ∧
  (selectedIds noteSelected = [] → handleDelete noteSelected = noteSelected) ∧
  (selectedIds noteSelected ≠ [] →
     handleDelete noteSelected
     = {| pg := withCall (DeleteObjects (VStr <$> selectedIds noteSelected)) (pg noteSelected);
          selectedIds := []; clipboard := clipboard noteSelected;
          showAI := showAI noteSelected |}).
Proof.
  apply (keydown_delete_is_guarded
           {| key := "Delete"; metaKey := false; ctrlKey := false; inTextField := false |}
           (Some "user-1") [cachedNote] noteSelected).
  - reflexivity.
  - left; reflexivity.
Defined.

Lemma keydown_writes_only_on_four_keys_witness :
  ∃ b', handleKeyDown {| key := "c"; metaKey := true; ctrlKey := false;
                         inTextField := false |} (Some "user-1") [cachedNote] noteSelected
        = Some b' ∧
        calls (pg b') = calls (pg noteSelected) ∧
        pendingUpdates (pg b') = pendingUpdates (pg noteSelected) ∧
        flushTimer (pg b') = flushTimer (pg noteSelected).
Proof.
  apply (keydown_writes_only_on_four_keys
           {| key := "c"; metaKey := true; ctrlKey := false; inTextField := false |}
           (Some "user-1") [cachedNote] noteSelected).
  reflexivity.
Defined.

Lemma keydown_selects_tool_witness :
  handleKeyDown {| key := "h"; metaKey := false; ctrlKey := true;
                   inTextField := false |} (Some "user-1") [cachedNote] noteSelected
  = Some (setActiveTool ToolPan noteSelected).
Proof.
  apply (keydown_selects_tool
           {| key := "h"; metaKey := false; ctrlKey := true; inTextField := false |}
           (Some "user-1") [cachedNote] noteSelected ToolPan).
  - reflexivity.
  - reflexivity.
  - right. by left.
Defined.

Lemma duplicate_copies_selection_offset_witness :
  ∃ newObjs : list jsobj,
    handleDuplicate (Some "user-1") [cachedNote] noteSelected
    = Some {| pg := withCall (AddObjects newObjs "user-1") (pg noteSelected);
              selectedIds := selectedIds noteSelected; clipboard := clipboard noteSelected;
              showAI := showAI noteSelected |} ∧
    Forall2 (copyMovedBy 20)
            (filter (λ o, isSelected (selectedIds noteSelected) o = true) [cachedNote])
            newObjs ∧
    length newObjs
    = length (filter (λ o, isSelected (selectedIds noteSelected) o = true) [cachedNote]).
Proof.
  apply (duplicate_copies_selection_offset "user-1" [cachedNote] noteSelected).
  - discriminate.
  - repeat constructor. apply cachedNote_numericXY.
Defined.

Lemma paste_steps_accumulate_witness :
  ∃ (batches : list (list jsobj)) (b' : board),
    pasteRounds 2 (Some "user-1") noteSelected = Some b' ∧
    calls (pg b') = calls (pg noteSelected)
                    ++ ((λ objs, AddObjects objs "user-1") <$> batches) ∧
    length batches = 2%nat ∧
    (∀ j objs, batches !! j = Some objs →
               Forall2 (copySteppedBy (S j) 30) (clipboard noteSelected) objs) ∧
    Forall2 (steppedBy 2 30) (clipboard noteSelected) (clipboard b').
Proof.
  apply (paste_steps_accumulate "user-1" noteSelected 2).
  - discriminate.
  - repeat constructor. apply cachedNote_numericXY.
Defined.

End BoardKeysFacts.

Section CanvasFacts.

Import CanvasEvents.
Local Open Scope Q_scope.

Lemma isTool_same (t : Tool) : isTool t t = true.
Proof. unfold isTool. apply String.eqb_refl. Qed.

Lemma isTool_select (t : Tool) : isTool t ToolSelect = true ↔ t = ToolSelect.
Proof. split; [by destruct t|intros ->; apply isTool_same]. Qed.

Lemma filter_other_id (o : string) (sel : list string) :
  o ∉ sel → filter (λ i, i ≠ o) sel = sel.
Proof.
  induction sel as [|a sel IH]; [done|]. intros Hin.
  apply not_elem_of_cons in Hin as [Hne Hin].
  rewrite filter_cons_True by done. by rewrite IH.
Qed.

(** X21. A shift-click on an object does nothing unless the select tool is
    chosen; with it, the click toggles that object in the selection and
    leaves the membership of every other object as it was, and a
    selection without repeats stays without repeats. *)
Theorem shift_click_toggles (tool : Tool) (sel : list string) (o : string) :
  match handleObjectClick tool true sel o with
  | None => tool ≠ ToolSelect
  | Some sel' =>
      tool = ToolSelect ∧
      (o ∈ sel' ↔ o ∉ sel) ∧
      (∀ i, i ≠ o → i ∈ sel' ↔ i ∈ sel) ∧
      (NoDup sel → NoDup sel')
  end.
Proof.
  unfold handleObjectClick.
  destruct (isTool tool ToolSelect) eqn:Htool; cbn [negb].
  - apply isTool_select in Htool. case_bool_decide as Hin.
    + split; [done|]. split; [|split].
      * rewrite list_elem_of_filter. split; [by intros [? _]|done].
      * intros i Hi. rewrite list_elem_of_filter. split; [by intros [_ ?]|done].
      * apply NoDup_filter.
    + split; [done|]. split; [|split].
      * rewrite elem_of_app, list_elem_of_singleton. split; [done|by right].
      * intros i Hi. rewrite elem_of_app, list_elem_of_singleton.
        split; [by intros [?|?]|by left].
      * intros Hnd. apply NoDup_app. split; [done|]. split; [|apply NoDup_singleton].
        intros i Hi Hio. apply list_elem_of_singleton in Hio. by subst.
  - intros ->. by rewrite isTool_same in Htool.
Qed.

(** X22. Two shift-clicks on the same object give back the selection (one
    without repeats) up to order, and exactly when the object was not
    selected before. *)
Theorem shift_click_twice_restores (sel : list string) (o : string) :
  NoDup sel →
  ∃ sel1 sel2,
    handleObjectClick ToolSelect true sel o = Some sel1 ∧
    handleObjectClick ToolSelect true sel1 o = Some sel2 ∧
    sel2 ≡ₚ sel ∧
    (o ∉ sel → sel2 = sel).
Proof.
  intros Hnd. unfold handleObjectClick. rewrite isTool_same. cbn [negb].
  destruct (decide (o ∈ sel)) as [Hin|Hin].
  - rewrite (bool_decide_eq_true_2 _ Hin).
    exists (filter (λ i, i ≠ o) sel), (filter (λ i, i ≠ o) sel ++ [o]).
    split; [done|]. rewrite bool_decide_eq_false_2.
    2:{ rewrite list_elem_of_filter. by intros [? _]. }
    split; [done|]. split; [|done].
    apply NoDup_Permutation.
    + apply NoDup_app. split; [by apply NoDup_filter|]. split; [|apply NoDup_singleton].
      intros i Hi Hio. apply list_elem_of_singleton in Hio. subst.
      apply list_elem_of_filter in Hi. by destruct Hi.
    + done.
    + intros i. rewrite elem_of_app, list_elem_of_filter, list_elem_of_singleton.
      destruct (decide (i = o)) as [->|Hio]; [|tauto]. tauto.
  - rewrite (bool_decide_eq_false_2 _ Hin).
    exists (sel ++ [o]), sel. split; [done|].
    rewrite bool_decide_eq_true_2 by (rewrite elem_of_app, list_elem_of_singleton; by right).
    assert (filter (λ i, i ≠ o) (sel ++ [o]) = sel) as ->.
    { rewrite filter_app, filter_other_id by done.
      rewrite filter_cons_False by (by intros ?). cbn. by rewrite app_nil_r. }
    done.
Qed.

Lemma literal_lookup_5 (k1 k2 k3 k4 k5 k : string) (v1 v2 v3 v4 v5 : value) :
  is_Some (JS.literal [(k1, v1); (k2, v2); (k3, v3); (k4, v4); (k5, v5)] !! k) →
  k ∈ [k1; k2; k3; k4; k5].
Proof.
  unfold JS.literal, reverse. cbn [rev_append list_to_map foldr fst snd uncurry curry].
  intros [v Hv]. repeat apply lookup_insert_Some in Hv as [[<- _]|[_ Hv]];
    try (rewrite !elem_of_cons; tauto). done.
Qed.

Lemma literal_lookup_2 (k1 k2 k : string) (v1 v2 : value) :
  is_Some (JS.literal [(k1, v1); (k2, v2)] !! k) → k ∈ [k1; k2].
Proof.
  unfold JS.literal, reverse. cbn [rev_append list_to_map foldr fst snd uncurry curry].
  intros [v Hv]. repeat apply lookup_insert_Some in Hv as [[<- _]|[_ Hv]];
    try (rewrite !elem_of_cons; tauto). done.
Qed.

Lemma handleDragEnd_geometryOnly (n : node) : geometryOnly (handleDragEnd n).
Proof.
  split.
  - intros H. by apply (f_equal (λ m : jsobj, m !! "x")) in H.
  - intros k Hk. apply literal_lookup_2 in Hk.
    apply elem_of_cons in Hk as [->|Hk]; [by left|].
    apply list_elem_of_singleton in Hk as ->. right; by left.
Qed.

Lemma circleDragEnd_geometryOnly (obj : BoardObject) (n : node) :
  geometryOnly (circleDragEnd obj n).
Proof.
  split.
  - intros H. by apply (f_equal (λ m : jsobj, m !! "x")) in H.
  - intros k Hk. apply literal_lookup_2 in Hk.
    apply elem_of_cons in Hk as [->|Hk]; [by left|].
    apply list_elem_of_singleton in Hk as ->. right; by left.
Qed.

Lemma handleTransformEnd_geometryOnly (n : node) : geometryOnly (handleTransformEnd n).2.
Proof.
  split.
  - intros H. by apply (f_equal (λ m : jsobj, m !! "x")) in H.
  - intros k Hk. by apply literal_lookup_5 in Hk.
Qed.

(** X23. The update [handleTransformEnd] reports is a geometry update, so
    [handleObjectUpdate] buffers it and makes no call; the node's scale
    is reset to 1; the reported width and height are the node's size
    times its scale, but never below 20. *)
Theorem transform_end_buffered_at_least_20
    (now : Z) (objId : string) (n : node) (p : page) :
  let '(n', updates) := handleTransformEnd n in
  handleObjectUpdate now objId updates p = debouncedUpdate now objId updates p ∧
  calls (handleObjectUpdate now objId updates p) = calls p ∧
  nodeScaleX n' = 1 ∧ nodeScaleY n' = 1 ∧
  ∃ w h : Q,
    updates !! "width" = Some (VNum w) ∧ updates !! "height" = Some (VNum h) ∧
    20 <= w ∧ 20 <= h ∧
    (20 <= nodeWidth n * nodeScaleX n → w == nodeWidth n * nodeScaleX n) ∧
    (20 <= nodeHeight n * nodeScaleY n → h == nodeHeight n * nodeScaleY n).
Proof.
  pose proof (handleTransformEnd_geometryOnly n) as Hgeo.
  destruct (handleTransformEnd n) as [n' updates] eqn:E. cbn [snd] in Hgeo.
  rewrite (handleObjectUpdate_geometry now objId updates p Hgeo).
  unfold handleTransformEnd in E. injection E as <- <-.
  split; [done|]. split; [done|]. split; [done|]. split; [done|].
  eexists _, _. split; [reflexivity|]. split; [reflexivity|].
  split; [apply Q.le_max_l|]. split; [apply Q.le_max_l|].
  split; intros H; by apply Q.max_r.
Qed.

(** X24. A circle's own drag-end handler reports the corner of the object,
    not the centre the node is drawn at: [x] is the node's [x] minus half
    the object's width and [y] the node's [y] minus half its height, as
    the code computes them, and nothing else.  The update is a geometry
    update, so [handleObjectUpdate] buffers it and makes no call. *)
Theorem circle_drag_end_buffered
    (now : Z) (obj : BoardObject) (n : node) (p : page) :
  let updates := circleDragEnd obj n in
  handleObjectUpdate now (id obj) updates p = debouncedUpdate now (id obj) updates p ∧
  calls (handleObjectUpdate now (id obj) updates p) = calls p ∧
  updates !! "x" = Some (VNum (nodeX n - width obj / 2)) ∧
  updates !! "y" = Some (VNum (nodeY n - height obj / 2)) ∧
  (∀ k, is_Some (updates !! k) → k = "x" ∨ k = "y") ∧
  circlePosition obj = (x obj + width obj / 2, y obj + height obj / 2).
Proof.
  cbn zeta.
  rewrite (handleObjectUpdate_geometry now (id obj) _ p (circleDragEnd_geometryOnly obj n)).
  split; [done|]. split; [done|]. split; [done|]. split; [done|]. split; [|done].
  intros k Hk. apply literal_lookup_2 in Hk.
  apply elem_of_cons in Hk as [->|Hk]; [by left|].
  apply list_elem_of_singleton in Hk as ->. by right.
Qed.

Lemma filter_split {A : Type} (f : A → bool) (l : list A) :
  List.filter f l ++ List.filter (λ a, negb (f a)) l ≡ₚ l.
Proof.
  induction l as [|a l IH]; [done|]. cbn. destruct (f a); cbn.
  - by rewrite IH.
  - by rewrite <- Permutation_middle, IH.
Qed.

Lemma isType_exclusive (o : BoardObject) :
  isType "connector" o = true → isType "frame" o = false.
Proof.
  unfold isType. intros H. apply String.eqb_eq in H. by rewrite H.
Qed.

Lemma layers_sorted (l1 l2 l3 : list BoardObject) (i j : nat) (a b : BoardObject) :
  Forall (λ o, layerOf o = 0%nat) l1 →
  Forall (λ o, layerOf o = 1%nat) l2 →
  Forall (λ o, layerOf o = 2%nat) l3 →
  (l1 ++ l2 ++ l3) !! i = Some a → (l1 ++ l2 ++ l3) !! j = Some b →
  (layerOf a < layerOf b)%nat → (i < j)%nat.
Proof.
  intros H1 H2 H3 Ha Hb Hlt.
  rewrite Forall_lookup in H1, H2, H3.
  apply lookup_app_Some in Ha as [Ha|[Hi Ha]].
  - rewrite (H1 _ _ Ha) in Hlt. apply lookup_lt_Some in Ha.
    apply lookup_app_Some in Hb as [Hb|[Hj Hb]]; [rewrite (H1 _ _ Hb) in Hlt; lia|lia].
  - apply lookup_app_Some in Ha as [Ha|[Hi' Ha]].
    + rewrite (H2 _ _ Ha) in Hlt. apply lookup_lt_Some in Ha.
      apply lookup_app_Some in Hb as [Hb|[Hj Hb]]; [rewrite (H1 _ _ Hb) in Hlt; lia|].
      apply lookup_app_Some in Hb as [Hb|[Hj' Hb]]; [rewrite (H2 _ _ Hb) in Hlt; lia|lia].
    + rewrite (H3 _ _ Ha) in Hlt.
      assert (layerOf b ≤ 2)%nat; [|lia].
      unfold layerOf. repeat case_match; lia.
Qed.

(** X25. The objects layer hands every object to [renderObject] exactly
    once, in three layers: frames first, then connectors, then everything
    else; an object of a lower layer comes before every object of a
    higher one. *)
Theorem drawing_order_layers (objects : list BoardObject) :
  drawingOrder objects ≡ₚ objects ∧
  ∀ (i j : nat) (a b : BoardObject),
    drawingOrder objects !! i = Some a →
    drawingOrder objects !! j = Some b →
    (layerOf a < layerOf b)%nat → (i < j)%nat.
Proof.
  split.
  - unfold drawingOrder.
    rewrite <- (filter_split (isType "frame") objects) at 4.
    apply Permutation_app_head.
    rewrite <- (filter_split (isType "connector")
                  (List.filter (λ a, negb (isType "frame" a)) objects)).
    apply Permutation_app; apply Permutation_refl'.
    + induction objects as [|o objects IH]; [done|]. cbn.
      destruct (isType "connector" o) eqn:Hc.
      * rewrite (isType_exclusive _ Hc). cbn. rewrite Hc. by f_equal.
      * destruct (isType "frame" o); cbn; [done|]. by rewrite Hc.
    + induction objects as [|o objects IH]; [done|]. cbn.
      destruct (isType "frame" o); cbn; [done|].
      destruct (isType "connector" o); cbn; [done|]. by f_equal.
  - intros i j a b. unfold drawingOrder. apply layers_sorted.
    + apply Forall_forall. intros o Ho. apply list_elem_of_In, filter_In in Ho as [_ Ho].
      unfold layerOf. by rewrite Ho.
    + apply Forall_forall. intros o Ho. apply list_elem_of_In, filter_In in Ho as [_ Ho].
      unfold layerOf. by rewrite (isType_exclusive _ Ho), Ho.
    + apply Forall_forall. intros o Ho. apply list_elem_of_In, filter_In in Ho as [_ Ho].
      unfold layerOf. apply andb_prop in Ho as [Hf Hc].
      apply negb_true_iff in Hf, Hc. by rewrite Hf, Hc.
Qed.

Lemma find_hasId_Some (k : option string) (objects : list BoardObject) :
  is_Some (List.find (hasId k) objects) ↔ ∃ o, o ∈ objects ∧ k = Some (id o).
Proof.
  split.
  - intros [o Ho]. apply find_some in Ho as [Hin Hid]. exists o.
    split; [by apply list_elem_of_In|].
    unfold hasId in Hid. destruct k as [s|]; [|done].
    apply String.eqb_eq in Hid. by rewrite Hid.
  - intros (o & Hin & ->). destruct (List.find (hasId (Some (id o))) objects) eqn:E; [done|].
    apply list_elem_of_In in Hin. pose proof (find_none _ _ E o Hin) as H.
    cbn in H. by rewrite String.eqb_refl in H.
Qed.

(** X26. A connector is drawn exactly when both its [fromId] and its
    [toId] name an object of the board; so once an end has been removed
    from the board's objects the connector is not drawn. *)
Theorem connector_drawn_iff_both_ends (objects : list BoardObject) (obj : BoardObject) :
  (is_Some (connectorPoints objects obj) ↔
   (∃ a, a ∈ objects ∧ fromId obj = Some (id a)) ∧
   (∃ b, b ∈ objects ∧ toId obj = Some (id b))) ∧
  ∀ k : string,
    fromId obj = Some k ∨ toId obj = Some k →
    connectorPoints (List.filter (λ o, negb (String.eqb (id o) k)) objects) obj = None.
Proof.
  split.
  - rewrite <- !find_hasId_Some. unfold connectorPoints.
    destruct (List.find (hasId (fromId obj)) objects);
      destruct (List.find (hasId (toId obj)) objects); split; try done;
      try (by intros [[? ?] [? ?]]); by intros [? ?].
  - intros k Hk. unfold connectorPoints.
    assert (∀ o, List.find (hasId (Some k))
                   (List.filter (λ o, negb (String.eqb (id o) k)) objects) ≠ Some o) as Hgone.
    { intros o Ho. apply find_some in Ho as [Hin Hid]. apply filter_In in Hin as [_ Hne].
      cbn in Hid. by rewrite Hid in Hne. }
    destruct Hk as [-> | ->].
    + destruct (List.find (hasId (Some k)) _) eqn:E; [by destruct (Hgone _ eq_refl)|done].
    + destruct (List.find (hasId (fromId obj)) _); [|done].
      destruct (List.find (hasId (Some k)) _) eqn:E; [by destruct (Hgone _ eq_refl)|done].
Qed.

Lemma lessThan_false (a b : Q) : lessThan a b = false ↔ b <= a.
Proof. unfold lessThan. rewrite negb_false_iff. apply Qle_bool_iff. Qed.

(** X27. Whatever boxes the transformer asks for, the box [boundBoxFunc]
    lets through stays at least 20 wide and 20 high when it started so,
    and it is the starting box or one of the boxes asked for. *)
Theorem transformer_box_stays_at_least_20 (start : box) (asked : list box) :
  atLeast20 start →
  atLeast20 (resizeSteps start asked) ∧ resizeSteps start asked ∈ start :: asked.
Proof.
  revert start. induction asked as [|b asked IH]; intros start Hstart.
  - split; [done|]. by left.
  - unfold resizeSteps. cbn [foldl]. fold (resizeSteps (boundBoxFunc start b) asked).
    unfold boundBoxFunc.
    destruct (lessThan (boxWidth b) 20) eqn:Hw; cbn [orb].
    { destruct (IH start Hstart) as [H1 H2]. split; [done|].
      apply elem_of_cons in H2 as [->|H2]; [by left|]. right; by right. }
    destruct (lessThan (boxHeight b) 20) eqn:Hh.
    { destruct (IH start Hstart) as [H1 H2]. split; [done|].
      apply elem_of_cons in H2 as [->|H2]; [by left|]. right; by right. }
    apply lessThan_false in Hw, Hh. destruct (IH b (conj Hw Hh)) as [H1 H2].
    split; [done|]. by right.
Qed.

Lemma shift_click_twice_restores_witness :
  ∃ sel1 sel2,
    handleObjectClick ToolSelect true ["a"; "b"]%string "a" = Some sel1 ∧
    handleObjectClick ToolSelect true sel1 "a" = Some sel2 ∧
    sel2 ≡ₚ ["a"; "b"]%string ∧
    ("a"%string ∉ ["a"; "b"]%string → sel2 = ["a"; "b"]%string).
Proof.
  apply (shift_click_twice_restores ["a"; "b"]%string "a").
  apply (bool_decide_unpack _). reflexivity.
Defined.

Lemma transformer_box_stays_at_least_20_witness :
  atLeast20 (resizeSteps box100 [boxTooNarrow; box30]) ∧
  resizeSteps box100 [boxTooNarrow; box30] ∈ box100 :: [boxTooNarrow; box30].
Proof.
  apply (transformer_box_stays_at_least_20 box100 [boxTooNarrow; box30]).
  split; discriminate.
Defined.

End CanvasFacts.

(** ** The mouse handlers of the stage *)

Section CanvasPointerFacts.

Import PrimFloat SpecFloat FloatOps FloatAxioms Canvas CanvasPointer.

Implicit Types inv : stage → float * float → float * float.

Lemma mouseMoves_panning inv (ptrs : list (float * float)) :
  ∀ (c : canvas) (s : stage),
    stageRef c = Some s → isPanning c = true →
    ∃ (s' : stage) (out : list callback),
      let c' := mouseMoves inv ptrs c in
      stageRef c' = Some s' ∧ isPanning c' = true ∧
      scaleX s' = scaleX s ∧ scaleY s' = scaleY s ∧
      posX s' = panned (posX s) (lastPointerPos c).1 ptrs.*1 ∧
      posY s' = panned (posY s) (lastPointerPos c).2 ptrs.*2 ∧
      emitted c' = emitted c ++ out ∧ cursorMoves out ∧
      length out = length ptrs ∧
      isSelecting c' = isSelecting c ∧ selectionRectRef c' = selectionRectRef c.
Proof.
  induction ptrs as [|[px py] ptrs IH]; intros c s Hs Hpan.
  - exists s, []. cbn. rewrite app_nil_r. repeat split; try done. by constructor.
  - unfold mouseMoves. cbn [foldl]. fold (mouseMoves inv ptrs (handleMouseMove inv (Some (px, py)) c)).
    set (c1 := handleMouseMove inv (Some (px, py)) c).
    assert (c1 = {| stageRef := Some {| scaleX := scaleX s; scaleY := scaleY s;
                                        posX := posX s + (px - (lastPointerPos c).1);
                                        posY := posY s + (py - (lastPointerPos c).2) |};
                    selectionRectRef := selectionRectRef c;
                    isSelecting := isSelecting c; selectionStart := selectionStart c;
                    isPanning := isPanning c; lastPointerPos := (px, py);
                    spacePressed := spacePressed c;
                    emitted := emitted c ++
                      [OnCursorMove (getPointerPosition inv (Some s) (Some (px, py))).1
                                    (getPointerPosition inv (Some s) (Some (px, py))).2] |})
      as Hc1.
    { unfold c1, handleMouseMove. by rewrite Hs, Hpan. }
    clearbody c1. subst c1.
    match goal with
    | |- context [mouseMoves inv ptrs ?c1] =>
        destruct (IH c1 _ eq_refl Hpan)
          as (s' & out & Hs' & Hpan' & Hsx & Hsy & Hx & Hy & Hout & Hmoves & Hlen
              & Hsel & Hrect)
    end.
    exists s', (OnCursorMove (getPointerPosition inv (Some s) (Some (px, py))).1
                             (getPointerPosition inv (Some s) (Some (px, py))).2 :: out).
    cbn zeta. rewrite Hs', Hpan', Hout, Hsel, Hrect.
    cbn [stageRef isPanning lastPointerPos scaleX scaleY posX posY emitted isSelecting
         selectionRectRef fst snd] in *.
    split; [done|]. split; [done|]. split; [done|]. split; [done|].
    split; [by rewrite Hx|]. split; [by rewrite Hy|].
    split. { by rewrite <- app_assoc. }
    split. { constructor; [by eexists _, _|done]. }
    split; [cbn; by rewrite Hlen|done].
Qed.

(** X20. A pan drag moves the stage and nothing else.  After a mouse-down
    that starts panning (middle button, pan tool, space held, or shift
    with the select tool) and any moves, the stage has its scale
    unchanged; each move has added to the stage position the pointer's
    travel since the event before, one move after the other; the moves
    call [onCursorMove], once each, and nothing else; and the selection
    rectangle is untouched. *)
Theorem pan_drag_adds_pointer_travel
    inv (tool : Tool) (e : mouseEvent) (c : canvas) (s : stage)
    (p0 : float * float) (ptrs : list (float * float)) :
  stageRef c = Some s →
  pointer e = Some p0 →
  ((button e =? 1)%Z || CanvasEvents.isTool tool ToolPan || spacePressed c
   || ((button e =? 0)%Z && shiftKey e && CanvasEvents.isTool tool ToolSelect)) = true →
  ∃ (s' : stage) (out : list callback),
    let c' := mouseMoves inv ptrs (handleMouseDown inv tool e c) in
    stageRef c' = Some s' ∧
    scaleX s' = scaleX s ∧ scaleY s' = scaleY s ∧
    posX s' = panned (posX s) p0.1 ptrs.*1 ∧
    posY s' = panned (posY s) p0.2 ptrs.*2 ∧
    emitted c' = emitted c ++ out ∧ cursorMoves out ∧ length out = length ptrs ∧
    isSelecting c' = isSelecting c ∧ selectionRectRef c' = selectionRectRef c.
Proof.
  intros Hs He Hpan.
  set (c0 := handleMouseDown inv tool e c).
  assert (c0 = {| stageRef := stageRef c; selectionRectRef := selectionRectRef c;
                  isSelecting := isSelecting c; selectionStart := selectionStart c;
                  isPanning := true; lastPointerPos := p0;
                  spacePressed := spacePressed c; emitted := emitted c |}) as Hc0.
  { unfold c0, handleMouseDown. by rewrite Hs, Hpan, He. }
  clearbody c0. subst c0.
  match goal with
  | |- context [mouseMoves inv ptrs ?c0] =>
      destruct (mouseMoves_panning inv ptrs c0 s Hs eq_refl)
        as (s' & out & Hs' & _ & Hsx & Hsy & Hx & Hy & Hout & Hmoves & Hlen & Hsel & Hrect)
  end.
  exists s', out. done.
Qed.

Lemma pan_drag_adds_pointer_travel_witness :
  ∃ (s' : stage) (out : list callback),
    let c' := mouseMoves byDivision [(20.7, 30); (40.2, 60)]%float
                (handleMouseDown byDivision ToolPan pressAt canvas0) in
    stageRef c' = Some s' ∧
    scaleX s' = scaleX stage0 ∧ scaleY s' = scaleY stage0 ∧
    posX s' = panned (posX stage0) 10.1%float [20.7; 40.2]%float ∧
    posY s' = panned (posY stage0) 20%float [30; 60]%float ∧
    emitted c' = emitted canvas0 ++ out ∧ cursorMoves out ∧
    length out = length [(20.7, 30); (40.2, 60)]%float ∧
    isSelecting c' = isSelecting canvas0 ∧ selectionRectRef c' = selectionRectRef canvas0.
Proof.
  apply (pan_drag_adds_pointer_travel byDivision ToolPan pressAt canvas0 stage0 (10.1, 20)%float
           [(20.7, 30); (40.2, 60)]%float); reflexivity.
Defined.

(** The travel is added move by move: over the same pointer path the
    stage does not end where one addition of the total travel would put
    it. *)
Example pan_drag_rounds_per_move :
  panned 0.3 10.1 [20.7; 40.2]%float = 30.400000000000006%float ∧
  (0.3 + (40.2 - 10.1))%float = 30.400000000000002%float.
Proof. split; reflexivity. Qed.

(** X29. At a zoom limit a further step in the same direction leaves the
    scale at the limit: zooming in at scale 5 gives scale 5, zooming out
    at scale 0.1 gives scale 0.1, on both axes. *)
Theorem zoom_at_limit_keeps_scale (s : stage) (px py : float) (e : wheel) :
  ctrlKey e || metaKey e = true →
  (positive (deltaY e) = false ∧ scaleX s = MAX_ZOOM) ∨
  (positive (deltaY e) = true ∧ scaleX s = MIN_ZOOM) →
  ∃ s' : stage,
    handleWheel (Some s) (Some (px, py)) e = Some s' ∧
    scaleX s' = scaleX s ∧ scaleY s' = scaleX s.
Proof.
  intros Hz Hlimit. unfold handleWheel. rewrite Hz.
  eexists. split; [reflexivity|]. cbn [scaleX scaleY].
  destruct Hlimit as [[-> ->]|[-> ->]]; split; reflexivity.
Qed.

Lemma zoom_at_limit_keeps_scale_witness :
  ∃ s' : stage,
    handleWheel (Some stageAtMax) (Some (10, 20)%float) zoomIn = Some s' ∧
    scaleX s' = scaleX stageAtMax ∧ scaleY s' = scaleX stageAtMax.
Proof.
  apply (zoom_at_limit_keeps_scale stageAtMax 10%float 20%float zoomIn).
  - reflexivity.
  - left. split; reflexivity.
Defined.

Lemma abs_not_negative (d : float) : (abs d <? 0)%float = false.
Proof.
  rewrite ltb_spec, abs_spec. unfold SFltb.
  change (Prim2SF 0%float) with (S754_zero false).
  by destruct (Prim2SF d) as [sg|sg| |sg m e].
Qed.

(** X30. With the select tool, pressing the left button on the empty
    canvas clears the selection and starts a selection rectangle.  After a
    move the rectangle is visible; in board coordinates its corner is the
    lesser of press point and pointer on each axis and its width and
    height are the absolute differences, as the code computes them, so
    they are never negative, whichever way the pointer went.  The stage
    does not move. *)
Theorem marquee_from_press_to_pointer
    inv (e : mouseEvent) (c : canvas) (s : stage) (r0 : rectAttrs) (p0 p1 : float * float) :
  stageRef c = Some s →
  selectionRectRef c = Some r0 →
  isPanning c = false → spacePressed c = false →
  button e = 0%Z → shiftKey e = false → onEmpty e = true →
  pointer e = Some p0 →
  let a := getPointerPosition inv (Some s) (Some p0) in
  let b := getPointerPosition inv (Some s) (Some p1) in
  let c' := handleMouseMove inv (Some p1) (handleMouseDown inv ToolSelect e c) in
  ∃ r : rectAttrs,
    selectionRectRef c' = Some r ∧ visible r = true ∧
    rectX r = Math_min a.1 b.1 ∧ rectY r = Math_min a.2 b.2 ∧
    rectWidth r = abs (b.1 - a.1) ∧ rectHeight r = abs (b.2 - a.2) ∧
    (rectWidth r <? 0)%float = false ∧ (rectHeight r <? 0)%float = false ∧
    (number a.1 → number b.1 →
     (rectX r <=? a.1)%float = true ∧ (rectX r <=? b.1)%float = true) ∧
    (number a.2 → number b.2 →
     (rectY r <=? a.2)%float = true ∧ (rectY r <=? b.2)%float = true) ∧
    stageRef c' = Some s ∧
    emitted c' = emitted c ++ [OnSelectionChange []; OnCursorMove b.1 b.2].
Proof.
  intros Hs Hr Hpan Hspace Hbutton Hshift Hempty Hp. cbn zeta.
  unfold handleMouseDown. rewrite Hs, Hbutton, Hspace, Hshift, Hempty, Hp, Hr.
  cbn [Z.eqb orb andb CanvasEvents.isTool toolName String.eqb Ascii.eqb Bool.eqb
       fmap option_fmap option_map].
  unfold handleMouseMove.
  cbn [stageRef isPanning isSelecting selectionRectRef selectionStart emitted].
  rewrite Hpan. cbn [fmap option_fmap option_map visible].
  eexists. split; [reflexivity|]. cbn [rectX rectY rectWidth rectHeight visible].
  split; [done|]. split; [done|]. split; [done|]. split; [done|]. split; [done|].
  split; [apply abs_not_negative|]. split; [apply abs_not_negative|].
  split. { intros Ha Hb. by destruct (Math_min_spec _ _ Ha Hb) as (_ & ? & ?). }
  split. { intros Ha Hb. by destruct (Math_min_spec _ _ Ha Hb) as (_ & ? & ?). }
  split; [done|]. by rewrite <- app_assoc.
Qed.

Lemma marquee_from_press_to_pointer_witness :
  let a := getPointerPosition byDivision (Some stage0) (Some (10, 20)%float) in
  let b := getPointerPosition byDivision (Some stage0) (Some (4, 50)%float) in
  let c' := handleMouseMove byDivision (Some (4, 50)%float)
              (handleMouseDown byDivision ToolSelect pressAt0 canvas0) in
  ∃ r : rectAttrs,
    selectionRectRef c' = Some r ∧ visible r = true ∧
    rectX r = Math_min a.1 b.1 ∧ rectY r = Math_min a.2 b.2 ∧
    rectWidth r = abs (b.1 - a.1) ∧ rectHeight r = abs (b.2 - a.2) ∧
    (rectWidth r <? 0)%float = false ∧ (rectHeight r <? 0)%float = false ∧
    (number a.1 → number b.1 →
     (rectX r <=? a.1)%float = true ∧ (rectX r <=? b.1)%float = true) ∧
    (number a.2 → number b.2 →
     (rectY r <=? a.2)%float = true ∧ (rectY r <=? b.2)%float = true) ∧
    stageRef c' = Some stage0 ∧
    emitted c' = emitted canvas0 ++ [OnSelectionChange []; OnCursorMove b.1 b.2].
Proof.
  apply (marquee_from_press_to_pointer byDivision pressAt0 canvas0 stage0 hiddenRect
           (10, 20)%float (4, 50)%float); reflexivity.
Defined.

End CanvasPointerFacts.
